(** * advanced-vector/vector.h: RawMemory<T> and Vector<T>

    A shallow embedding of the two class templates of [vector.h] and the
    properties of the container that follow from the code.

    - [size_t] is a 64-bit unsigned integer: a [Z] in [0, 2^64), every
      arithmetic operation of the source wrapped by [wrap].
    - Raw storage is a heap of blocks; a block is a list of slots, a slot
      is [None] (raw, uninitialised memory) or [Some v] (a live object of
      type [T] with value [v]).
    - [Vector] and [RawMemory] objects are records; [Vector] objects live
      in a store indexed by their address, so that [this != &rhs] is a
      comparison of addresses.
    - Code runs in a state-and-exception monad whose results are a normal
      return, a C++ exception in flight, or a fault (an operation with
      undefined behaviour, or a failed [assert], was reached). *)

From stdpp Require Import base gmap list.
From Stdlib Require Import ZArith Lia.

Local Open Scope Z_scope.

(** ** size_t *)

Definition wrap (z : Z) : Z := z mod 2 ^ 64.

(** ** Pointers into raw storage *)

Definition block := nat.
Definition vref := nat.

Inductive ptr :=
| nullptr
| Ptr (b : block) (off : Z).

Global Instance ptr_eq_dec : EqDecision ptr.
Proof. solve_decision. Defined.

(** [p + k] on a [T*]; the offset counts elements. *)
Definition ptr_add (p : ptr) (k : Z) : ptr :=
  match p with
  | nullptr => nullptr
  | Ptr b off => Ptr b (off + k)
  end.

(** [p - q] for two pointers into the same array. *)
Definition ptr_diff (p q : ptr) : Z :=
  match p, q with
  | Ptr b off, Ptr b' off' => off - off'
  | _, _ => 0
  end.

(** [p <= q]; pointers into different arrays do not compare. *)
Definition ptr_le (p q : ptr) : bool :=
  match p, q with
  | nullptr, nullptr => true
  | Ptr b off, Ptr b' off' => bool_decide (b = b') && (off <=? off')
  | _, _ => false
  end.

Definition ptr_lt (p q : ptr) : bool :=
  match p, q with
  | Ptr b off, Ptr b' off' => bool_decide (b = b') && (off <? off')
  | _, _ => false
  end.

Notation "p +ₚ k" := (ptr_add p k) (at level 50, left associativity).

(** ** The element type

    What the container uses of [T]: its size, its special member
    functions, each of which may throw ([None]), and the two type traits
    the growth policy tests.  A move leaves a value behind in its
    source: [move_construct v = Some (v', r)] builds [v'] and leaves the
    source holding [r].  The destructor does not throw;
    [is_trivially_destructible] tells whether it does anything at all,
    which decides what a destructor call means where no object lives. *)

Class Element (T : Type) := {
  sizeof : Z;
  value_init : option T;
  copy_construct : T -> option T;
  move_construct : T -> option (T * T);
  copy_assign : T -> T -> option T;
  move_assign : T -> T -> option (T * T);
  is_nothrow_move_constructible : bool;
  is_copy_constructible : bool;
  is_trivially_destructible : bool
}.

(** The system allocator: [operator new] satisfies a request of at most
    [max_alloc] bytes and throws [std::bad_alloc] on a larger one. *)
Class Allocator := { max_alloc : Z }.

(** ** Objects *)

Record RawMemory := mkRawMemory {
  buffer_ : ptr;
  capacity_ : Z
}.

Record Vector := mkVector {
  data_ : RawMemory;
  size_ : Z
}.

Inductive exn := bad_alloc | element_exn.

(** ** Running code: normal return, exception in flight, or fault *)

Inductive outcome (St A : Type) :=
| Ok (a : A) (s : St)
| Throw (e : exn) (s : St)
| Fault (s : St).

Global Arguments Ok {St A} a s.
Global Arguments Throw {St A} e s.
Global Arguments Fault {St A} s.

Definition run (St A : Type) : Type := St -> outcome St A.

Definition ret {St A} (a : A) : run St A := fun s => Ok a s.

Definition bind {St A B} (m : run St A) (f : A -> run St B) : run St B :=
  fun s =>
    match m s with
    | Ok a s' => f a s'
    | Throw e s' => Throw e s'
    | Fault s' => Fault s'
    end.

Definition throw {St A} (e : exn) : run St A := fun s => Throw e s.

Definition fault {St A} : run St A := fun s => Fault s.

(** [try { m } catch (...) { cleanup; throw; }] *)
Definition catch_rethrow {St A} (m : run St A) (cleanup : run St unit) : run St A :=
  fun s =>
    match m s with
    | Throw e s' =>
        match cleanup s' with
        | Ok _ s'' => Throw e s''
        | Throw e' s'' => Throw e' s''
        | Fault s'' => Fault s''
        end
    | r => r
    end.

(** [assert(b)]; a violated precondition is undefined behaviour. *)
Definition assert {St} (b : bool) : run St unit := if b then ret tt else fault.

Notation "'let*' x ':=' m 'in' k" := (bind m (fun x => k))
  (at level 10, x name, m at level 100, k at level 200).
Notation "m ;;; k" := (bind m (fun _ => k))
  (at level 100, k at level 200, right associativity).

Section Machine.

Context {T : Type} `{Element T} `{Allocator}.

(** Destructor calls on storage and deallocations, most recent first.
    [EvDestroy p found]: [p->~T()] was run; [found] is the object that
    lived at [p], if one did. *)
Inductive event :=
| EvDestroy (p : ptr) (found : option T)
| EvDelete (p : ptr).

Record state := mkState {
  objs : gmap vref Vector;
  blocks : gmap block (list (option T));
  trace : list event
}.

Definition M (A : Type) : Type := run state A.

(** *** Storage *)

Definition slot_at (s : state) (p : ptr) : option (option T) :=
  match p with
  | nullptr => None
  | Ptr b off =>
      if 0 <=? off then
        match blocks s !! b with
        | Some l => l !! Z.to_nat off
        | None => None
        end
      else None
  end.

Definition set_slot (p : ptr) (x : option T) (s : state) : state :=
  match p with
  | nullptr => s
  | Ptr b off =>
      match blocks s !! b with
      | Some l =>
          mkState (objs s) (<[b := <[Z.to_nat off := x]> l]> (blocks s)) (trace s)
      | None => s
      end
  end.

Definition log (e : event) (s : state) : state :=
  mkState (objs s) (blocks s) (e :: trace s).

(** Reading the object at [p]; there must be one. *)
Definition read (p : ptr) : M T :=
  fun s =>
    match slot_at s p with
    | Some (Some v) => Ok v s
    | _ => Fault s
    end.

(** Storing an object into the slot at [p]; the slot must exist. *)
Definition write (p : ptr) (v : T) : M unit :=
  fun s =>
    match slot_at s p with
    | Some _ => Ok tt (set_slot p (Some v) s)
    | None => Fault s
    end.

(** [new (p) T(args...)]: [args] is the outcome of running the
    constructor on the arguments, [None] when it throws. *)
Definition construct_at (p : ptr) (args : option T) : M unit :=
  fun s =>
    match slot_at s p with
    | Some _ =>
        match args with
        | Some v => Ok tt (set_slot p (Some v) s)
        | None => Throw element_exn s
        end
    | None => Fault s
    end.

(** [std::destroy_at(p)]: runs [p->~T()].  On a live object the call is
    recorded together with the object, and the slot becomes raw.  On an
    address where no object lives (a raw slot, the address one past the
    end of a block, an address outside every block) the call is
    recorded with [found = None]; for a trivially destructible [T] it
    does nothing, for any other [T] it is undefined. *)
Definition destroy_at (p : ptr) : M unit :=
  fun s =>
    match slot_at s p with
    | Some (Some x) => Ok tt (log (EvDestroy p (Some x)) (set_slot p None s))
    | _ =>
        if is_trivially_destructible then Ok tt (log (EvDestroy p None) s)
        else Fault (log (EvDestroy p None) s)
    end.

(** [operator new(bytes)] *)
Definition operator_new (bytes : Z) : M ptr :=
  fun s =>
    if bytes <=? max_alloc then
      let b := fresh (dom (blocks s)) in
      Ok (Ptr b 0)
         (mkState (objs s)
                  (<[b := replicate (Z.to_nat (bytes / sizeof)) None]> (blocks s))
                  (trace s))
    else Throw bad_alloc s.

(** [operator delete(p)]: no effect on a null pointer, releases the block
    that [p] is the start of, and is undefined on any other pointer. *)
Definition operator_delete (p : ptr) : M unit :=
  fun s =>
    match p with
    | nullptr => Ok tt s
    | Ptr b off =>
        match blocks s !! b with
        | Some _ =>
            if off =? 0 then
              Ok tt (mkState (objs s) (delete b (blocks s)) (EvDelete p :: trace s))
            else Fault (log (EvDelete p) s)
        | None => Fault (log (EvDelete p) s)
        end
    end.

(** *** Element operations on storage *)

(** Copy construction of the object at [src] into the slot at [dst] *)
Definition copy_construct_at (dst src : ptr) : M unit :=
  let* v := read src in
  construct_at dst (copy_construct v).

(** Move construction of the object at [src] into the slot at [dst] *)
Definition move_construct_at (dst src : ptr) : M unit :=
  let* v := read src in
  match move_construct v with
  | Some (v', r) => construct_at dst (Some v') ;;; write src r
  | None => construct_at dst None
  end.

(** Copy assignment of the object at [src] to the object at [dst] *)
Definition copy_assign_at (dst src : ptr) : M unit :=
  let* d := read dst in
  let* v := read src in
  match copy_assign d v with
  | Some d' => write dst d'
  | None => throw element_exn
  end.

(** Move assignment of the object at [src] to the object at [dst] *)
Definition move_assign_at (dst src : ptr) : M unit :=
  let* d := read dst in
  let* v := read src in
  match move_assign d v with
  | Some (d', r) => write src r ;;; write dst d'
  | None => throw element_exn
  end.

(** Move assignment of a local object holding [v] to the object at [dst] *)
Definition move_assign_local (dst : ptr) (v : T) : M unit :=
  let* d := read dst in
  match move_assign d v with
  | Some (d', _) => write dst d'
  | None => throw element_exn
  end.

(** *** <memory> and <algorithm> *)

(** [std::destroy_n(first, n)] *)
Fixpoint destroy_loop (first : ptr) (n : nat) : M unit :=
  match n with
  | O => ret tt
  | S n' => destroy_at first ;;; destroy_loop (first +ₚ 1) n'
  end.

Definition destroy_n (first : ptr) (n : Z) : M unit :=
  destroy_loop first (Z.to_nat n).

(** The loops of [std::uninitialized_*_n]: [k] objects are already
    constructed at [d_first]; when constructing the next one throws,
    those [k] are destroyed and the exception is rethrown. *)
Fixpoint uninitialized_loop (step : ptr -> Z -> M unit)
    (d_first : ptr) (k : Z) (n : nat) : M unit :=
  match n with
  | O => ret tt
  | S n' =>
      catch_rethrow (step (d_first +ₚ k) k) (destroy_n d_first k) ;;;
      uninitialized_loop step d_first (k + 1) n'
  end.

(** [std::uninitialized_copy_n(first, count, d_first)] *)
Definition uninitialized_copy_n (first : ptr) (count : Z) (d_first : ptr) : M unit :=
  uninitialized_loop (fun dst k => copy_construct_at dst (first +ₚ k))
                     d_first 0 (Z.to_nat count).

(** [std::uninitialized_move_n(first, count, d_first)] *)
Definition uninitialized_move_n (first : ptr) (count : Z) (d_first : ptr) : M unit :=
  uninitialized_loop (fun dst k => move_construct_at dst (first +ₚ k))
                     d_first 0 (Z.to_nat count).

(** [std::uninitialized_value_construct_n(first, n)] *)
Definition uninitialized_value_construct_n (first : ptr) (n : Z) : M unit :=
  uninitialized_loop (fun dst _ => construct_at dst value_init)
                     first 0 (Z.to_nat n).

(** [std::copy_n(first, count, result)] *)
Fixpoint copy_loop (first result : ptr) (n : nat) : M unit :=
  match n with
  | O => ret tt
  | S n' =>
      copy_assign_at result first ;;;
      copy_loop (first +ₚ 1) (result +ₚ 1) n'
  end.

Definition copy_n (first : ptr) (count : Z) (result : ptr) : M unit :=
  copy_loop first result (Z.to_nat count).

(** [std::move(first, last, d_first)] *)
Fixpoint move_loop (first d_first : ptr) (n : nat) : M unit :=
  match n with
  | O => ret tt
  | S n' =>
      move_assign_at d_first first ;;;
      move_loop (first +ₚ 1) (d_first +ₚ 1) n'
  end.

Definition std_move (first last d_first : ptr) : M unit :=
  move_loop first d_first (Z.to_nat (ptr_diff last first)).

(** [std::move_backward(first, last, d_last)] *)
Fixpoint move_backward_loop (last d_last : ptr) (n : nat) : M unit :=
  match n with
  | O => ret tt
  | S n' =>
      move_assign_at (d_last +ₚ -1) (last +ₚ -1) ;;;
      move_backward_loop (last +ₚ -1) (d_last +ₚ -1) n'
  end.

Definition move_backward (first last d_last : ptr) : M unit :=
  move_backward_loop last d_last (Z.to_nat (ptr_diff last first)).

(** *** RawMemory<T> *)

(** [Allocate(n)] *)
Definition Allocate (n : Z) : M ptr :=
  if negb (n =? 0) then operator_new (wrap (n * sizeof)) else ret nullptr.

(** [Deallocate(buf)] *)
Definition Deallocate (buf : ptr) : M unit := operator_delete buf.

(** [RawMemory()] *)
Definition RawMemory_default : RawMemory := mkRawMemory nullptr 0.

(** [RawMemory(capacity)] *)
Definition RawMemory_new (capacity : Z) : M RawMemory :=
  let* buf := Allocate capacity in
  ret (mkRawMemory buf capacity).

(** [~RawMemory()] *)
Definition RawMemory_dtor (r : RawMemory) : M unit := Deallocate (buffer_ r).

(** [RawMemory::operator+(offset)] *)
Definition RawMemory_plus (r : RawMemory) (offset : Z) : M ptr :=
  assert (offset <=? capacity_ r) ;;;
  ret (buffer_ r +ₚ offset).

(** [RawMemory::operator[](index)], as the address of the element *)
Definition RawMemory_index (r : RawMemory) (index : Z) : M ptr :=
  assert (index <? capacity_ r) ;;;
  ret (buffer_ r +ₚ index).

Definition GetAddress (r : RawMemory) : ptr := buffer_ r.

(** [RawMemory::Swap(other)], on two values *)
Definition RawMemory_Swap (a b : RawMemory) : RawMemory * RawMemory :=
  (mkRawMemory (buffer_ b) (capacity_ b), mkRawMemory (buffer_ a) (capacity_ a)).

(** [RawMemory(RawMemory&& other)], on a value: the new object, and
    what [other] holds afterwards. *)
Definition RawMemory_move (other : RawMemory) : RawMemory * RawMemory :=
  (mkRawMemory (buffer_ other) (capacity_ other), mkRawMemory nullptr 0).

(** [operator=(RawMemory&& rhs)] between two distinct objects, on their
    values: what [*this] and [rhs] hold afterwards.  What [*this] held
    is overwritten. *)
Definition RawMemory_assign_move (this rhs : RawMemory) : RawMemory * RawMemory :=
  (mkRawMemory (buffer_ rhs) (capacity_ rhs), mkRawMemory nullptr 0).

(** A local [RawMemory<T> new_data(capacity)] and its scope.  [body]
    returns the value the local holds when the scope is left normally;
    the destructor releases that.  The local is reassigned only by the
    [Swap] that ends each scope in the source, after the last statement
    that can throw, so on an exception it still holds what the
    constructor gave it, and the destructor releases that. *)
Definition with_new_data {A} (capacity : Z)
    (body : RawMemory -> M (A * RawMemory)) : M A :=
  let* new_data := RawMemory_new capacity in
  let* r := catch_rethrow (body new_data) (RawMemory_dtor new_data) in
  RawMemory_dtor (snd r) ;;;
  ret (fst r).

(** *** Vector<T>: access to the object at address [this] *)

Definition get (this : vref) : M Vector :=
  fun s =>
    match objs s !! this with
    | Some v => Ok v s
    | None => Fault s
    end.

Definition put (this : vref) (v : Vector) : M unit :=
  fun s => Ok tt (mkState (<[this := v]> (objs s)) (blocks s) (trace s)).

Definition set_size (this : vref) (n : Z) : M unit :=
  let* v := get this in
  put this (mkVector (data_ v) n).

Definition set_data (this : vref) (d : RawMemory) : M unit :=
  let* v := get this in
  put this (mkVector d (size_ v)).

(** [data_.Swap(new_data)] for a local [new_data]; returns what the
    local holds afterwards. *)
Definition swap_data (this : vref) (new_data : RawMemory) : M RawMemory :=
  let* v := get this in
  let (mine, theirs) := RawMemory_Swap (data_ v) new_data in
  set_data this mine ;;;
  ret theirs.

(** *** Vector<T>: queries and iterators *)

Definition Size (this : vref) : M Z :=
  let* v := get this in ret (size_ v).

Definition Capacity (this : vref) : M Z :=
  let* v := get this in ret (capacity_ (data_ v)).

Definition begin (this : vref) : M ptr :=
  let* v := get this in ret (GetAddress (data_ v)).

Definition end_ (this : vref) : M ptr :=
  let* v := get this in ret (GetAddress (data_ v) +ₚ size_ v).

(** [operator[](index)], as the address of the element *)
Definition at_index (this : vref) (index : Z) : M ptr :=
  let* v := get this in
  assert (index <? size_ v) ;;;
  RawMemory_index (data_ v) index.

(** *** Vector<T>: constructors, destructor, Swap *)

(** [Vector()] constructs an empty object at address [this]. *)
Definition Vector_default (this : vref) : M unit :=
  put this (mkVector RawMemory_default 0).

(** [Vector(size)].  The member [data_] is constructed first; when the
    body throws, the destructor of that member releases the storage. *)
Definition Vector_sized (this : vref) (size : Z) : M unit :=
  let* data := RawMemory_new size in
  catch_rethrow (uninitialized_value_construct_n (GetAddress data) size)
                (RawMemory_dtor data) ;;;
  put this (mkVector data size).

(** [Vector(const Vector& other)] *)
Definition Vector_copy (this other : vref) : M unit :=
  let* o := get other in
  let* data := RawMemory_new (size_ o) in
  catch_rethrow
    (uninitialized_copy_n (GetAddress (data_ o)) (size_ o) (GetAddress data))
    (RawMemory_dtor data) ;;;
  put this (mkVector data (size_ o)).

(** [Swap(other)]: [std::swap] of the sizes, then [data_.Swap] *)
Definition Swap (this other : vref) : M unit :=
  let* a := get this in
  let* b := get other in
  set_size this (size_ b) ;;;
  set_size other (size_ a) ;;;
  let* a := get this in
  let* b := get other in
  let (mine, theirs) := RawMemory_Swap (data_ a) (data_ b) in
  set_data this mine ;;;
  set_data other theirs.

(** [Vector(Vector&& other)] *)
Definition Vector_move (this other : vref) : M unit :=
  Vector_default this ;;;
  Swap this other.

(** [~Vector()]: destroys the elements, then the member [data_]; the
    object is gone from the store. *)
Definition Vector_dtor (this : vref) : M unit :=
  let* v := get this in
  destroy_n (GetAddress (data_ v)) (size_ v) ;;;
  RawMemory_dtor (data_ v) ;;;
  fun s => Ok tt (mkState (delete this (objs s)) (blocks s) (trace s)).

(** *** Vector<T>: assignment *)

(** The address of a local object: one that no other object has. *)
Definition local_object : M vref :=
  fun s => Ok (fresh (dom (objs s))) s.

(** [operator=(const Vector& rhs)].  The local [rhs_copy] is an object
    at an address no other object has; its destructor runs when its
    scope is left. *)
Definition assign_copy (this rhs : vref) : M unit :=
  if negb (bool_decide (this = rhs)) then
    let* r := get rhs in
    let* t := get this in
    if size_ r >? capacity_ (data_ t) then
      let* rhs_copy := local_object in
      Vector_copy rhs_copy rhs ;;;
      Swap this rhs_copy ;;;
      Vector_dtor rhs_copy
    else
      (if size_ r <? size_ t then
         copy_n (GetAddress (data_ r)) (size_ r) (GetAddress (data_ t)) ;;;
         destroy_n (GetAddress (data_ t) +ₚ size_ r) (wrap (size_ t - size_ r))
       else
         copy_n (GetAddress (data_ r)) (size_ t) (GetAddress (data_ t)) ;;;
         uninitialized_copy_n (GetAddress (data_ r) +ₚ size_ t)
                              (wrap (size_ r - size_ t))
                              (GetAddress (data_ t) +ₚ size_ t)) ;;;
      set_size this (size_ r)
  else ret tt.

(** [operator=(Vector&& rhs)] *)
Definition assign_move (this rhs : vref) : M unit :=
  if bool_decide (this = rhs) then ret tt
  else Swap this rhs.

(** *** Vector<T>: growth *)

(** [Reserve(new_capacity)] *)
Definition Reserve (this : vref) (new_capacity : Z) : M unit :=
  let* v := get this in
  if new_capacity <=? capacity_ (data_ v) then ret tt
  else
    with_new_data new_capacity (fun new_data =>
      (if is_nothrow_move_constructible || negb is_copy_constructible then
         uninitialized_move_n (GetAddress (data_ v)) (size_ v) (GetAddress new_data)
       else
         uninitialized_copy_n (GetAddress (data_ v)) (size_ v) (GetAddress new_data)) ;;;
      destroy_n (GetAddress (data_ v)) (size_ v) ;;;
      let* old := swap_data this new_data in
      ret (tt, old)).

(** [Resize(new_size)] *)
Definition Resize (this : vref) (new_size : Z) : M unit :=
  let* v := get this in
  if new_size =? size_ v then ret tt
  else
    (if new_size <? size_ v then
       destroy_n (GetAddress (data_ v) +ₚ new_size) (wrap (size_ v - new_size))
     else
       Reserve this new_size ;;;
       let* v' := get this in
       uninitialized_value_construct_n (GetAddress (data_ v') +ₚ size_ v')
                                       (wrap (new_size - size_ v'))) ;;;
    set_size this new_size.

(** [EmplaceBack(args...)]; [args] is the outcome of [T(args...)].
    Returns the address of the new element. *)
Definition EmplaceBack (this : vref) (args : option T) : M ptr :=
  let* v := get this in
  if negb (size_ v =? capacity_ (data_ v)) then
    let* r := RawMemory_plus (data_ v) (size_ v) in
    construct_at r args ;;;
    set_size this (wrap (size_ v + 1)) ;;;
    ret r
  else
    with_new_data (if size_ v =? 0 then 1 else wrap (size_ v * 2)) (fun new_data =>
      let* result := RawMemory_plus new_data (size_ v) in
      construct_at result args ;;;
      (if negb is_nothrow_move_constructible && is_copy_constructible then
         catch_rethrow
           (uninitialized_copy_n (GetAddress (data_ v)) (size_ v) (GetAddress new_data))
           (destroy_n (GetAddress new_data +ₚ size_ v) 1)
       else
         uninitialized_move_n (GetAddress (data_ v)) (size_ v) (GetAddress new_data)) ;;;
      destroy_n (GetAddress (data_ v)) (size_ v) ;;;
      let* old := swap_data this new_data in
      set_size this (wrap (size_ v + 1)) ;;;
      ret (result, old)).

(** [PushBack(value)]: [EmplaceBack] of a copy of an lvalue, of a move
    of an rvalue. *)
Definition PushBack_copy (this : vref) (value : T) : M unit :=
  EmplaceBack this (copy_construct value) ;;; ret tt.

Definition PushBack_move (this : vref) (value : T) : M unit :=
  EmplaceBack this (fst <$> move_construct value) ;;; ret tt.

(** *** Vector<T>: removal *)

(** [PopBack()].  The argument of [std::destroy_at] is computed from
    [size_--], whose value is the size before the decrement. *)
Definition PopBack (this : vref) : M unit :=
  let* v := get this in
  if size_ v <? 1 then ret tt
  else
    set_size this (wrap (size_ v - 1)) ;;;
    destroy_at (GetAddress (data_ v) +ₚ size_ v).

(** [Erase(pos)] *)
Definition Erase (this : vref) (pos : ptr) : M ptr :=
  let* b := begin this in
  let* e := end_ this in
  assert (ptr_le b pos && ptr_lt pos e) ;;;
  let shift := wrap (ptr_diff pos b) in
  std_move (b +ₚ shift +ₚ 1) e (b +ₚ shift) ;;;
  PopBack this ;;;
  let* b' := begin this in
  ret (b' +ₚ shift).

(** *** Vector<T>: insertion *)

(** [Emplace(pos, args...)]; [args] is the outcome of [T(args...)],
    which every path runs once, before it touches an element. *)
Definition Emplace (this : vref) (pos : ptr) (args : option T) : M ptr :=
  let* b := begin this in
  let* e := end_ this in
  assert (ptr_le b pos && ptr_le pos e) ;;;
  let index := wrap (ptr_diff pos b) in
  let* v := get this in
  (if capacity_ (data_ v) >? size_ v then
     catch_rethrow
       (if negb (bool_decide (pos = e)) then
          match args with
          | Some new_s =>
              let* last := RawMemory_index (data_ v) (wrap (size_ v - 1)) in
              move_construct_at e last ;;;
              move_backward (b +ₚ index) (e +ₚ -1) e ;;;
              move_assign_local (b +ₚ index) new_s
          | None => throw element_exn
          end
        else construct_at e args)
       (operator_delete e)
   else
     with_new_data (if size_ v =? 0 then 1 else wrap (size_ v * 2)) (fun new_data =>
       construct_at (GetAddress new_data +ₚ index) args ;;;
       (if negb is_nothrow_move_constructible && is_copy_constructible then
          uninitialized_copy_n (GetAddress (data_ v)) index (GetAddress new_data) ;;;
          uninitialized_copy_n (GetAddress (data_ v) +ₚ index)
                               (wrap (size_ v - index))
                               (GetAddress new_data +ₚ index +ₚ 1)
        else
          uninitialized_move_n (GetAddress (data_ v)) index (GetAddress new_data) ;;;
          uninitialized_move_n (GetAddress (data_ v) +ₚ index)
                               (wrap (size_ v - index))
                               (GetAddress new_data +ₚ index +ₚ 1)) ;;;
       destroy_n (GetAddress (data_ v)) (size_ v) ;;;
       let* old := swap_data this new_data in
       ret (tt, old))) ;;;
  let* v' := get this in
  set_size this (wrap (size_ v' + 1)) ;;;
  let* b' := begin this in
  ret (b' +ₚ index).

(** [Insert(pos, const T& value)] and [Insert(pos, T&& value)] *)
Definition Insert_copy (this : vref) (pos : ptr) (value : T) : M ptr :=
  Emplace this pos (copy_construct value).

Definition Insert_move (this : vref) (pos : ptr) (value : T) : M ptr :=
  Emplace this pos (fst <$> move_construct value).

End Machine.

Global Arguments event T : clear implicits.
Global Arguments state T : clear implicits.
Global Arguments M T A : clear implicits.

(** ** The sequence of elements a Vector holds *)

Section View.

Context {T : Type} `{Element T} `{Allocator}.

(** The slots of the Vector's storage, from the address it holds on. *)
Definition storage (s : state T) (v : Vector) : option (list (option T)) :=
  match buffer_ (data_ v) with
  | nullptr => Some []
  | Ptr b off => drop (Z.to_nat off) <$> blocks s !! b
  end.

(** The values of the elements [0, size): the first [size] slots of the
    storage, when they exist and all hold live objects. *)
Definition elements (s : state T) (v : Vector) : option (list T) :=
  match storage s v with
  | Some l =>
      if bool_decide (Z.to_nat (size_ v) <= length l)%nat
      then mapM id (take (Z.to_nat (size_ v)) l)
      else None
  | None => None
  end.

(** The state [s] with the block [b] holding the slots [l]. *)
Definition set_block (b : block) (l : list (option T)) (s : state T) : state T :=
  mkState (objs s) (<[b := l]> (blocks s)) (trace s).

(** The representation invariant of a Vector over the heap: the sizes
    are in order, the storage is a block of exactly [capacity] slots that
    the allocator can have handed out (none when the capacity is 0), and
    the slots [0, size) hold live objects. *)
Definition well_formed (s : state T) (v : Vector) : bool :=
  (0 <=? size_ v) && (size_ v <=? capacity_ (data_ v)) &&
  (capacity_ (data_ v) * sizeof <=? max_alloc) &&
  match buffer_ (data_ v) with
  | nullptr => capacity_ (data_ v) =? 0
  | Ptr b off =>
      (off =? 0) && (0 <? capacity_ (data_ v)) &&
      match blocks s !! b with
      | Some l =>
          bool_decide (length l = Z.to_nat (capacity_ (data_ v))) &&
          forallb (fun x : option T => bool_decide (is_Some x))
                  (take (Z.to_nat (size_ v)) l)
      | None => false
      end
  end.

(** The element type has value semantics: copying and moving do not
    throw and hand over the value of their source. *)
Definition value_semantics : Prop :=
  (forall x, copy_construct x = Some x) /\
  (forall x, exists r, move_construct x = Some (x, r)) /\
  (forall d x, exists r, move_assign d x = Some (x, r)).

(** How a well-formed Vector holding [es] lies in the heap: no storage
    at all, or a block that starts with the live elements. *)
Inductive layout (s : state T) (v : Vector) (es : list T) : Prop :=
| layout_null :
    buffer_ (data_ v) = nullptr -> capacity_ (data_ v) = 0 -> size_ v = 0 ->
    es = [] -> layout s v es
| layout_block (b : block) (rest : list (option T)) :
    buffer_ (data_ v) = Ptr b 0 ->
    blocks s !! b = Some ((Some <$> es) ++ rest) ->
    Z.of_nat (length es) = size_ v ->
    Z.of_nat (length es + length rest) = capacity_ (data_ v) ->
    0 < capacity_ (data_ v) ->
    layout s v es.

(** [0 <= size <= capacity] *)
Definition sizes_ok (v : Vector) : Prop :=
  0 <= size_ v <= capacity_ (data_ v).

(** The sizes are in order and the allocator can have handed out the
    storage. *)
Definition bounded (v : Vector) : Prop :=
  sizes_ok v /\ capacity_ (data_ v) * sizeof <= max_alloc.

(** In state [s'] the object at [this] has its sizes in order and at
    least the capacity that [v] has. *)
Definition keeps (this : vref) (v : Vector) (s' : state T) : Prop :=
  exists v', objs s' !! this = Some v' /\ sizes_ok v' /\
             capacity_ (data_ v) <= capacity_ (data_ v').

(** ** Statements about runs

    [holds m s Q E]: when [m], run from [s], returns [a] in state [s'],
    [Q a s'] holds; when it throws in state [s'], [E s'] holds. *)
Definition holds {A} (m : M T A) (s : state T)
    (Q : A -> state T -> Prop) (E : state T -> Prop) : Prop :=
  match m s with
  | Ok a s' => Q a s'
  | Throw _ s' => E s'
  | Fault _ => True
  end.

(** However [m] ends when run from [s], the object at [this] has its
    sizes in order and at least the capacity of [v]. *)
Definition kept {A} (this : vref) (v : Vector) (s : state T) (m : M T A) : Prop :=
  holds m s (fun _ => keeps this v) (keeps this v).

(** [m] leaves every [Vector] object as it is, however it ends. *)
Definition heap_only {A} (m : M T A) : Prop :=
  forall s, holds m s (fun _ s' => objs s' = objs s) (fun s' => objs s' = objs s).

End View.

(** ** The destructor calls on a run of objects

    [p->~T()] on each of the objects [xs] stored from slot [off] of block
    [b] on, first to last. *)
Section Events.

Context {T : Type}.

Definition destroy_events (b : block) (off : nat) (xs : list T) : list (event T) :=
  imap (fun j x => EvDestroy (Ptr b (Z.of_nat (off + j))) (Some x)) xs.

End Events.

(** ** Two element types and an allocator to run the code on *)

(** [int]: trivially copyable, nothing throws, a move is a copy. *)
Definition int_element : Element Z := {|
  sizeof := 4;
  value_init := Some 0;
  copy_construct := fun v => Some v;
  move_construct := fun v => Some (v, v);
  copy_assign := fun _ v => Some v;
  move_assign := fun _ v => Some (v, v);
  is_nothrow_move_constructible := true;
  is_copy_constructible := true;
  is_trivially_destructible := true
|}.

(** A class holding an integer whose copy and move operations throw
    when the source holds 13; a moved-from object holds 0, and the
    destructor is not trivial. *)
Definition unlucky (v : Z) : bool := v =? 13.

Definition fussy_element : Element Z := {|
  sizeof := 8;
  value_init := Some 0;
  copy_construct := fun v => if unlucky v then None else Some v;
  move_construct := fun v => if unlucky v then None else Some (v, 0);
  copy_assign := fun _ v => if unlucky v then None else Some v;
  move_assign := fun _ v => if unlucky v then None else Some (v, 0);
  is_nothrow_move_constructible := false;
  is_copy_constructible := true;
  is_trivially_destructible := false
|}.

Definition small_heap : Allocator := {| max_alloc := 2 ^ 20 |}.

(** The Vector [1, 2] in storage of capacity 2, at address 0. *)
Definition full_pair : state Z :=
  mkState {[ 0%nat := mkVector (mkRawMemory (Ptr 0%nat 0) 2) 2 ]}
          {[ 0%nat := [Some 1; Some 2] ]}
          [].

(** The Vector [13, 2] in storage of capacity 4, at address 0. *)
Definition roomy_pair : state Z :=
  mkState {[ 0%nat := mkVector (mkRawMemory (Ptr 0%nat 0) 4) 2 ]}
          {[ 0%nat := [Some 13; Some 2; None; None] ]}
          [].

(** The Vector [1, 2] of capacity 2 at address 0 and the Vector
    [7, 13, 9] of capacity 3 at address 1. *)
Definition two_vectors : state Z :=
  mkState {[ 0%nat := mkVector (mkRawMemory (Ptr 0%nat 0) 2) 2;
             1%nat := mkVector (mkRawMemory (Ptr 1%nat 0) 3) 3 ]}
          {[ 0%nat := [Some 1; Some 2];
             1%nat := [Some 7; Some 13; Some 9] ]}
          [].

(** The Vector [1, 2] of capacity 2 at address 0 and an empty Vector
    without storage at address 1. *)
Definition pair_and_empty : state Z :=
  mkState {[ 0%nat := mkVector (mkRawMemory (Ptr 0%nat 0) 2) 2;
             1%nat := mkVector (mkRawMemory nullptr 0) 0 ]}
          {[ 0%nat := [Some 1; Some 2] ]}
          [].

(** ** More to run the code on *)

(** A class like [int] whose default constructor throws. *)
Definition shy_element : Element Z := {|
  sizeof := 4;
  value_init := None;
  copy_construct := fun v => Some v;
  move_construct := fun v => Some (v, v);
  copy_assign := fun _ v => Some v;
  move_assign := fun _ v => Some (v, v);
  is_nothrow_move_constructible := true;
  is_copy_constructible := true;
  is_trivially_destructible := true
|}.

(** An allocator with room for eight bytes. *)
Definition tiny_heap : Allocator := {| max_alloc := 8 |}.

(** The Vector [1, 2, 3] in storage of capacity 4 at address 0 and the
    Vector [7, 13, 9] of capacity 3 at address 1. *)
Definition roomy_and_full : state Z :=
  mkState {[ 0%nat := mkVector (mkRawMemory (Ptr 0%nat 0) 4) 3;
             1%nat := mkVector (mkRawMemory (Ptr 1%nat 0) 3) 3 ]}
          {[ 0%nat := [Some 1; Some 2; Some 3; None];
             1%nat := [Some 7; Some 13; Some 9] ]}
          [].

(** An empty Vector in storage of capacity 2, at address 0. *)
Definition empty_with_storage : state Z :=
  mkState {[ 0%nat := mkVector (mkRawMemory (Ptr 0%nat 0) 2) 0 ]}
          {[ 0%nat := [None; None] ]}
          [].

(** * Properties *)

Create HintDb heap_only.

Section Properties.

Context {T : Type} `{Element T} `{Allocator}.

Implicit Type s : state T.

Local Abbreviation holds := (@holds T _).
Local Abbreviation heap_only := (@heap_only T _).

(** ** Rules for [holds] *)

Lemma holds_ret {A} (a : A) s Q E : Q a s -> holds (ret a) s Q E.
Proof. intros HQ. exact HQ. Qed.

Lemma holds_throw {A} e s (Q : A -> state T -> Prop) E : E s -> holds (throw e) s Q E.
Proof. intros HE. exact HE. Qed.

Lemma holds_fault {A} s (Q : A -> state T -> Prop) E : holds fault s Q E.
Proof. exact I. Qed.

Lemma holds_Ok {A} (m : M T A) s a s' (Q : A -> state T -> Prop) E :
  m s = Ok a s' -> Q a s' -> holds m s Q E.
Proof. unfold holds. intros ->. auto. Qed.

Lemma holds_bind {A B} (m : M T A) (f : A -> M T B) s Q E :
  holds m s (fun a s' => holds (f a) s' Q E) E -> holds (bind m f) s Q E.
Proof. unfold holds, bind. destruct (m s); auto. Qed.

Lemma holds_catch_rethrow {A} (m : M T A) (c : M T unit) s Q E :
  holds m s Q (fun s' => holds c s' (fun _ => E) E) ->
  holds (catch_rethrow m c) s Q E.
Proof.
  unfold holds, catch_rethrow. destruct (m s) as [a s'|e s'|s']; auto.
  destruct (c s'); auto.
Qed.

Lemma holds_mono {A} (m : M T A) s (Q Q' : A -> state T -> Prop) (E E' : state T -> Prop) :
  holds m s Q E -> (forall a s', Q a s' -> Q' a s') -> (forall s', E s' -> E' s') ->
  holds m s Q' E'.
Proof. unfold holds. destruct (m s); auto. Qed.

Lemma holds_assert (b : bool) s (Q : unit -> state T -> Prop) E :
  (b = true -> Q tt s) -> holds (assert b) s Q E.
Proof. destruct b; intros HQ; [apply HQ; reflexivity | exact I]. Qed.

Lemma holds_heap_only {A} (m : M T A) s (Q : A -> state T -> Prop) (E : state T -> Prop) :
  heap_only m ->
  (forall a s', objs s' = objs s -> Q a s') ->
  (forall s', objs s' = objs s -> E s') ->
  holds m s Q E.
Proof. intros Hm HQ HE. eapply holds_mono; [apply Hm | auto | auto]. Qed.

(** heap_only closure *)
Lemma heap_only_ret {A} (a : A) : heap_only (ret a : M T A).
Proof. intros s. reflexivity. Qed.

Lemma heap_only_throw {A} e : heap_only (throw e : M T A).
Proof. intros s. reflexivity. Qed.

Lemma heap_only_fault {A} : heap_only (fault : M T A).
Proof. intros s. exact I. Qed.

Lemma heap_only_assert b : heap_only (assert b : M T unit).
Proof. destruct b; [apply heap_only_ret | apply heap_only_fault]. Qed.

Lemma heap_only_bind {A B} (m : M T A) (f : A -> M T B) :
  heap_only m -> (forall a, heap_only (f a)) -> heap_only (bind m f).
Proof.
  intros Hm Hf s. apply holds_bind.
  eapply holds_mono; [apply Hm | | auto].
  intros a s' Hs'. cbn beta.
  eapply holds_mono; [apply Hf | |]; cbn beta; intros; congruence.
Qed.

Lemma heap_only_catch_rethrow {A} (m : M T A) (c : M T unit) :
  heap_only m -> heap_only c -> heap_only (catch_rethrow m c).
Proof.
  intros Hm Hc s. apply holds_catch_rethrow.
  eapply holds_mono; [apply Hm | auto |].
  intros s' Hs'. cbn beta.
  eapply holds_mono; [apply Hc | |]; cbn beta; intros; congruence.
Qed.

Lemma objs_set_slot p x (s : state T) : objs (set_slot p x s) = objs s.
Proof. unfold set_slot. destruct p; [done |]. destruct (blocks s !! b); done. Qed.

Lemma heap_only_read p : heap_only (read p).
Proof. intros s. unfold holds, read. destruct (slot_at s p) as [[v|]|]; done. Qed.

Lemma heap_only_write p v : heap_only (write p v).
Proof.
  intros s. unfold holds, write. destruct (slot_at s p); [|done].
  apply objs_set_slot.
Qed.

Lemma heap_only_construct_at p a : heap_only (construct_at p a).
Proof.
  intros s. unfold holds, construct_at. destruct (slot_at s p); [|done].
  destruct a; [apply objs_set_slot | done].
Qed.

Lemma heap_only_destroy_at p : heap_only (destroy_at p).
Proof.
  intros s. unfold holds, destroy_at.
  destruct (slot_at s p) as [[x|]|]; cbn; [apply objs_set_slot | |];
    by destruct is_trivially_destructible.
Qed.

Lemma heap_only_operator_new n : heap_only (operator_new n).
Proof. intros s. unfold holds, operator_new. destruct (n <=? max_alloc); done. Qed.

Lemma heap_only_operator_delete p : heap_only (operator_delete p).
Proof.
  intros s. unfold holds, operator_delete. destruct p; [done|].
  destruct (blocks s !! b); [|done]. destruct (off =? 0); done.
Qed.

#[local] Hint Resolve heap_only_ret heap_only_throw heap_only_fault heap_only_assert
  heap_only_read heap_only_write heap_only_construct_at heap_only_destroy_at
  heap_only_operator_new heap_only_operator_delete : heap_only.

Ltac heap_only_step :=
  match goal with
  | |- heap_only (bind _ _) => apply heap_only_bind; [| intros ?]
  | |- heap_only (catch_rethrow _ _) => apply heap_only_catch_rethrow
  | |- heap_only (match ?x with _ => _ end) => destruct x
  | |- heap_only (if ?x then _ else _) => destruct x
  | |- heap_only (let (_, _) := ?x in _) => destruct x
  | |- _ => solve [auto with heap_only]
  end.

Ltac heap_only_tac := repeat heap_only_step.

Lemma heap_only_copy_construct_at d p : heap_only (copy_construct_at d p).
Proof. unfold copy_construct_at. heap_only_tac. Qed.
Lemma heap_only_move_construct_at d p : heap_only (move_construct_at d p).
Proof. unfold move_construct_at. heap_only_tac. Qed.
Lemma heap_only_copy_assign_at d p : heap_only (copy_assign_at d p).
Proof. unfold copy_assign_at. heap_only_tac. Qed.
Lemma heap_only_move_assign_at d p : heap_only (move_assign_at d p).
Proof. unfold move_assign_at. heap_only_tac. Qed.
Lemma heap_only_move_assign_local d v : heap_only (move_assign_local d v).
Proof. unfold move_assign_local. heap_only_tac. Qed.
#[local] Hint Resolve heap_only_copy_construct_at heap_only_move_construct_at
  heap_only_copy_assign_at heap_only_move_assign_at heap_only_move_assign_local : heap_only.

Lemma heap_only_destroy_n p n : heap_only (destroy_n p n).
Proof.
  unfold destroy_n. generalize (Z.to_nat n) as k. intros k. revert p.
  induction k as [|k IH]; intros p; cbn [destroy_loop]; heap_only_tac.
Qed.
#[local] Hint Resolve heap_only_destroy_n : heap_only.

Lemma heap_only_uninitialized_loop step d k n :
  (forall p j, heap_only (step p j)) -> heap_only (uninitialized_loop step d k n).
Proof.
  intros Hstep. revert k.
  induction n as [|n IH]; intros k; cbn [uninitialized_loop]; heap_only_tac.
Qed.

Lemma heap_only_uninitialized_copy_n p n d : heap_only (uninitialized_copy_n p n d).
Proof. apply heap_only_uninitialized_loop. intros. heap_only_tac. Qed.
Lemma heap_only_uninitialized_move_n p n d : heap_only (uninitialized_move_n p n d).
Proof. apply heap_only_uninitialized_loop. intros. heap_only_tac. Qed.
Lemma heap_only_uninitialized_value_construct_n p n :
  heap_only (uninitialized_value_construct_n p n).
Proof. apply heap_only_uninitialized_loop. intros. heap_only_tac. Qed.

Lemma heap_only_copy_n p n d : heap_only (copy_n p n d).
Proof.
  unfold copy_n. generalize (Z.to_nat n) as k. intros k. revert p d.
  induction k as [|k IH]; intros p d; cbn [copy_loop]; heap_only_tac.
Qed.
Lemma heap_only_std_move p q d : heap_only (std_move p q d).
Proof.
  unfold std_move. generalize (Z.to_nat (ptr_diff q p)) as k. intros k. revert p d.
  induction k as [|k IH]; intros p d; cbn [move_loop]; heap_only_tac.
Qed.
Lemma heap_only_move_backward p q d : heap_only (move_backward p q d).
Proof.
  unfold move_backward. generalize (Z.to_nat (ptr_diff q p)) as k. intros k. revert q d.
  induction k as [|k IH]; intros q d; cbn [move_backward_loop]; heap_only_tac.
Qed.
#[local] Hint Resolve heap_only_uninitialized_copy_n heap_only_uninitialized_move_n
  heap_only_uninitialized_value_construct_n heap_only_copy_n heap_only_std_move
  heap_only_move_backward : heap_only.

Lemma heap_only_RawMemory_dtor r : heap_only (RawMemory_dtor r).
Proof. unfold RawMemory_dtor, Deallocate. heap_only_tac. Qed.
Lemma heap_only_RawMemory_plus r k : heap_only (RawMemory_plus r k).
Proof. unfold RawMemory_plus. heap_only_tac. Qed.
Lemma heap_only_RawMemory_index r k : heap_only (RawMemory_index r k).
Proof. unfold RawMemory_index. heap_only_tac. Qed.
Lemma heap_only_RawMemory_new n : heap_only (RawMemory_new n).
Proof. unfold RawMemory_new, Allocate. heap_only_tac. Qed.
#[local] Hint Resolve heap_only_RawMemory_dtor heap_only_RawMemory_plus
  heap_only_RawMemory_index heap_only_RawMemory_new : heap_only.


Lemma holds_get this s (Q : Vector -> state T -> Prop) E :
  (forall v, objs s !! this = Some v -> Q v s) -> holds (get this) s Q E.
Proof. unfold holds, get. destruct (objs s !! this); auto. Qed.

Lemma holds_put this v s (Q : unit -> state T -> Prop) E :
  Q tt (mkState (<[this := v]> (objs s)) (blocks s) (trace s)) ->
  holds (put this v) s Q E.
Proof. auto. Qed.

Lemma holds_local_object s (Q : vref -> state T -> Prop) E :
  (forall r, objs s !! r = None -> Q r s) -> holds local_object s Q E.
Proof.
  intros HQ. unfold holds, local_object. apply HQ.
  apply not_elem_of_dom. apply is_fresh.
Qed.

Lemma holds_RawMemory_new n s :
  holds (RawMemory_new n) s
        (fun r s' => objs s' = objs s /\ capacity_ r = n)
        (fun s' => objs s' = objs s).
Proof.
  unfold RawMemory_new. apply holds_bind.
  apply holds_heap_only.
  - unfold Allocate. heap_only_tac.
  - intros a s' Hs'. apply holds_ret. auto.
  - auto.
Qed.

(** ** The platform

    [sizeof(T)] is a positive [size_t], and no single allocation exceeds
    [PTRDIFF_MAX] bytes.  With these, the capacity of storage the
    allocator has handed out is below [2^63], and doubling it does not
    wrap around. *)
Hypothesis sizeof_pos : 0 < sizeof.
Hypothesis sizeof_small : sizeof < 2 ^ 64.
Hypothesis max_alloc_small : max_alloc < 2 ^ 63.

Lemma bounded_capacity v : bounded v -> capacity_ (data_ v) < 2 ^ 63.
Proof. intros [[? ?] ?]. nia. Qed.

(** Destructors and deallocation do not throw. *)
Lemma holds_operator_delete p s (Q : unit -> state T -> Prop) E :
  (forall s', objs s' = objs s -> Q tt s') -> holds (operator_delete p) s Q E.
Proof.
  intros HQ. unfold holds, operator_delete. destruct p; [by apply HQ |].
  destruct (blocks s !! b); [| done]. destruct (off =? 0); [| done].
  by apply HQ.
Qed.

Lemma holds_RawMemory_dtor r s (Q : unit -> state T -> Prop) E :
  (forall s', objs s' = objs s -> Q tt s') -> holds (RawMemory_dtor r) s Q E.
Proof. apply holds_operator_delete. Qed.

Lemma holds_destroy_at p s (Q : unit -> state T -> Prop) E :
  (forall s', objs s' = objs s -> Q tt s') -> holds (destroy_at p) s Q E.
Proof.
  intros HQ. unfold holds, destroy_at.
  destruct (slot_at s p) as [[x|]|]; [apply HQ; cbn; apply objs_set_slot | |];
    (destruct is_trivially_destructible; [by apply HQ | done]).
Qed.

Lemma holds_destroy_n p n s (Q : unit -> state T -> Prop) E :
  (forall s', objs s' = objs s -> Q tt s') -> holds (destroy_n p n) s Q E.
Proof.
  unfold destroy_n. generalize (Z.to_nat n) as k. intros k. revert p s Q.
  induction k as [|k IH]; intros p s Q HQ; cbn [destroy_loop].
  - apply holds_ret. by apply HQ.
  - apply holds_bind. apply holds_destroy_at. intros s' Hs'.
    apply IH. intros s'' Hs''. apply HQ. congruence.
Qed.

Ltac holds_step :=
  match goal with
  | |- holds (bind _ _) _ _ _ => apply holds_bind
  | |- holds (ret _) _ _ _ => apply holds_ret
  | |- holds (get _) _ _ _ => apply holds_get; intros ? ?
  | |- holds (put _ _) _ _ _ => apply holds_put
  | |- holds (assert _) _ _ _ => apply holds_assert; intros ?
  | |- holds (catch_rethrow _ _) _ _ _ => apply holds_catch_rethrow
  | |- holds (throw _) _ _ _ => apply holds_throw
  | |- holds fault _ _ _ => apply holds_fault
  | |- holds local_object _ _ _ => apply holds_local_object; intros ? ?
  | |- holds (RawMemory_dtor _) _ _ _ => apply holds_RawMemory_dtor; intros ? ?
  | |- holds (operator_delete _) _ _ _ => apply holds_operator_delete; intros ? ?
  | |- holds (destroy_n _ _) _ _ _ => apply holds_destroy_n; intros ? ?
  | |- holds (destroy_at _) _ _ _ => apply holds_destroy_at; intros ? ?
  | |- holds (RawMemory_new _) _ _ _ =>
      eapply holds_mono; [apply holds_RawMemory_new | intros ? ? [? ?] | intros ? ?];
      cbn beta
  | |- holds _ _ _ _ =>
      apply holds_heap_only; [solve [heap_only_tac] | intros ? ? ? | intros ? ?]
  end.

Ltac objs_norm :=
  cbn [objs blocks trace data_ size_ buffer_ capacity_ fst snd RawMemory_Swap] in *;
  repeat match goal with
  | Heq : objs ?a = _, Hl : objs ?a !! _ = _ |- _ => rewrite Heq in Hl
  | Heq : objs ?a = _ |- context [objs ?a] => rewrite Heq
  end;
  cbn [objs blocks trace data_ size_ buffer_ capacity_ fst snd] in *;
  simplify_map_eq.

Ltac holds_auto := repeat (holds_step; objs_norm).


(** ** The sizes of a Vector across each operation *)

Lemma wrap_small z : 0 <= z < 2 ^ 64 -> wrap z = z.
Proof. intros Hz. unfold wrap. apply Z.mod_small. exact Hz. Qed.

(** Doubling a capacity the allocator can have handed out does not wrap. *)
Lemma growth_no_wrap v :
  bounded v ->
  (if size_ v =? 0 then 1 else wrap (size_ v * 2)) = Z.max 1 (2 * size_ v).
Proof.
  intros Hb. pose proof (bounded_capacity v Hb) as Hc.
  destruct Hb as [[Hs0 Hs1] _].
  destruct (Z.eqb_spec (size_ v) 0) as [-> | Hne]; [reflexivity |].
  rewrite wrap_small by lia. lia.
Qed.

Lemma keeps_same this v s s' :
  objs s !! this = Some v -> bounded v -> objs s' = objs s -> keeps this v s'.
Proof.
  intros Hv [Hs _] Hs'. exists v. rewrite Hs'. split; [exact Hv |]. split; [exact Hs | lia].
Qed.

Ltac obj_here :=
  objs_norm; first [apply lookup_insert_eq | eassumption | reflexivity].

Ltac use_capacity :=
  repeat match goal with
  | Hcap : capacity_ ?a = _ |- context [capacity_ ?a] => rewrite Hcap
  end.

Ltac keeps_now :=
  match goal with
  | |- keeps ?this ?v ?s' =>
      first
        [ solve [eapply keeps_same; [eassumption | eassumption | objs_norm; congruence]]
        | eexists; split;
          [ objs_norm; first [reflexivity | eassumption | apply lookup_insert_eq]
          | unfold sizes_ok; cbn [data_ size_ capacity_ buffer_] ] ]
  end.

Lemma PopBack_keeps this v s :
  objs s !! this = Some v -> bounded v ->
  holds (PopBack this) s (fun _ => keeps this v) (keeps this v).
Proof.
  intros Hv Hb. pose proof (bounded_capacity v Hb) as Hc.
  pose proof Hb as [[Hs0 Hs1] _].
  unfold PopBack, set_size. holds_step. holds_step. objs_norm.
  destruct (Z.ltb_spec (size_ v) 1) as [Hlt | Hge].
  - holds_auto. keeps_now.
  - holds_auto; keeps_now; rewrite wrap_small by lia; lia.
Qed.

Lemma EmplaceBack_capacity this v s args :
  objs s !! this = Some v -> bounded v ->
  holds (EmplaceBack this args) s
        (fun _ s' => exists v', objs s' !! this = Some v' /\
           sizes_ok v' /\ size_ v' = size_ v + 1 /\
           capacity_ (data_ v') =
             if size_ v =? capacity_ (data_ v) then Z.max 1 (2 * capacity_ (data_ v))
             else capacity_ (data_ v))
        (fun s' => objs s' = objs s).
Proof.
  intros Hv Hb. pose proof (bounded_capacity v Hb) as Hc.
  pose proof (growth_no_wrap v Hb) as Hg.
  pose proof Hb as [[Hs0 Hs1] _].
  unfold EmplaceBack, with_new_data, swap_data, set_data, set_size.
  holds_step. holds_step. objs_norm.
  destruct (Z.eqb_spec (size_ v) (capacity_ (data_ v))) as [Hfull | Hroom]; cbn [negb].
  - holds_auto; try congruence.
    eexists. split; [obj_here |].
    unfold sizes_ok. cbn [data_ size_ capacity_].
    rewrite wrap_small by lia. use_capacity. rewrite Hg, <- Hfull. lia.
  - holds_auto; try congruence.
    eexists. split; [obj_here |].
    unfold sizes_ok. cbn [data_ size_ capacity_].
    rewrite wrap_small by lia. lia.
Qed.

Lemma Emplace_capacity this v s pos args :
  objs s !! this = Some v -> bounded v ->
  holds (Emplace this pos args) s
        (fun _ s' => exists v', objs s' !! this = Some v' /\
           sizes_ok v' /\ size_ v' = size_ v + 1 /\
           capacity_ (data_ v') =
             if size_ v =? capacity_ (data_ v) then Z.max 1 (2 * capacity_ (data_ v))
             else capacity_ (data_ v))
        (fun s' => objs s' = objs s).
Proof.
  intros Hv Hb. pose proof (bounded_capacity v Hb) as Hc.
  pose proof (growth_no_wrap v Hb) as Hg.
  pose proof Hb as [[Hs0 Hs1] _].
  unfold Emplace, begin, end_, with_new_data, swap_data, set_data, set_size.
  holds_auto. rewrite Z.gtb_ltb.
  destruct (Z.ltb_spec (size_ v) (capacity_ (data_ v))) as [Hroom | Hfull].
  - destruct (Z.eqb_spec (size_ v) (capacity_ (data_ v))) as [? | _]; [lia |].
    holds_auto; try congruence.
    eexists. split; [obj_here |].
    unfold sizes_ok. cbn [data_ size_ capacity_].
    rewrite wrap_small by lia. lia.
  - assert (Heq : size_ v = capacity_ (data_ v)) by lia.
    destruct (Z.eqb_spec (size_ v) (capacity_ (data_ v))) as [_ | ?]; [| lia].
    holds_auto; try congruence.
    all: eexists; (split; [obj_here |]);
      unfold sizes_ok; cbn [data_ size_ capacity_];
      rewrite wrap_small by lia; use_capacity; rewrite Hg, <- Heq; lia.
Qed.

Lemma Reserve_capacity this v s n :
  objs s !! this = Some v -> bounded v ->
  holds (Reserve this n) s
        (fun _ s' => exists v', objs s' !! this = Some v' /\
           sizes_ok v' /\ size_ v' = size_ v /\
           capacity_ (data_ v') = Z.max (capacity_ (data_ v)) n)
        (fun s' => objs s' = objs s).
Proof.
  intros Hv Hb. pose proof Hb as [[Hs0 Hs1] _].
  unfold Reserve, with_new_data, swap_data, set_data.
  holds_step. holds_step. objs_norm.
  destruct (Z.leb_spec n (capacity_ (data_ v))) as [Hle | Hgt].
  - holds_auto. exists v. unfold sizes_ok. repeat split; try done; lia.
  - holds_auto; try congruence.
    all: eexists; (split; [obj_here |]);
      unfold sizes_ok; cbn [data_ size_ capacity_]; use_capacity; lia.
Qed.

Lemma Resize_keeps this v s n :
  objs s !! this = Some v -> bounded v -> 0 <= n ->
  holds (Resize this n) s (fun _ => keeps this v) (keeps this v).
Proof.
  intros Hv Hb Hn. pose proof Hb as [[Hs0 Hs1] _].
  unfold Resize, set_size. holds_step. holds_step. objs_norm.
  destruct (Z.eqb_spec n (size_ v)) as [Heq | Hne].
  { holds_auto. keeps_now. }
  destruct (Z.ltb_spec n (size_ v)) as [Hlt | Hge].
  - holds_auto; keeps_now. lia.
  - holds_step. holds_step.
    eapply holds_mono; [apply (Reserve_capacity this v s n Hv Hb) | |].
    + cbn beta. intros _ s1 (v1 & Hv1 & Hok1 & Hsz1 & Hcap1).
      holds_auto; try (exists v1; split; [obj_here | split; [done | lia]]).
      eexists. split; [obj_here |].
      unfold sizes_ok. cbn [data_ size_ capacity_]. lia.
    + cbn beta. intros s1 Hs1'. keeps_now.
Qed.

Lemma Erase_keeps this v s pos :
  objs s !! this = Some v -> bounded v ->
  holds (Erase this pos) s (fun _ => keeps this v) (keeps this v).
Proof.
  intros Hv Hb.
  unfold Erase, begin, end_. holds_auto; try keeps_now.
  eapply holds_mono; [apply (PopBack_keeps this v); [objs_norm; done | done] | |].
  - cbn beta. intros _ s1 Hk. holds_auto. exact Hk.
  - auto.
Qed.

(** [Swap] returns normally and exchanges the two objects. *)
Lemma Swap_Ok this other a b s :
  objs s !! this = Some a -> objs s !! other = Some b ->
  Swap this other s
  = Ok tt (mkState (<[other := a]> (<[this := b]> (objs s))) (blocks s) (trace s)).
Proof.
  intros Ha Hb.
  unfold Swap, set_size, set_data, bind, put, get, ret.
  destruct (decide (this = other)) as [-> | Hne].
  - assert (a = b) as -> by congruence. clear Ha.
    destruct b as [[p c] n].
    repeat (simplify_map_eq; cbn).
    by rewrite !insert_insert_eq.
  - repeat (simplify_map_eq; cbn). destruct a as [[p c] n], b as [[p' c'] n']. cbn.
    f_equal. f_equal. apply map_eq. intros i.
    destruct (decide (i = other)); destruct (decide (i = this));
      simplify_map_eq; done.
Qed.

Lemma Vector_sized_sizes this s n :
  holds (Vector_sized this n) s
        (fun _ s' => exists d, capacity_ d = n /\
                               objs s' = <[this := mkVector d n]> (objs s))
        (fun s' => objs s' = objs s).
Proof.
  unfold Vector_sized. holds_auto; try congruence.
  eexists. split; [reflexivity |]. objs_norm. congruence.
Qed.

Lemma Vector_copy_sizes this other o s :
  objs s !! other = Some o ->
  holds (Vector_copy this other) s
        (fun _ s' => exists d, capacity_ d = size_ o /\
                               objs s' = <[this := mkVector d (size_ o)]> (objs s))
        (fun s' => objs s' = objs s).
Proof.
  intros Ho. unfold Vector_copy. holds_auto; try congruence.
  eexists. split; [first [eassumption | reflexivity] |]. objs_norm. congruence.
Qed.

Lemma Vector_dtor_objs this s :
  holds (Vector_dtor this) s
        (fun _ s' => objs s' = delete this (objs s))
        (fun _ => False).
Proof.
  unfold Vector_dtor. holds_auto.
  unfold holds. cbn. congruence.
Qed.

Lemma assign_copy_sizes this rhs t r s :
  objs s !! this = Some t -> objs s !! rhs = Some r ->
  bounded t -> sizes_ok r ->
  holds (assign_copy this rhs) s
        (fun _ s' => exists v', objs s' = <[this := v']> (objs s) /\
           sizes_ok v' /\ capacity_ (data_ t) <= capacity_ (data_ v'))
        (fun s' => objs s' = objs s).
Proof.
  intros Ht Hr Hb Hrok. pose proof Hb as [[Hs0 Hs1] _]. destruct Hrok as [Hr0 Hr1].
  unfold assign_copy.
  destruct (decide (this = rhs)) as [-> | Hne].
  { rewrite bool_decide_eq_true_2 by done. cbn [negb]. holds_step.
    exists t. rewrite insert_id by done. unfold sizes_ok. auto with lia. }
  rewrite bool_decide_eq_false_2 by done. cbn [negb].
  holds_step. holds_step. objs_norm. holds_step. holds_step. objs_norm.
  rewrite Z.gtb_ltb.
  destruct (Z.ltb_spec (capacity_ (data_ t)) (size_ r)) as [Hgrow | Hfits].
  - holds_step. holds_step. holds_step.
    eapply holds_mono; [apply (Vector_copy_sizes r0 rhs r s Hr) | | auto].
    cbn beta. intros _ s1 (d & Hd & Hs1').
    holds_step.
    assert (this <> r0) by congruence. assert (rhs <> r0) by congruence.
    eapply holds_Ok; [apply (Swap_Ok this r0 t (mkVector d (size_ r))) |].
    { rewrite Hs1'. by simplify_map_eq. }
    { rewrite Hs1'. by simplify_map_eq. }
    eapply holds_mono; [apply Vector_dtor_objs | | done].
    cbn beta. intros _ s2 Hs2. cbn [objs] in Hs2.
    exists (mkVector d (size_ r)). split; [| unfold sizes_ok; cbn; lia].
    rewrite Hs2, Hs1'. apply map_eq. intros i.
    destruct (decide (i = r0)); destruct (decide (i = this)); simplify_map_eq; done.
  - unfold set_size.
    destruct (Z.ltb_spec (size_ r) (size_ t)).
    + holds_auto; try congruence.
      eexists. split; [objs_norm; reflexivity |]. unfold sizes_ok. cbn. lia.
    + holds_auto; try congruence.
      eexists. split; [objs_norm; reflexivity |]. unfold sizes_ok. cbn. lia.
Qed.

(** Move construction returns normally: the new object is the source
    as it was, the source is left empty. *)
Lemma move_construction_run (this other : vref) (v : Vector) (s : state T) :
  objs s !! other = Some v -> this <> other ->
  Vector_move this other s
  = Ok tt (mkState (<[other := mkVector (mkRawMemory nullptr 0) 0]>
                      (<[this := v]> (objs s)))
                   (blocks s) (trace s)).
Proof.
  intros Hother Hnew.
  unfold Vector_move, Vector_default, bind at 1, put.
  rewrite (Swap_Ok this other (mkVector RawMemory_default 0) v).
  - cbn [objs blocks trace]. f_equal. f_equal.
    rewrite insert_insert_eq. reflexivity.
  - cbn. apply lookup_insert_eq.
  - cbn. rewrite lookup_insert_ne by done. exact Hother.
Qed.
(** ** Running code on known storage *)

Lemma bind_Ok {A B} (m : M T A) (f : A -> M T B) s a s1 :
  m s = Ok a s1 -> bind m f s = f a s1.
Proof. unfold bind. intros ->. reflexivity. Qed.

Lemma bind_Throw {A B} (m : M T A) (f : A -> M T B) s e s1 :
  m s = Throw e s1 -> bind m f s = Throw e s1.
Proof. unfold bind. intros ->. reflexivity. Qed.

Lemma catch_rethrow_Ok {A} (m : M T A) c s a s1 :
  m s = Ok a s1 -> catch_rethrow m c s = Ok a s1.
Proof. unfold catch_rethrow. intros ->. reflexivity. Qed.

Lemma catch_rethrow_Throw {A} (m : M T A) c s e s1 s2 :
  m s = Throw e s1 -> c s1 = Ok tt s2 -> catch_rethrow m c s = Throw e s2.
Proof. unfold catch_rethrow. intros -> ->. reflexivity. Qed.

Lemma get_Ok this v s : objs s !! this = Some v -> get this s = Ok v s.
Proof. unfold get. intros ->. reflexivity. Qed.

Lemma set_block_objs b l s : objs (set_block b l s) = objs s.
Proof. reflexivity. Qed.

Lemma set_block_lookup b l s : blocks (set_block b l s) !! b = Some l.
Proof. apply lookup_insert_eq. Qed.

Lemma set_block_lookup_ne b b' l s :
  b <> b' -> blocks (set_block b l s) !! b' = blocks s !! b'.
Proof. intros Hne. cbn. by rewrite lookup_insert_ne. Qed.

Lemma set_block_set_block b l l' s :
  set_block b l' (set_block b l s) = set_block b l' s.
Proof. unfold set_block. cbn. by rewrite insert_insert_eq. Qed.

Lemma set_block_id b l s : blocks s !! b = Some l -> set_block b l s = s.
Proof.
  intros Hl. unfold set_block. rewrite insert_id by done. by destruct s.
Qed.

Lemma slot_at_block b off l s :
  blocks s !! b = Some l -> 0 <= off -> slot_at s (Ptr b off) = l !! Z.to_nat off.
Proof.
  intros Hl Hoff. unfold slot_at. rewrite Hl.
  destruct (Z.leb_spec 0 off); [done | lia].
Qed.

Lemma set_slot_block b off l x s :
  blocks s !! b = Some l ->
  set_slot (Ptr b off) x s = set_block b (<[Z.to_nat off := x]> l) s.
Proof. intros Hl. unfold set_slot. by rewrite Hl. Qed.

Lemma read_Ok b off l v s :
  blocks s !! b = Some l -> 0 <= off -> l !! Z.to_nat off = Some (Some v) ->
  read (Ptr b off) s = Ok v s.
Proof.
  intros Hl Hoff Hv. unfold read. by rewrite (slot_at_block b off l), Hv.
Qed.

Lemma write_Ok b off l v s :
  blocks s !! b = Some l -> 0 <= off -> (Z.to_nat off < length l)%nat ->
  write (Ptr b off) v s = Ok tt (set_block b (<[Z.to_nat off := Some v]> l) s).
Proof.
  intros Hl Hoff Hlen. unfold write. rewrite (slot_at_block b off l) by done.
  destruct (lookup_lt_is_Some_2 l _ Hlen) as [x ->].
  by rewrite (set_slot_block b off l).
Qed.

Lemma construct_at_Ok b off l v s :
  blocks s !! b = Some l -> 0 <= off -> (Z.to_nat off < length l)%nat ->
  construct_at (Ptr b off) (Some v) s
  = Ok tt (set_block b (<[Z.to_nat off := Some v]> l) s).
Proof.
  intros Hl Hoff Hlen. unfold construct_at. rewrite (slot_at_block b off l) by done.
  destruct (lookup_lt_is_Some_2 l _ Hlen) as [x ->].
  by rewrite (set_slot_block b off l).
Qed.

Lemma construct_at_Throw b off l s :
  blocks s !! b = Some l -> 0 <= off -> (Z.to_nat off < length l)%nat ->
  construct_at (Ptr b off) None s = Throw element_exn s.
Proof.
  intros Hl Hoff Hlen. unfold construct_at. rewrite (slot_at_block b off l) by done.
  by destruct (lookup_lt_is_Some_2 l _ Hlen) as [x ->].
Qed.

Lemma insert_middle {A} (pre post : list A) (x y : A) n :
  n = length pre -> <[n := y]> (pre ++ x :: post) = pre ++ y :: post.
Proof.
  intros ->. rewrite insert_app_r_alt by lia. by rewrite Nat.sub_diag.
Qed.

Lemma lookup_middle {A} (pre post : list A) (x : A) n :
  n = length pre -> (pre ++ x :: post) !! n = Some x.
Proof. intros ->. by apply list_lookup_middle. Qed.

Lemma middle_lt_length {A} (pre post : list A) (x : A) n :
  n = length pre -> (n < length (pre ++ x :: post))%nat.
Proof. intros ->. rewrite length_app. cbn. lia. Qed.

(** A destructor call on a live object *)
Lemma destroy_at_live b pre x post s :
  blocks s !! b = Some (pre ++ Some x :: post) ->
  destroy_at (Ptr b (Z.of_nat (length pre))) s
  = Ok tt (mkState (objs s) (<[b := pre ++ None :: post]> (blocks s))
                   (EvDestroy (Ptr b (Z.of_nat (length pre))) (Some x) :: trace s)).
Proof.
  intros Hblk. unfold destroy_at. rewrite (slot_at_block b _ _ s Hblk) by lia.
  rewrite Nat2Z.id, lookup_middle by done.
  rewrite (set_slot_block b _ _ _ s Hblk). unfold log, set_block. cbn.
  rewrite Nat2Z.id. by rewrite insert_middle.
Qed.

(** A destructor call of a trivially destructible type, wherever it
    lands in a block or behind it *)
Lemma destroy_at_trivial b off l s :
  is_trivially_destructible = true ->
  blocks s !! b = Some l -> 0 <= off ->
  destroy_at (Ptr b off) s
  = Ok tt (mkState (objs s) (<[b := <[Z.to_nat off := None]> l]> (blocks s))
                   (EvDestroy (Ptr b off) (default None (l !! Z.to_nat off)) :: trace s)).
Proof.
  intros Htriv Hl Hoff. unfold destroy_at. rewrite (slot_at_block b off l) by done.
  destruct (l !! Z.to_nat off) as [[x|]|] eqn:Hx; cbn [default].
  - rewrite (set_slot_block b off l) by done. reflexivity.
  - rewrite Htriv. unfold log. cbn.
    rewrite list_insert_id by done. rewrite insert_id by done. by destruct s.
  - rewrite Htriv. unfold log. cbn.
    rewrite list_insert_ge by (by apply lookup_ge_None).
    rewrite insert_id by done. by destruct s.
Qed.

(** A destructor call of any other type where no object lives *)
Lemma destroy_at_Fault b off l s :
  is_trivially_destructible = false ->
  blocks s !! b = Some l -> 0 <= off ->
  (forall y, l !! Z.to_nat off <> Some (Some y)) ->
  destroy_at (Ptr b off) s = Fault (log (EvDestroy (Ptr b off) None) s).
Proof.
  intros Htriv Hl Hoff Hraw. unfold destroy_at.
  rewrite (slot_at_block b off l) by done.
  destruct (l !! Z.to_nat off) as [[x|]|] eqn:Hx; [by destruct (Hraw x) | |];
    by rewrite Htriv.
Qed.

(** The destructor calls of [std::destroy_n] on the objects [xs] that
    start behind the slots [pre] of block [b]. *)
Lemma destroy_loop_trace b xs :
  forall pre post s,
  blocks s !! b = Some (pre ++ (Some <$> xs) ++ post) ->
  destroy_loop (Ptr b (Z.of_nat (length pre))) (length xs) s
  = Ok tt (mkState (objs s)
                   (<[b := pre ++ replicate (length xs) None ++ post]> (blocks s))
                   (rev (destroy_events b (length pre) xs) ++ trace s)).
Proof.
  induction xs as [|x xs IH]; intros pre post s Hblk.
  - cbn. rewrite insert_id by done. by destruct s.
  - cbn [length destroy_loop fmap list_fmap app replicate] in *.
    rewrite (bind_Ok _ _ _ _ _ (destroy_at_live b pre x _ s Hblk)). cbn [ptr_add].
    replace (Z.of_nat (length pre) + 1) with (Z.of_nat (length (pre ++ [None])))
      by (rewrite length_app; cbn; lia).
    rewrite (IH (pre ++ [None]) post).
    2:{ cbn [blocks]. rewrite lookup_insert_eq. by rewrite <- app_assoc. }
    cbn [objs blocks trace]. rewrite insert_insert_eq.
    f_equal. f_equal.
    + by rewrite <- app_assoc.
    + unfold destroy_events. cbn [imap rev].
      rewrite <- app_assoc. cbn [app]. f_equal.
      * f_equal. apply imap_ext. intros j y _. cbn.
        rewrite length_app. cbn. do 2 f_equal. lia.
      * do 3 f_equal. lia.
Qed.

Lemma mapM_cons_Some {A B} (f : A -> option B) x xs ys :
  mapM f (x :: xs) = Some ys ->
  exists y ys', ys = y :: ys' /\ f x = Some y /\ mapM f xs = Some ys'.
Proof.
  intros Hm. apply mapM_Some in Hm.
  apply Forall2_cons_inv_l in Hm as (y & ys' & Hy & Hys & ->).
  exists y, ys'. split; [done |]. split; [done |]. by apply mapM_Some.
Qed.

Lemma mapM_cons_None {A B} (f : A -> option B) x xs :
  mapM f (x :: xs) = None ->
  f x = None \/ exists y, f x = Some y /\ mapM f xs = None.
Proof.
  intros Hm. destruct (f x) as [y|] eqn:Hy; [| by left].
  right. exists y. split; [done |].
  destruct (mapM f xs) as [ys|] eqn:Hys; [| done].
  exfalso. cbn in Hm. rewrite Hy, Hys in Hm. done.
Qed.

(** The copying loop of [std::uninitialized_copy_n], from the slots
    holding [xs] in block [bs] into the slots [mid_d] of another block
    [bd]: when every copy succeeds, the destination slots hold the
    copies and nothing else changes. *)
Lemma uninitialized_copy_loop_Ok bs bd os od xs :
  forall ys k pre_s post_s pre_d mid_d post_d s,
  bs <> bd ->
  blocks s !! bs = Some (pre_s ++ (Some <$> xs) ++ post_s) ->
  blocks s !! bd = Some (pre_d ++ mid_d ++ post_d) ->
  length pre_s = (os + k)%nat -> length pre_d = (od + k)%nat ->
  length mid_d = length xs ->
  mapM copy_construct xs = Some ys ->
  uninitialized_loop
    (fun dst j => copy_construct_at dst (Ptr bs (Z.of_nat os) +ₚ j))
    (Ptr bd (Z.of_nat od)) (Z.of_nat k) (length xs) s
  = Ok tt (set_block bd (pre_d ++ (Some <$> ys) ++ post_d) s).
Proof.
  induction xs as [|x xs IH];
    intros ys k pre_s post_s pre_d mid_d post_d s Hne Hs Hd Hps Hpd Hmid Hm.
  - destruct mid_d; [| done]. cbn in Hm. injection Hm as <-.
    cbn. by rewrite set_block_id.
  - destruct mid_d as [|m mid_d]; [done |].
    apply mapM_cons_Some in Hm as (y & ys' & -> & Hy & Hm).
    cbn [length uninitialized_loop fmap list_fmap app].
    set (s1 := set_block bd (pre_d ++ Some y :: mid_d ++ post_d) s).
    assert (Hstep : copy_construct_at (Ptr bd (Z.of_nat od) +ₚ Z.of_nat k)
                      (Ptr bs (Z.of_nat os) +ₚ Z.of_nat k) s = Ok tt s1).
    { unfold copy_construct_at. cbn [ptr_add].
      rewrite (bind_Ok _ _ _ x s).
      2:{ eapply read_Ok; [exact Hs | lia |]. apply lookup_middle. lia. }
      rewrite Hy.
      erewrite construct_at_Ok; [| exact Hd | lia | apply middle_lt_length; lia].
      unfold s1. f_equal. f_equal. apply insert_middle. lia. }
    erewrite bind_Ok; [| erewrite catch_rethrow_Ok; [reflexivity | exact Hstep]].
    replace (Z.of_nat k + 1) with (Z.of_nat (S k)) by lia.
    rewrite (IH ys' (S k) (pre_s ++ [Some x]) post_s (pre_d ++ [Some y]) mid_d post_d s1).
    + unfold s1. rewrite set_block_set_block. by rewrite <- !app_assoc.
    + done.
    + unfold s1. rewrite set_block_lookup_ne by done. rewrite Hs.
      by rewrite <- !app_assoc.
    + unfold s1. rewrite set_block_lookup. by rewrite <- !app_assoc.
    + rewrite length_app. cbn. lia.
    + rewrite length_app. cbn. lia.
    + by injection Hmid.
    + done.
Qed.

(** The same loop when some copy throws: the objects constructed so far
    are destroyed, the exception is rethrown, and only the destination
    block has changed. *)
Lemma uninitialized_copy_loop_Throw bs bd os od xs :
  forall done pre_s post_s pre_d mid_d post_d s,
  bs <> bd ->
  blocks s !! bs = Some (pre_s ++ (Some <$> xs) ++ post_s) ->
  blocks s !! bd = Some (pre_d ++ (Some <$> done) ++ mid_d ++ post_d) ->
  length pre_s = (os + length done)%nat -> length pre_d = od ->
  length mid_d = length xs ->
  mapM copy_construct xs = None ->
  exists s' l',
    uninitialized_loop
      (fun dst j => copy_construct_at dst (Ptr bs (Z.of_nat os) +ₚ j))
      (Ptr bd (Z.of_nat od)) (Z.of_nat (length done)) (length xs) s
    = Throw element_exn s' /\
    objs s' = objs s /\ blocks s' = <[bd := l' ++ post_d]> (blocks s) /\
    length l' = (length pre_d + length done + length mid_d)%nat.
Proof.
  induction xs as [|x xs IH];
    intros done pre_s post_s pre_d mid_d post_d s Hne Hs Hd Hps Hpd Hmid Hm.
  - done.
  - destruct mid_d as [|m mid_d]; [done |].
    cbn [length uninitialized_loop fmap list_fmap app] in *.
    assert (Hread : read (Ptr bs (Z.of_nat os) +ₚ Z.of_nat (length done)) s = Ok x s).
    { cbn [ptr_add]. eapply read_Ok; [exact Hs | lia |]. apply lookup_middle. lia. }
    assert (Hd' : blocks s !! bd
                  = Some ((pre_d ++ (Some <$> done)) ++ m :: mid_d ++ post_d))
      by (by rewrite <- app_assoc).
    assert (Hidx : Z.to_nat (Z.of_nat od + Z.of_nat (length done))
                   = length (pre_d ++ (Some <$> done)))
      by (rewrite length_app, length_fmap; lia).
    apply mapM_cons_None in Hm as [Hx | (y & Hy & Hm)].
    + pose proof (destroy_loop_trace bd done pre_d (m :: mid_d ++ post_d) s Hd)
        as Hdestroy.
      rewrite Hpd in Hdestroy.
      eexists _, (pre_d ++ replicate (length done) None ++ m :: mid_d).
      split; [| split; [| split]].
      * apply bind_Throw. eapply catch_rethrow_Throw.
        -- unfold copy_construct_at. rewrite (bind_Ok _ _ _ _ _ Hread), Hx.
           cbn [ptr_add].
           eapply construct_at_Throw; [exact Hd' | lia |].
           rewrite Hidx. by apply middle_lt_length.
        -- unfold destroy_n. rewrite Nat2Z.id. exact Hdestroy.
      * done.
      * cbn [blocks]. f_equal. by rewrite <- !app_assoc.
      * rewrite !length_app, length_replicate. cbn [length]. lia.
    + set (s1 := set_block bd ((pre_d ++ (Some <$> done)) ++ Some y :: mid_d ++ post_d) s).
      assert (Hstep : copy_construct_at
                        (Ptr bd (Z.of_nat od) +ₚ Z.of_nat (length done))
                        (Ptr bs (Z.of_nat os) +ₚ Z.of_nat (length done)) s = Ok tt s1).
      { unfold copy_construct_at. rewrite (bind_Ok _ _ _ _ _ Hread), Hy.
        cbn [ptr_add].
        erewrite construct_at_Ok; [| exact Hd' | lia |].
        - unfold s1. f_equal. f_equal. by apply insert_middle.
        - rewrite Hidx. by apply middle_lt_length. }
      erewrite bind_Ok; [| erewrite catch_rethrow_Ok; [reflexivity | exact Hstep]].
      replace (Z.of_nat (length done) + 1) with (Z.of_nat (length (done ++ [y])))
        by (rewrite length_app; cbn; lia).
      destruct (IH (done ++ [y]) (pre_s ++ [Some x]) post_s pre_d mid_d post_d s1)
        as (s' & l' & Hrun & Hobjs & Hblocks & Hlen').
      * done.
      * unfold s1. rewrite set_block_lookup_ne by done. rewrite Hs.
        by rewrite <- !app_assoc.
      * unfold s1. rewrite set_block_lookup. f_equal.
        rewrite fmap_app, <- !app_assoc. reflexivity.
      * rewrite !length_app. cbn. lia.
      * done.
      * by injection Hmid.
      * done.
      * exists s', l'. split; [exact Hrun |]. split; [done |].
        split; [rewrite Hblocks; unfold s1; cbn; by rewrite insert_insert_eq |].
        rewrite Hlen', length_app. cbn [length]. lia.
Qed.

Lemma set_block_comm b b' l l' s :
  b <> b' -> set_block b l (set_block b' l' s) = set_block b' l' (set_block b l s).
Proof.
  intros Hne. unfold set_block. cbn. f_equal. by apply insert_insert_ne.
Qed.

(** The moving loop of [std::uninitialized_move_n] between two blocks,
    when every move succeeds: the destination slots hold the moved
    values, the source slots what the moves left behind. *)
Lemma uninitialized_move_loop_Ok bs bd os od xs :
  forall yrs k pre_s post_s pre_d mid_d post_d s,
  bs <> bd ->
  blocks s !! bs = Some (pre_s ++ (Some <$> xs) ++ post_s) ->
  blocks s !! bd = Some (pre_d ++ mid_d ++ post_d) ->
  length pre_s = (os + k)%nat -> length pre_d = (od + k)%nat ->
  length mid_d = length xs ->
  mapM move_construct xs = Some yrs ->
  uninitialized_loop
    (fun dst j => move_construct_at dst (Ptr bs (Z.of_nat os) +ₚ j))
    (Ptr bd (Z.of_nat od)) (Z.of_nat k) (length xs) s
  = Ok tt (set_block bd (pre_d ++ (Some <$> (fst <$> yrs)) ++ post_d)
            (set_block bs (pre_s ++ (Some <$> (snd <$> yrs)) ++ post_s) s)).
Proof.
  induction xs as [|x xs IH];
    intros yrs k pre_s post_s pre_d mid_d post_d s Hne Hs Hd Hps Hpd Hmid Hm.
  - destruct mid_d; [| done]. cbn in Hm. injection Hm as <-.
    cbn. rewrite (set_block_id bs) by done. by rewrite set_block_id.
  - destruct mid_d as [|m mid_d]; [done |].
    apply mapM_cons_Some in Hm as ([y r] & yrs' & -> & Hy & Hm).
    cbn [length uninitialized_loop fmap list_fmap app fst snd].
    set (s1 := set_block bd (pre_d ++ Some y :: mid_d ++ post_d)
                 (set_block bs (pre_s ++ Some r :: (Some <$> xs) ++ post_s) s)).
    assert (Hstep : move_construct_at (Ptr bd (Z.of_nat od) +ₚ Z.of_nat k)
                      (Ptr bs (Z.of_nat os) +ₚ Z.of_nat k) s = Ok tt s1).
    { unfold move_construct_at. cbn [ptr_add].
      rewrite (bind_Ok _ _ _ x s).
      2:{ eapply read_Ok; [exact Hs | lia |]. apply lookup_middle. lia. }
      rewrite Hy.
      erewrite bind_Ok;
        [| eapply construct_at_Ok; [exact Hd | lia | apply middle_lt_length; lia]].
      erewrite write_Ok;
        [| rewrite set_block_lookup_ne by done; exact Hs | lia
         | apply middle_lt_length; lia].
      unfold s1. rewrite set_block_comm by done.
      cbn [fmap list_fmap app].
      rewrite !insert_middle by lia. reflexivity. }
    erewrite bind_Ok; [| erewrite catch_rethrow_Ok; [reflexivity | exact Hstep]].
    replace (Z.of_nat k + 1) with (Z.of_nat (S k)) by lia.
    rewrite (IH yrs' (S k) (pre_s ++ [Some r]) post_s (pre_d ++ [Some y]) mid_d post_d s1).
    + unfold s1.
      rewrite (set_block_comm bs bd _ _ (set_block bs _ s)) by done.
      rewrite !set_block_set_block.
      by rewrite <- !app_assoc.
    + done.
    + unfold s1. rewrite set_block_lookup_ne by done. rewrite set_block_lookup.
      by rewrite <- !app_assoc.
    + unfold s1. rewrite set_block_lookup. by rewrite <- !app_assoc.
    + rewrite length_app. cbn. lia.
    + rewrite length_app. cbn. lia.
    + by injection Hmid.
    + done.
Qed.

(** *** Allocation *)

Lemma fresh_block s : blocks s !! fresh (dom (blocks s)) = None.
Proof. apply not_elem_of_dom. apply is_fresh. Qed.

Lemma Allocate_Ok n s :
  0 < n -> n * sizeof <= max_alloc ->
  Allocate n s
  = Ok (Ptr (fresh (dom (blocks s))) 0)
       (set_block (fresh (dom (blocks s))) (replicate (Z.to_nat n) None) s).
Proof.
  intros Hn Hfit. unfold Allocate, operator_new.
  destruct (Z.eqb_spec n 0) as [-> | _]; [lia |]. cbn [negb].
  rewrite wrap_small by nia.
  destruct (Z.leb_spec (n * sizeof) max_alloc); [| lia].
  by rewrite Z.div_mul by lia.
Qed.

Lemma Allocate_Throw n s :
  0 < n -> max_alloc < n * sizeof < 2 ^ 64 ->
  Allocate n s = Throw bad_alloc s.
Proof.
  intros Hn Hbig. unfold Allocate, operator_new.
  destruct (Z.eqb_spec n 0) as [-> | _]; [lia |]. cbn [negb].
  rewrite wrap_small by nia.
  destruct (Z.leb_spec (n * sizeof) max_alloc); [lia | done].
Qed.

Lemma operator_delete_Ok b l s :
  blocks s !! b = Some l ->
  operator_delete (Ptr b 0) s
  = Ok tt (mkState (objs s) (delete b (blocks s)) (EvDelete (Ptr b 0) :: trace s)).
Proof. intros Hl. unfold operator_delete. by rewrite Hl. Qed.

(** *** Well-formed Vectors *)

Lemma mapM_id_Some (l : list (option T)) es :
  mapM id l = Some es <-> l = Some <$> es.
Proof.
  rewrite mapM_Some. split.
  - induction 1 as [|x y l es Hxy _ IH]; [done |]. cbn in Hxy. by subst.
  - intros ->. induction es; constructor; done.
Qed.

Lemma layout_elements s v es : layout s v es -> elements s v = Some es.
Proof.
  intros [Hbuf Hcap Hsz -> | b rest Hbuf Hb Hsz Hcap Hpos]; unfold elements, storage;
    rewrite Hbuf.
  - by rewrite Hsz.
  - rewrite Hb. cbn [fmap option_fmap option_map].
    change (Z.to_nat 0) with 0%nat. rewrite drop_0.
    rewrite <- Hsz, Nat2Z.id.
    rewrite bool_decide_eq_true_2 by (rewrite length_app, length_fmap; lia).
    rewrite take_app_length' by (by rewrite length_fmap).
    by apply mapM_id_Some.
Qed.

Lemma forallb_is_Some (l : list (option T)) :
  forallb (fun x => bool_decide (is_Some x)) l = true ->
  exists es, l = Some <$> es.
Proof.
  induction l as [|x l IH]; cbn; intros Hall.
  - by exists [].
  - apply andb_prop in Hall as [Hx Hl]. apply bool_decide_eq_true in Hx as [y ->].
    destruct (IH Hl) as [es ->]. by exists (y :: es).
Qed.

Lemma well_formed_layout s v :
  well_formed s v = true -> bounded v /\ exists es, layout s v es.
Proof.
  unfold well_formed. intros Hwf.
  repeat (apply andb_prop in Hwf as [Hwf ?]).
  assert (Hb : bounded v) by (unfold bounded, sizes_ok; lia).
  split; [exact Hb |]. destruct Hb as [[Hs0 Hs1] _].
  destruct (buffer_ (data_ v)) as [|b off] eqn:Hbuf.
  - exists []. apply layout_null; [done | lia | lia | done].
  - match goal with Hm : _ && _ = true |- _ => rename Hm into Hblk end.
    repeat (apply andb_prop in Hblk as [Hblk ?]).
    destruct (blocks s !! b) as [l|] eqn:Hl; [| done].
    match goal with Hm : _ && _ = true |- _ => apply andb_prop in Hm as [Hlen Hall] end.
    apply bool_decide_eq_true in Hlen.
    destruct (forallb_is_Some _ Hall) as [es Hes].
    assert (off = 0) as -> by lia.
    assert (Hlen_es : length es = Z.to_nat (size_ v)).
    { apply (f_equal length) in Hes. rewrite length_take, length_fmap in Hes. lia. }
    exists es. apply (layout_block s v es b (drop (Z.to_nat (size_ v)) l)); try lia.
    + done.
    + rewrite Hl. f_equal. rewrite <- Hes. by rewrite take_drop.
    + rewrite length_drop. lia.
Qed.
(** ** The strong guarantee of EmplaceBack *)

Lemma with_new_data_Throw {A} n (body : RawMemory -> M T (A * RawMemory)) s e s1 :
  0 < n -> n * sizeof <= max_alloc ->
  let b := fresh (dom (blocks s)) in
  body (mkRawMemory (Ptr b 0) n) (set_block b (replicate (Z.to_nat n) None) s)
    = Throw e s1 ->
  (exists l, blocks s1 !! b = Some l) ->
  with_new_data n body s
  = Throw e (mkState (objs s1) (delete b (blocks s1)) (EvDelete (Ptr b 0) :: trace s1)).
Proof.
  intros Hn Hfit b Hbody [l Hl]. unfold with_new_data, RawMemory_new.
  erewrite bind_Ok; [| erewrite bind_Ok; [reflexivity | by apply Allocate_Ok]].
  apply bind_Throw. eapply catch_rethrow_Throw; [exact Hbody |].
  unfold RawMemory_dtor, Deallocate. cbn [buffer_].
  by erewrite operator_delete_Ok.
Qed.

Lemma growth_request v :
  bounded v -> size_ v = capacity_ (data_ v) ->
  let n := if size_ v =? 0 then 1 else wrap (size_ v * 2) in
  n = Z.max 1 (2 * capacity_ (data_ v)) /\ size_ v < n /\ 0 < n /\ n * sizeof < 2 ^ 64.
Proof.
  intros Hb Hfull n. pose proof (bounded_capacity v Hb) as Hc.
  pose proof (growth_no_wrap v Hb) as Hg. fold n in Hg.
  destruct Hb as [[Hs0 Hs1] Hb].
  rewrite Hg, Hfull. split; [done |]. split; [lia |]. split; [lia |].
  destruct (Z.max_spec 1 (2 * capacity_ (data_ v))) as [[_ ->] | [_ ->]]; nia.
Qed.

Lemma elements_same_blocks s s' v : blocks s' = blocks s -> elements s' v = elements s v.
Proof. intros Hb. unfold elements, storage. by rewrite Hb. Qed.

(** C2. EmplaceBack on a full Vector ([size = capacity]) whose new
    element's constructor throws: the call ends with an exception, and
    afterwards every Vector object and every block of storage is as it
    was before the call; so the Vector has the same size, the same
    capacity and the same elements.  (The exception is the constructor's,
    or [std::bad_alloc] when the larger storage cannot be had; nothing
    has changed in either case.) *)
Theorem EmplaceBack_strong_guarantee (this : vref) (v : Vector) (s : state T)
    (Hthis : objs s !! this = Some v)
    (Hbounded : bounded v)
    (Hfull : size_ v = capacity_ (data_ v)) :
  exists e s',
    EmplaceBack this None s = Throw e s' /\
    objs s' = objs s /\ blocks s' = blocks s /\
    objs s' !! this = Some v /\ elements s' v = elements s v.
Proof.
  pose proof (growth_request v Hbounded Hfull) as (Hn & Hlt & Hpos & Hsmall).
  cbv zeta in Hn, Hlt, Hpos, Hsmall.
  destruct Hbounded as [[Hs0 Hs1] _].
  unfold EmplaceBack. rewrite (bind_Ok _ _ _ _ _ (get_Ok this v s Hthis)).
  destruct (Z.eqb_spec (size_ v) (capacity_ (data_ v))) as [_ | ?]; [| lia].
  cbn [negb].
  set (n := if size_ v =? 0 then 1 else wrap (size_ v * 2)) in *.
  destruct (Z.le_gt_cases (n * sizeof) max_alloc) as [Hfit | Hbig].
  - set (b := fresh (dom (blocks s))).
    set (s1 := set_block b (replicate (Z.to_nat n) None) s).
    eexists _, _. split.
    + apply (with_new_data_Throw n _ s element_exn s1 Hpos Hfit).
      * fold b s1. unfold RawMemory_plus. cbn [capacity_ buffer_ ptr_add].
        destruct (Z.leb_spec (size_ v) n); [| lia]. cbn [assert].
        erewrite bind_Ok; [| reflexivity].
        apply bind_Throw.
        eapply construct_at_Throw; [apply set_block_lookup | lia |].
        rewrite length_replicate. lia.
      * eexists. apply set_block_lookup.
    + cbn [objs blocks]. unfold s1. cbn [set_block objs blocks].
      rewrite delete_insert_id by apply fresh_block.
      split; [done |]. split; [done |]. split; [done |].
      by apply elements_same_blocks.
  - exists bad_alloc, s. split; [| done].
    unfold with_new_data, RawMemory_new.
    apply bind_Throw. apply bind_Throw. apply Allocate_Throw; lia.
Qed.
(** ** Moving the elements into new storage *)

Lemma with_new_data_Ok {A} n (body : RawMemory -> M T (A * RawMemory)) s a old s1 s2 :
  0 < n -> n * sizeof <= max_alloc ->
  let b := fresh (dom (blocks s)) in
  body (mkRawMemory (Ptr b 0) n) (set_block b (replicate (Z.to_nat n) None) s)
    = Ok (a, old) s1 ->
  RawMemory_dtor old s1 = Ok tt s2 ->
  with_new_data n body s = Ok a s2.
Proof.
  intros Hn Hfit b Hbody Hdtor. unfold with_new_data, RawMemory_new.
  erewrite bind_Ok; [| erewrite bind_Ok; [reflexivity | by apply Allocate_Ok]].
  erewrite bind_Ok; [| erewrite catch_rethrow_Ok; [reflexivity | exact Hbody]].
  cbn [fst snd]. erewrite bind_Ok; [| exact Hdtor]. reflexivity.
Qed.

Lemma swap_data_Ok this v new_data s :
  objs s !! this = Some v ->
  swap_data this new_data s
  = Ok (data_ v)
       (mkState (<[this := mkVector new_data (size_ v)]> (objs s)) (blocks s) (trace s)).
Proof.
  intros Hv. unfold swap_data, set_data, bind, get, put, ret. rewrite Hv.
  cbn. rewrite Hv. cbn. by destruct new_data, (data_ v).
Qed.

Lemma set_size_Ok this v n s :
  objs s !! this = Some v ->
  set_size this n s
  = Ok tt (mkState (<[this := mkVector (data_ v) n]> (objs s)) (blocks s) (trace s)).
Proof. intros Hv. unfold set_size, bind, get, put. by rewrite Hv. Qed.

Lemma mapM_copy_value_semantics xs :
  value_semantics -> mapM copy_construct xs = Some xs.
Proof.
  intros (Hcopy & _ & _). apply mapM_Some.
  induction xs; constructor; auto.
Qed.

Lemma mapM_move_value_semantics xs :
  value_semantics ->
  exists yrs, mapM move_construct xs = Some yrs /\ fst <$> yrs = xs.
Proof.
  intros (_ & Hmove & _). induction xs as [|x xs (yrs & Hm & Hfst)].
  - by exists [].
  - destruct (Hmove x) as [r Hr]. exists ((x, r) :: yrs).
    split; [| cbn; by rewrite Hfst].
    apply mapM_Some. constructor; [done | by apply mapM_Some].
Qed.

(** Copying or moving, whichever the growth policy picks: the slots
    [mid_d] of the destination receive the values [xs], the source
    slots keep some live objects [rs], and nothing else changes. *)
Lemma transfer_Ok (use_copy : bool) bs bd (os od : nat) xs
    pre_s post_s pre_d mid_d post_d s :
  value_semantics ->
  bs <> bd ->
  blocks s !! bs = Some (pre_s ++ (Some <$> xs) ++ post_s) ->
  blocks s !! bd = Some (pre_d ++ mid_d ++ post_d) ->
  length pre_s = os -> length pre_d = od -> length mid_d = length xs ->
  exists rs, length rs = length xs /\
    (if use_copy
     then uninitialized_copy_n (Ptr bs (Z.of_nat os)) (Z.of_nat (length xs))
                               (Ptr bd (Z.of_nat od))
     else uninitialized_move_n (Ptr bs (Z.of_nat os)) (Z.of_nat (length xs))
                               (Ptr bd (Z.of_nat od))) s
    = Ok tt (set_block bd (pre_d ++ (Some <$> xs) ++ post_d)
              (set_block bs (pre_s ++ (Some <$> rs) ++ post_s) s)).
Proof.
  intros Hvs Hne Hs Hd Hps Hpd Hmid.
  destruct use_copy.
  - exists xs. split; [done |].
    unfold uninitialized_copy_n. rewrite Nat2Z.id.
    rewrite (set_block_id bs) by done.
    apply (uninitialized_copy_loop_Ok bs bd os od xs xs 0 pre_s post_s pre_d mid_d post_d);
      try done; try lia.
    by apply mapM_copy_value_semantics.
  - destruct (mapM_move_value_semantics xs Hvs) as (yrs & Hm & Hfst).
    subst xs.
    exists (snd <$> yrs). split; [by rewrite !length_fmap |].
    unfold uninitialized_move_n. rewrite Nat2Z.id.
    apply (uninitialized_move_loop_Ok bs bd os od (fst <$> yrs) yrs 0
             pre_s post_s pre_d mid_d post_d);
      try done; lia.
Qed.

(** Destroying the elements of the storage at [p]: the call returns and
    changes no other block; the block of [p] still exists. *)
Lemma destroy_n_storage b rs rest n s :
  blocks s !! b = Some ((Some <$> rs) ++ rest) -> Z.to_nat n = length rs ->
  exists s' l', destroy_n (Ptr b 0) n s = Ok tt s' /\
                objs s' = objs s /\ blocks s' = <[b := l']> (blocks s).
Proof.
  intros Hl Hn. unfold destroy_n. rewrite Hn.
  pose proof (destroy_loop_trace b rs [] rest s Hl) as Hrun.
  eexists _, _. split; [exact Hrun |]. done.
Qed.
(** ** Reserve *)

Lemma Reserve_grows this v s n es :
  objs s !! this = Some v -> layout s v es -> value_semantics ->
  capacity_ (data_ v) < n -> n * sizeof <= max_alloc ->
  exists s' d,
    Reserve this n s = Ok tt s' /\
    objs s' = <[this := mkVector d (size_ v)]> (objs s) /\
    capacity_ d = n /\
    layout s' (mkVector d (size_ v)) es.
Proof.
  intros Hthis Hlay Hvs Hgt Hfit.
  unfold Reserve. rewrite (bind_Ok _ _ _ _ _ (get_Ok this v s Hthis)).
  destruct (Z.leb_spec n (capacity_ (data_ v))) as [? | _]; [lia |].
  set (bn := fresh (dom (blocks s))).
  set (nd := mkRawMemory (Ptr bn 0) n).
  set (s1 := set_block bn (replicate (Z.to_nat n) None) s).
  assert (Hbn : blocks s !! bn = None) by apply fresh_block.
  destruct Hlay as [Hbuf Hcap Hsz -> | b rest Hbuf Hb Hsz Hcap Hpos].
  - (* no storage yet *)
    assert (0 < n) by lia.
    eexists _, nd. split; [| split; [| split]].
    + eapply (with_new_data_Ok n _ s tt (data_ v)); [done | done | |].
      * fold bn nd s1. unfold GetAddress. rewrite Hbuf, Hsz.
        unfold uninitialized_move_n, uninitialized_copy_n, destroy_n.
        change (Z.to_nat 0) with 0%nat. cbn [uninitialized_loop destroy_loop].
        erewrite bind_Ok; [| by destruct (_ || _)].
        erewrite bind_Ok; [| reflexivity].
        erewrite bind_Ok; [| by apply swap_data_Ok]. reflexivity.
      * unfold RawMemory_dtor, Deallocate. rewrite Hbuf. reflexivity.
    + cbn [objs s1 set_block]. by rewrite Hsz.
    + done.
    + rewrite Hsz. apply (layout_block _ _ [] bn (replicate (Z.to_nat n) None));
        cbn [data_ size_ buffer_ capacity_ nd]; try done; try lia.
      * cbn [blocks s1 set_block]. apply lookup_insert_eq.
      * cbn [length]. rewrite length_replicate. lia.
  - (* storage in block [b] *)
    assert (Hne : b <> bn) by congruence.
    assert (Hlen : (length es <= Z.to_nat n)%nat) by lia.
    assert (Hsplit : replicate (Z.to_nat n) (@None T)
                     = [] ++ replicate (length es) None
                          ++ replicate (Z.to_nat n - length es) None).
    { cbn [app]. rewrite <- replicate_add. f_equal. lia. }
    destruct (transfer_Ok
                (negb (is_nothrow_move_constructible || negb is_copy_constructible))
                b bn 0 0 es [] rest [] (replicate (length es) None)
                (replicate (Z.to_nat n - length es) None) s1)
      as (rs & Hrs & Hrun); try done.
    { unfold s1. by rewrite set_block_lookup_ne. }
    { unfold s1. rewrite set_block_lookup. by rewrite Hsplit. }
    { by rewrite length_replicate. }
    cbn [app] in Hrun.
    set (s2 := set_block bn ((Some <$> es) ++ replicate (Z.to_nat n - length es) None)
                 (set_block b ((Some <$> rs) ++ rest) s1)) in *.
    destruct (destroy_n_storage b rs rest (size_ v) s2)
      as (s3 & l3 & Hrun3 & Hobjs3 & Hblocks3).
    { unfold s2. rewrite set_block_lookup_ne by done. apply set_block_lookup. }
    { lia. }
    eexists _, nd. split; [| split; [| split]].
    + eapply (with_new_data_Ok n _ s tt (data_ v)); [lia | done | |].
      * fold bn nd s1. unfold GetAddress. rewrite Hbuf. cbn [buffer_ nd].
        rewrite <- Hsz.
        erewrite bind_Ok.
        2:{ destruct (_ || _); exact Hrun. }
        rewrite Hsz.
        erewrite bind_Ok; [| exact Hrun3].
        erewrite bind_Ok; [| apply swap_data_Ok; by rewrite Hobjs3]. reflexivity.
      * unfold RawMemory_dtor, Deallocate. rewrite Hbuf.
        eapply operator_delete_Ok. cbn [blocks]. rewrite Hblocks3.
        apply lookup_insert_eq.
    + cbn [objs]. by rewrite Hobjs3.
    + done.
    + apply (layout_block _ _ es bn (replicate (Z.to_nat n - length es) None));
        cbn [data_ size_ buffer_ capacity_ nd]; try done; try lia.
      * cbn [blocks]. rewrite Hblocks3.
        rewrite lookup_delete_ne by done. rewrite lookup_insert_ne by done.
        unfold s2. apply set_block_lookup.
      * rewrite length_replicate. lia.
Qed.
(** ** Copy assignment by copy-and-swap *)

Lemma mapM_length_Some {A B} (f : A -> option B) xs ys :
  mapM f xs = Some ys -> length ys = length xs.
Proof. intros Hm. apply mapM_Some in Hm. symmetry. by eapply Forall2_length. Qed.

(** [Vector(const Vector&)] from a non-empty well-formed source, at a
    new address: either every copy succeeds and the new object holds the
    copies in storage of exactly [size] slots, or some copy throws and
    no object and no block has changed. *)
Lemma Vector_copy_run new rhs r s xs :
  objs s !! rhs = Some r -> bounded r -> layout s r xs -> 0 < size_ r ->
  let bn := fresh (dom (blocks s)) in
  match mapM copy_construct xs with
  | Some ys =>
      Vector_copy new rhs s
      = Ok tt (mkState (<[new := mkVector (mkRawMemory (Ptr bn 0) (size_ r)) (size_ r)]>
                          (objs s))
                       (<[bn := Some <$> ys]> (blocks s))
                       (trace s))
  | None =>
      exists s', Vector_copy new rhs s = Throw element_exn s' /\
                 objs s' = objs s /\ blocks s' = blocks s
  end.
Proof.
  intros Hrhs Hb Hlay Hpos bn.
  assert (Hbn : blocks s !! bn = None) by apply fresh_block.
  destruct Hb as [[Hs0 Hs1] Hb].
  destruct Hlay as [_ _ Hsz _ | b rest Hbuf Hblk Hsz Hcap _]; [lia |].
  assert (Hne : b <> bn) by congruence.
  set (s1 := set_block bn (replicate (Z.to_nat (size_ r)) None) s).
  assert (Halloc : RawMemory_new (size_ r) s
                   = Ok (mkRawMemory (Ptr bn 0) (size_ r)) s1).
  { unfold RawMemory_new. erewrite bind_Ok; [reflexivity |].
    apply Allocate_Ok; [done | nia]. }
  assert (Hsrc : blocks s1 !! b = Some ([] ++ (Some <$> xs) ++ rest)).
  { unfold s1. by rewrite set_block_lookup_ne. }
  assert (Hdst : blocks s1 !! bn = Some ([] ++ replicate (length xs) None ++ [])).
  { unfold s1. rewrite set_block_lookup. cbn [app]. rewrite app_nil_r.
    do 2 f_equal. lia. }
  unfold Vector_copy.
  destruct (mapM copy_construct xs) as [ys|] eqn:Hm.
  - rewrite (bind_Ok _ _ _ _ _ (get_Ok rhs r s Hrhs)).
    rewrite (bind_Ok _ _ _ _ _ Halloc).
    erewrite bind_Ok.
    2:{ apply catch_rethrow_Ok. unfold GetAddress, uninitialized_copy_n.
        rewrite Hbuf. cbn [buffer_]. rewrite <- Hsz, Nat2Z.id.
        apply (uninitialized_copy_loop_Ok b bn 0 0 xs ys 0 [] rest []
                 (replicate (length xs) None) []); try done.
        by rewrite length_replicate. }
    unfold put. cbn [app objs blocks trace set_block s1].
    rewrite app_nil_r. by rewrite insert_insert_eq.
  - destruct (uninitialized_copy_loop_Throw b bn 0 0 xs [] [] rest []
                (replicate (length xs) None) [] s1)
      as (s2 & l2 & Hrun & Hobjs & Hblocks & _); try done.
    { by rewrite length_replicate. }
    eexists. split.
    + rewrite (bind_Ok _ _ _ _ _ (get_Ok rhs r s Hrhs)).
      rewrite (bind_Ok _ _ _ _ _ Halloc).
      apply bind_Throw. eapply catch_rethrow_Throw.
      * unfold GetAddress, uninitialized_copy_n.
        rewrite Hbuf. cbn [buffer_]. rewrite <- Hsz, Nat2Z.id. exact Hrun.
      * unfold RawMemory_dtor, Deallocate. cbn [buffer_].
        eapply operator_delete_Ok. rewrite Hblocks. apply lookup_insert_eq.
    + cbn [objs blocks]. split; [done |].
      rewrite Hblocks. unfold s1. cbn [blocks set_block].
      rewrite insert_insert_eq. by apply delete_insert_id.
Qed.

(** [~Vector()] on a well-formed Vector returns; the object is gone, and
    no block but the Vector's own has changed. *)
Lemma Vector_dtor_run this t s es :
  objs s !! this = Some t -> layout s t es ->
  exists s', Vector_dtor this s = Ok tt s' /\
             objs s' = delete this (objs s) /\
             forall b', buffer_ (data_ t) <> Ptr b' 0 ->
                        blocks s' !! b' = blocks s !! b'.
Proof.
  intros Hthis Hlay. unfold Vector_dtor.
  rewrite (bind_Ok _ _ _ _ _ (get_Ok this t s Hthis)).
  unfold GetAddress, RawMemory_dtor, Deallocate.
  destruct Hlay as [Hbuf _ Hsz _ | b rest Hbuf Hblk Hsz _ _]; rewrite Hbuf.
  - rewrite Hsz. unfold destroy_n. change (Z.to_nat 0) with 0%nat.
    cbn [destroy_loop]. eexists. split; [reflexivity |]. done.
  - destruct (destroy_n_storage b es rest (size_ t) s Hblk)
      as (s1 & l1 & Hrun & Hobjs & Hblocks); [lia |].
    rewrite (bind_Ok _ _ _ _ _ Hrun).
    erewrite bind_Ok.
    2:{ eapply operator_delete_Ok. rewrite Hblocks. apply lookup_insert_eq. }
    eexists. split; [reflexivity |]. cbn [objs blocks].
    split; [by rewrite Hobjs |].
    intros b' Hb'. assert (b <> b') by congruence.
    rewrite lookup_delete_ne by done. rewrite Hblocks.
    by rewrite lookup_insert_ne.
Qed.

(** C6. Copy assignment from another Vector whose size exceeds the
    capacity of the destination builds a complete copy and swaps it in.
    When copying some element throws, the assignment ends with that
    exception and every Vector object and every block of storage is as
    it was: the destination is unchanged.  When every copy succeeds, it
    returns normally and the destination holds the copies of the
    source's elements, in order. *)
Theorem copy_assignment_by_copy_and_swap
    (this rhs : vref) (t r : Vector) (s : state T) (xs : list T)
    (Hdistinct : this <> rhs)
    (Hthis : objs s !! this = Some t)
    (Hrhs : objs s !! rhs = Some r)
    (Hwf_this : well_formed s t = true)
    (Hwf_rhs : well_formed s r = true)
    (Hlarger : capacity_ (data_ t) < size_ r)
    (Hxs : elements s r = Some xs) :
  match mapM copy_construct xs with
  | None =>
      exists s', assign_copy this rhs s = Throw element_exn s' /\
                 objs s' = objs s /\ blocks s' = blocks s
  | Some ys =>
      exists s' v', assign_copy this rhs s = Ok tt s' /\
                    objs s' !! this = Some v' /\
                    size_ v' = size_ r /\
                    elements s' v' = Some ys
  end.
Proof.
  destruct (well_formed_layout s t Hwf_this) as ([[Ht0 Ht1] _] & es & Hlay_t).
  destruct (well_formed_layout s r Hwf_rhs) as (Hb_r & xs' & Hlay_r).
  rewrite (layout_elements _ _ _ Hlay_r) in Hxs. injection Hxs as ->.
  assert (Hpos : 0 < size_ r) by lia.
  set (rc := fresh (dom (objs s))).
  assert (Hrc : objs s !! rc = None) by (apply not_elem_of_dom, is_fresh).
  assert (this <> rc) by congruence. assert (rhs <> rc) by congruence.
  pose proof (Vector_copy_run rc rhs r s xs Hrhs Hb_r Hlay_r Hpos) as Hcopy.
  cbv zeta in Hcopy.
  unfold assign_copy. rewrite bool_decide_eq_false_2 by done. cbn [negb].
  rewrite (bind_Ok _ _ _ _ _ (get_Ok rhs r s Hrhs)).
  rewrite (bind_Ok _ _ _ _ _ (get_Ok this t s Hthis)).
  rewrite Z.gtb_ltb. destruct (Z.ltb_spec (capacity_ (data_ t)) (size_ r)); [| lia].
  erewrite bind_Ok; [| reflexivity]. fold rc.
  destruct (mapM copy_construct xs) as [ys|] eqn:Hm.
  - set (bn := fresh (dom (blocks s))) in *.
    assert (Hbn : blocks s !! bn = None) by apply fresh_block.
    set (new := mkVector (mkRawMemory (Ptr bn 0) (size_ r)) (size_ r)) in *.
    rewrite (bind_Ok _ _ _ _ _ Hcopy).
    erewrite bind_Ok.
    2:{ apply (Swap_Ok this rc t new); cbn [objs]; by simplify_map_eq. }
    set (s2 := mkState _ _ _).
    destruct (Vector_dtor_run rc t s2 es) as (s3 & Hrun3 & Hobjs3 & Hblocks3).
    { unfold s2. cbn [objs]. by simplify_map_eq. }
    { destruct Hlay_t as [? ? ? ? | b rest Hbuf Hblk ? ? ?].
      - by apply layout_null.
      - apply (layout_block _ _ _ b rest); try done.
        unfold s2. cbn [blocks]. rewrite lookup_insert_ne by congruence. done. }
    exists s3, new. split; [exact Hrun3 |].
    split; [rewrite Hobjs3; unfold s2; cbn [objs]; by simplify_map_eq |].
    split; [done |].
    apply layout_elements.
    apply (layout_block _ _ ys bn []); cbn [data_ size_ buffer_ capacity_ new];
      try done.
    + rewrite Hblocks3.
      * unfold s2. cbn [blocks]. rewrite lookup_insert_eq. by rewrite app_nil_r.
      * destruct Hlay_t as [Hbuf | b rest Hbuf Hblk]; rewrite Hbuf; [done |].
        intros [= ->]. congruence.
    + rewrite (mapM_length_Some _ _ _ Hm).
      destruct Hlay_r as [? ? ? ? | ? ? ? ? Hsz ? ?]; [lia | done].
    + cbn [length]. rewrite Nat.add_0_r. rewrite (mapM_length_Some _ _ _ Hm).
      destruct Hlay_r as [? ? ? ? | ? ? ? ? Hsz ? ?]; [lia | done].
  - destruct Hcopy as (s' & Hrun & Hobjs & Hblocks).
    exists s'. split; [| done]. by apply bind_Throw.
Qed.
(** ** Shifting elements inside the storage *)

Lemma lookup_after_middle {A} (pre post : list A) (a x : A) n :
  n = S (length pre) -> (pre ++ a :: x :: post) !! n = Some x.
Proof.
  intros ->. rewrite lookup_app_r by lia.
  by replace (S (length pre) - length pre)%nat with 1%nat by lia.
Qed.

Lemma insert_after_middle {A} (pre post : list A) (a x y : A) n :
  n = S (length pre) -> <[n := y]> (pre ++ a :: x :: post) = pre ++ a :: y :: post.
Proof.
  intros ->. rewrite insert_app_r_alt by lia.
  by replace (S (length pre) - length pre)%nat with 1%nat by lia.
Qed.

(** One move assignment between two slots of a block. *)
Lemma move_assign_at_Ok b (d0 x : T) l (i j : nat) s :
  value_semantics ->
  blocks s !! b = Some l ->
  l !! i = Some (Some d0) -> l !! j = Some (Some x) ->
  exists r,
    move_assign_at (Ptr b (Z.of_nat i)) (Ptr b (Z.of_nat j)) s
    = Ok tt (set_block b (<[i := Some x]> (<[j := Some r]> l)) s).
Proof.
  intros (_ & _ & Hassign) Hl Hi Hj.
  destruct (Hassign d0 x) as [r Hr]. exists r.
  unfold move_assign_at.
  erewrite bind_Ok; [| eapply read_Ok; [exact Hl | lia | by rewrite Nat2Z.id]].
  erewrite bind_Ok; [| eapply read_Ok; [exact Hl | lia | by rewrite Nat2Z.id]].
  rewrite Hr.
  erewrite bind_Ok.
  2:{ eapply write_Ok; [exact Hl | lia |]. rewrite Nat2Z.id.
      by eapply lookup_lt_Some. }
  erewrite write_Ok; [| apply set_block_lookup | lia |].
  - rewrite set_block_set_block. by rewrite !Nat2Z.id.
  - rewrite Nat2Z.id, length_insert. by eapply lookup_lt_Some.
Qed.

(** [std::move(first, last, d_first)] one slot to the left: the slot
    before the range receives the first value, and so on; the last slot
    of the range keeps a moved-from object. *)
Lemma move_loop_Ok b xs :
  forall pre d0 post s,
  value_semantics ->
  blocks s !! b = Some (pre ++ Some d0 :: (Some <$> xs) ++ post) ->
  exists r,
    move_loop (Ptr b (Z.of_nat (S (length pre)))) (Ptr b (Z.of_nat (length pre)))
              (length xs) s
    = Ok tt (set_block b (pre ++ (Some <$> xs) ++ Some r :: post) s).
Proof.
  induction xs as [|x xs IH]; intros pre d0 post s Hvs Hl.
  - exists d0. cbn. by rewrite set_block_id.
  - cbn [length move_loop fmap list_fmap app] in *.
    destruct (move_assign_at_Ok b d0 x _ (length pre) (S (length pre)) s Hvs Hl)
      as [r1 Hstep].
    { by apply lookup_middle. }
    { by apply lookup_after_middle. }
    rewrite (bind_Ok _ _ _ _ _ Hstep). cbn [ptr_add].
    set (s1 := set_block b _ s) in *.
    assert (Hl1 : blocks s1 !! b
                  = Some ((pre ++ [Some x]) ++ Some r1 :: (Some <$> xs) ++ post)).
    { unfold s1. rewrite set_block_lookup. f_equal.
      rewrite insert_after_middle by done.
      rewrite insert_middle by done.
      by rewrite <- app_assoc. }
    destruct (IH (pre ++ [Some x]) r1 post s1 Hvs Hl1) as [r Hrun].
    exists r.
    replace (Z.of_nat (S (length pre)) + 1)
      with (Z.of_nat (S (length (pre ++ [Some x]))))
      by (rewrite length_app; cbn; lia).
    replace (Z.of_nat (length pre) + 1)
      with (Z.of_nat (length (pre ++ [Some x])))
      by (rewrite length_app; cbn; lia).
    rewrite Hrun. unfold s1. rewrite set_block_set_block.
    by rewrite <- app_assoc.
Qed.

(** [std::move_backward(first, last, d_last)] one slot to the right:
    the slot after the range receives the last value, and so on; the
    first slot of the range keeps a moved-from object. *)
Lemma move_backward_loop_Ok b xs :
  forall pre d0 post s,
  value_semantics ->
  blocks s !! b = Some (pre ++ (Some <$> xs) ++ Some d0 :: post) ->
  exists r,
    move_backward_loop (Ptr b (Z.of_nat (length pre + length xs)))
                       (Ptr b (Z.of_nat (S (length pre + length xs))))
                       (length xs) s
    = Ok tt (set_block b (pre ++ Some r :: (Some <$> xs) ++ post) s).
Proof.
  induction xs as [|x xs IH] using rev_ind; intros pre d0 post s Hvs Hl.
  - exists d0. cbn. by rewrite set_block_id.
  - rewrite length_app. cbn [length]. rewrite Nat.add_1_r.
    cbn [move_backward_loop ptr_add].
    rewrite fmap_app in Hl. cbn [fmap list_fmap] in Hl.
    rewrite <- app_assoc in Hl. cbn [app] in Hl.
    replace (Z.of_nat (S (length pre + S (length xs))) + -1)
      with (Z.of_nat (S (length pre + length xs))) by lia.
    replace (Z.of_nat (length pre + S (length xs)) + -1)
      with (Z.of_nat (length pre + length xs)) by lia.
    assert (Hlen : length (pre ++ (Some <$> xs)) = (length pre + length xs)%nat).
    { by rewrite length_app, length_fmap. }
    destruct (move_assign_at_Ok b d0 x _ (S (length pre + length xs))
                (length pre + length xs) s Hvs Hl) as [r1 Hstep].
    { rewrite (app_assoc pre (Some <$> xs)).
      apply lookup_after_middle. by rewrite Hlen. }
    { rewrite (app_assoc pre (Some <$> xs)). by apply lookup_middle. }
    rewrite (bind_Ok _ _ _ _ _ Hstep).
    set (s1 := set_block b _ s) in *.
    assert (Hl1 : blocks s1 !! b
                  = Some (pre ++ (Some <$> xs) ++ Some r1 :: Some x :: post)).
    { unfold s1. rewrite set_block_lookup. f_equal.
      rewrite (app_assoc pre (Some <$> xs)).
      rewrite (insert_middle (pre ++ (Some <$> xs))) by done.
      rewrite insert_after_middle by (by rewrite Hlen).
      by rewrite <- !app_assoc. }
    destruct (IH pre r1 (Some x :: post) s1 Hvs Hl1) as [r Hrun].
    exists r. rewrite Hrun. unfold s1. rewrite set_block_set_block.
    rewrite fmap_app. cbn [fmap list_fmap]. by rewrite <- !app_assoc.
Qed.
(** ** Erase *)

Lemma begin_Ok this v s :
  objs s !! this = Some v -> begin this s = Ok (buffer_ (data_ v)) s.
Proof. intros Hv. unfold begin. by rewrite (bind_Ok _ _ _ _ _ (get_Ok this v s Hv)). Qed.

Lemma end_Ok this v s :
  objs s !! this = Some v -> end_ this s = Ok (buffer_ (data_ v) +ₚ size_ v) s.
Proof. intros Hv. unfold end_. by rewrite (bind_Ok _ _ _ _ _ (get_Ok this v s Hv)). Qed.

(** [PopBack] on a non-empty Vector with storage: the size is
    decremented, then the destructor is called on the slot at the old
    [size]. *)
Lemma PopBack_unfold this v s b :
  objs s !! this = Some v -> 1 <= size_ v < 2 ^ 64 ->
  buffer_ (data_ v) = Ptr b 0 ->
  PopBack this s
  = destroy_at (Ptr b (size_ v))
      (mkState (<[this := mkVector (data_ v) (size_ v - 1)]> (objs s))
               (blocks s) (trace s)).
Proof.
  intros Hthis Hsz Hbuf.
  unfold PopBack. rewrite (bind_Ok _ _ _ _ _ (get_Ok this v s Hthis)).
  destruct (Z.ltb_spec (size_ v) 1); [lia |].
  erewrite bind_Ok; [| by apply set_size_Ok].
  rewrite wrap_small by lia. unfold GetAddress. rewrite Hbuf.
  cbn [ptr_add]. by rewrite Z.add_0_l.
Qed.

(** For a trivially destructible element type that call returns,
    whatever the slot holds. *)
Lemma PopBack_run this v s b l :
  is_trivially_destructible = true ->
  objs s !! this = Some v -> 1 <= size_ v < 2 ^ 64 ->
  buffer_ (data_ v) = Ptr b 0 -> blocks s !! b = Some l ->
  exists s',
    PopBack this s = Ok tt s' /\
    objs s' = <[this := mkVector (data_ v) (size_ v - 1)]> (objs s) /\
    blocks s' = <[b := <[Z.to_nat (size_ v) := None]> l]> (blocks s) /\
    trace s' = EvDestroy (Ptr b (size_ v)) (default None (l !! Z.to_nat (size_ v)))
               :: trace s.
Proof.
  intros Htriv Hthis Hsz Hbuf Hblk.
  rewrite (PopBack_unfold this v s b Hthis Hsz Hbuf).
  rewrite (destroy_at_trivial b (size_ v) l) by (done || lia).
  eexists. split; [reflexivity |]. done.
Qed.

(** For any other element type the call is undefined unless a live
    object is behind the last element. *)
Lemma PopBack_Fault this v s b l :
  is_trivially_destructible = false ->
  objs s !! this = Some v -> 1 <= size_ v < 2 ^ 64 ->
  buffer_ (data_ v) = Ptr b 0 -> blocks s !! b = Some l ->
  (forall y, l !! Z.to_nat (size_ v) <> Some (Some y)) ->
  PopBack this s
  = Fault (mkState (<[this := mkVector (data_ v) (size_ v - 1)]> (objs s))
                   (blocks s) (EvDestroy (Ptr b (size_ v)) None :: trace s)).
Proof.
  intros Htriv Hthis Hsz Hbuf Hblk Hraw.
  rewrite (PopBack_unfold this v s b Hthis Hsz Hbuf).
  by rewrite (destroy_at_Fault b (size_ v) l) by (done || lia).
Qed.

(** Erase of the element at index [length es1] of a Vector holding
    [es1 ++ x :: es2]: the elements behind it are moved down by one,
    the last slot keeps a moved-from object [r], and PopBack runs. *)
Lemma Erase_shift this v s es1 x es2 b rest :
  objs s !! this = Some v -> bounded v ->
  buffer_ (data_ v) = Ptr b 0 ->
  blocks s !! b = Some ((Some <$> es1) ++ Some x :: (Some <$> es2) ++ rest) ->
  Z.of_nat (length es1 + S (length es2)) = size_ v ->
  value_semantics ->
  exists r,
    Erase this (buffer_ (data_ v) +ₚ Z.of_nat (length es1)) s
    = (PopBack this ;;;
       let* b' := begin this in
       ret (b' +ₚ Z.of_nat (length es1)))
        (set_block b ((Some <$> es1) ++ (Some <$> es2) ++ Some r :: rest) s).
Proof.
  intros Hthis Hb Hbuf Hblk Hsz Hvs. pose proof (bounded_capacity v Hb) as Hc.
  destruct Hb as [[Hs0 Hs1] _].
  assert (Hpre : length (Some <$> es1) = length es1) by apply length_fmap.
  destruct (move_loop_Ok b es2 (Some <$> es1) x rest s Hvs Hblk) as [r Hmove].
  exists r.
  unfold Erase.
  rewrite (bind_Ok _ _ _ _ _ (begin_Ok this v s Hthis)).
  rewrite (bind_Ok _ _ _ _ _ (end_Ok this v s Hthis)).
  rewrite Hbuf. cbn [ptr_add ptr_le ptr_lt ptr_diff].
  rewrite bool_decide_eq_true_2 by done.
  destruct (Z.leb_spec 0 (0 + Z.of_nat (length es1))); [| lia].
  destruct (Z.ltb_spec (0 + Z.of_nat (length es1)) (0 + size_ v)); [| lia].
  cbn [andb assert]. erewrite bind_Ok; [| reflexivity].
  rewrite wrap_small by lia.
  unfold std_move. cbn [ptr_diff].
  replace (0 + (0 + Z.of_nat (length es1) - 0) + 1)
    with (Z.of_nat (S (length (Some <$> es1)))) by lia.
  replace (0 + (0 + Z.of_nat (length es1) - 0))
    with (Z.of_nat (length (Some <$> es1))) by lia.
  replace (Z.to_nat (0 + size_ v - Z.of_nat (S (length (Some <$> es1)))))
    with (length es2) by lia.
  rewrite (bind_Ok _ _ _ _ _ Hmove).
  replace (0 + Z.of_nat (length es1) - 0) with (Z.of_nat (length es1)) by lia.
  reflexivity.
Qed.

(** For a trivially destructible element type, erasing the element at
    index [length es1] of a Vector holding [es1 ++ x :: es2] returns
    and leaves it holding [es1 ++ es2], in the same storage. *)
Lemma Erase_run this v s es1 x es2 :
  is_trivially_destructible = true ->
  objs s !! this = Some v -> bounded v ->
  layout s v (es1 ++ x :: es2) -> value_semantics ->
  exists s' p,
    Erase this (buffer_ (data_ v) +ₚ Z.of_nat (length es1)) s = Ok p s' /\
    objs s' = <[this := mkVector (data_ v) (size_ v - 1)]> (objs s) /\
    layout s' (mkVector (data_ v) (size_ v - 1)) (es1 ++ es2).
Proof.
  intros Htriv Hthis Hb Hlay Hvs. pose proof (bounded_capacity v Hb) as Hc.
  pose proof Hb as [[Hs0 Hs1] _].
  destruct Hlay as [_ _ _ Hnil | b rest Hbuf Hblk Hsz Hcap Hpos].
  { by destruct es1. }
  rewrite length_app in Hsz, Hcap. cbn [length] in Hsz, Hcap.
  rewrite fmap_app in Hblk. cbn [fmap list_fmap] in Hblk.
  rewrite <- app_assoc in Hblk. cbn [app] in Hblk.
  destruct (Erase_shift this v s es1 x es2 b rest Hthis Hb Hbuf Hblk Hsz Hvs)
    as [r Hshift].
  set (s1 := set_block b _ s) in Hshift.
  destruct (PopBack_run this v s1 b
              ((Some <$> es1) ++ (Some <$> es2) ++ Some r :: rest))
    as (s2 & Hpop & Hobjs2 & Hblocks2 & _); try done.
  { lia. }
  { apply set_block_lookup. }
  exists s2, (Ptr b (Z.of_nat (length es1))).
  split; [| split].
  - rewrite Hshift. rewrite (bind_Ok _ _ _ _ _ Hpop).
    erewrite bind_Ok.
    2:{ apply begin_Ok. rewrite Hobjs2. cbn [objs]. apply lookup_insert_eq. }
    cbn [data_]. rewrite Hbuf. cbn [ptr_add]. reflexivity.
  - by rewrite Hobjs2.
  - apply (layout_block _ _ _ b
             (Some r :: <[(Z.to_nat (size_ v) - S (length (es1 ++ es2)))%nat := None]> rest));
      cbn [data_ size_]; try done.
    + rewrite Hblocks2. rewrite lookup_insert_eq. f_equal.
      rewrite fmap_app, <- app_assoc.
      replace (Z.to_nat (size_ v))
        with (length (Some <$> es1) + (length (Some <$> es2) + 1))%nat
        by (rewrite !length_fmap; lia).
      rewrite !insert_app_r. cbn [insert list_insert].
      replace (length (Some <$> es1) + (length (Some <$> es2) + 1)
               - S (length (es1 ++ es2)))%nat with 0%nat
        by (rewrite !length_fmap, length_app; lia).
      reflexivity.
    + rewrite length_app. lia.
    + cbn [length]. rewrite length_insert, length_app. lia.
Qed.

(** For any other element type, with no live object behind the last
    element, the destructor call of the PopBack inside Erase is
    undefined. *)
Lemma Erase_Fault this v s es1 x es2 b rest :
  is_trivially_destructible = false ->
  objs s !! this = Some v -> bounded v ->
  buffer_ (data_ v) = Ptr b 0 ->
  blocks s !! b = Some ((Some <$> es1 ++ x :: es2) ++ rest) ->
  Z.of_nat (length (es1 ++ x :: es2)) = size_ v ->
  (forall y, head rest <> Some (Some y)) ->
  value_semantics ->
  exists s', Erase this (buffer_ (data_ v) +ₚ Z.of_nat (length es1)) s = Fault s' /\
             head (trace s') = Some (EvDestroy (Ptr b (size_ v)) None).
Proof.
  intros Htriv Hthis Hb Hbuf Hblk Hsz Hraw Hvs.
  pose proof (bounded_capacity v Hb) as Hc.
  pose proof Hb as [[Hs0 Hs1] _].
  rewrite length_app in Hsz. cbn [length] in Hsz.
  rewrite fmap_app in Hblk. cbn [fmap list_fmap] in Hblk.
  rewrite <- app_assoc in Hblk. cbn [app] in Hblk.
  destruct (Erase_shift this v s es1 x es2 b rest Hthis Hb Hbuf Hblk Hsz Hvs)
    as [r Hshift].
  set (s1 := set_block b _ s) in Hshift.
  eexists. rewrite Hshift. unfold bind at 1.
  rewrite (PopBack_Fault this v s1 b
             ((Some <$> es1) ++ (Some <$> es2) ++ Some r :: rest)); try done.
  - lia.
  - apply set_block_lookup.
  - intros y.
    replace (Z.to_nat (size_ v))
      with (length (Some <$> es1) + (length (Some <$> es2) + 1))%nat
      by (rewrite !length_fmap; lia).
    rewrite lookup_app_r by lia.
    replace (length (Some <$> es1) + (length (Some <$> es2) + 1)
             - length (Some <$> es1))%nat
      with (length (Some <$> es2) + 1)%nat by lia.
    rewrite lookup_app_r by lia.
    replace (length (Some <$> es2) + 1 - length (Some <$> es2))%nat with 1%nat by lia.
    change ((Some r :: rest) !! 1%nat) with (rest !! 0%nat).
    rewrite <- head_lookup. apply Hraw.
Qed.
(** ** Emplace *)

(** The body of the [try] block of the same-capacity path: in a block
    that holds [es1 ++ es2] followed by a free slot, it puts [x] between
    [es1] and [es2]. *)
Lemma Emplace_shift b es1 es2 x r0 rest' (v : Vector) s :
  value_semantics ->
  buffer_ (data_ v) = Ptr b 0 ->
  Z.of_nat (length es1 + length es2) = size_ v ->
  size_ v < capacity_ (data_ v) -> capacity_ (data_ v) < 2 ^ 63 ->
  blocks s !! b = Some ((Some <$> es1) ++ (Some <$> es2) ++ r0 :: rest') ->
  let pos := Ptr b (0 + Z.of_nat (length es1)) in
  let e := Ptr b (0 + size_ v) in
  (if negb (bool_decide (pos = e)) then
     match Some x with
     | Some new_s =>
         let* last := RawMemory_index (data_ v) (wrap (size_ v - 1)) in
         move_construct_at e last ;;;
         move_backward (Ptr b 0 +ₚ Z.of_nat (length es1)) (e +ₚ -1) e ;;;
         move_assign_local (Ptr b 0 +ₚ Z.of_nat (length es1)) new_s
     | None => throw element_exn
     end
   else construct_at e (Some x)) s
  = Ok tt (set_block b ((Some <$> es1) ++ Some x :: (Some <$> es2) ++ rest') s).
Proof.
  intros Hvs Hbuf Hsz Hroom Hc Hblk pos e.
  assert (Hpre : length (Some <$> es1) = length es1) by apply length_fmap.
  destruct es2 as [|y es2' _] using rev_ind.
  - (* at the end *)
    cbn [length fmap list_fmap app] in *.
    rewrite bool_decide_eq_true_2 by (unfold pos, e; do 2 f_equal; lia).
    cbn [negb]. unfold e.
    erewrite construct_at_Ok; [| exact Hblk | lia | apply middle_lt_length; lia].
    rewrite insert_middle by lia. reflexivity.
  - (* before the end: [y] is the last element *)
    rewrite length_app in Hsz. cbn [length] in Hsz.
    rewrite bool_decide_eq_false_2 by (unfold pos, e; intros [= ?]; lia).
    cbn [negb].
    rewrite fmap_app in Hblk. cbn [fmap list_fmap] in Hblk.
    rewrite <- app_assoc in Hblk. cbn [app] in Hblk.
    assert (Hlen : length ((Some <$> es1) ++ (Some <$> es2'))
                   = (length es1 + length es2')%nat)
      by (by rewrite length_app, !length_fmap).
    destruct Hvs as (Hcopy & Hmove & Hassign).
    destruct (Hmove y) as [r Hr].
    unfold RawMemory_index. rewrite wrap_small by lia.
    destruct (Z.ltb_spec (size_ v - 1) (capacity_ (data_ v))); [| lia].
    cbn [assert]. erewrite bind_Ok; [| reflexivity].
    rewrite Hbuf. cbn [ptr_add]. unfold e.
    (* the trailing slot is constructed from the last element *)
    set (l1 := (Some <$> es1) ++ (Some <$> es2') ++ Some r :: Some y :: rest').
    assert (Hstep1 : move_construct_at (Ptr b (0 + size_ v)) (Ptr b (0 + (size_ v - 1))) s
                     = Ok tt (set_block b l1 s)).
    { unfold move_construct_at.
      erewrite bind_Ok.
      2:{ eapply read_Ok; [exact Hblk | lia |].
          rewrite (app_assoc (Some <$> es1)). apply lookup_middle. lia. }
      rewrite Hr.
      erewrite bind_Ok.
      2:{ eapply construct_at_Ok; [exact Hblk | lia |].
          rewrite (app_assoc (Some <$> es1)).
          rewrite length_app. cbn [length]. lia. }
      erewrite write_Ok; [| apply set_block_lookup | lia |].
      2:{ rewrite length_insert, (app_assoc (Some <$> es1)), length_app.
          cbn [length]. lia. }
      rewrite set_block_set_block. unfold l1. do 2 f_equal.
      rewrite !(app_assoc (Some <$> es1)).
      rewrite insert_after_middle by lia.
      rewrite insert_middle by lia. reflexivity. }
    rewrite (bind_Ok _ _ _ _ _ Hstep1).
    (* the elements after the position move one slot to the right *)
    destruct (move_backward_loop_Ok b es2' (Some <$> es1) r (Some y :: rest')
                (set_block b l1 s) (conj Hcopy (conj Hmove Hassign)))
      as [r' Hback].
    { apply set_block_lookup. }
    rewrite set_block_set_block in Hback.
    erewrite bind_Ok.
    2:{ unfold move_backward. cbn [ptr_diff ptr_add].
        replace (Z.to_nat (0 + size_ v + -1 - (0 + Z.of_nat (length es1))))
          with (length es2') by lia.
        replace (0 + size_ v + -1)
          with (Z.of_nat (length (Some <$> es1) + length es2')) by lia.
        replace (0 + size_ v)
          with (Z.of_nat (S (length (Some <$> es1) + length es2'))) by lia.
        exact Hback. }
    (* the new value is assigned to the slot at the position *)
    destruct (Hassign r' x) as [r'' Hr''].
    unfold move_assign_local.
    erewrite bind_Ok.
    2:{ eapply read_Ok; [apply set_block_lookup | lia |].
        apply lookup_middle. lia. }
    rewrite Hr''.
    erewrite write_Ok; [| apply set_block_lookup | lia | apply middle_lt_length; lia].
    rewrite set_block_set_block. rewrite insert_middle by lia.
    rewrite fmap_app. cbn [fmap list_fmap]. by rewrite <- app_assoc.
Qed.

(** Emplace with room to spare ([size < capacity]). *)
Lemma Emplace_room this v s es1 es2 x :
  objs s !! this = Some v -> bounded v -> layout s v (es1 ++ es2) ->
  value_semantics -> size_ v < capacity_ (data_ v) ->
  let v' := mkVector (data_ v) (size_ v + 1) in
  exists s',
    Emplace this (buffer_ (data_ v) +ₚ Z.of_nat (length es1)) (Some x) s
    = Ok (buffer_ (data_ v') +ₚ Z.of_nat (length es1)) s' /\
    objs s' = <[this := v']> (objs s) /\
    layout s' v' (es1 ++ x :: es2) /\ bounded v'.
Proof.
  intros Hthis Hb Hlay Hvs Hroom v'. pose proof (bounded_capacity v Hb) as Hc.
  destruct Hb as [[Hs0 Hs1] Hb].
  destruct Hlay as [_ Hcap0 Hsz0 _ | b rest Hbuf Hblk Hsz Hcap Hpos]; [lia |].
  rewrite length_app in Hsz, Hcap.
  destruct rest as [|r0 rest']; [simpl in Hcap; lia |].
  rewrite fmap_app, <- app_assoc in Hblk.
  set (s1 := set_block b ((Some <$> es1) ++ Some x :: (Some <$> es2) ++ rest') s).
  exists (mkState (<[this := v']> (objs s)) (blocks s1) (trace s1)).
  split; [| split; [| split]].
  - unfold Emplace.
    rewrite (bind_Ok _ _ _ _ _ (begin_Ok this v s Hthis)).
    rewrite (bind_Ok _ _ _ _ _ (end_Ok this v s Hthis)).
    rewrite Hbuf. cbn [ptr_add ptr_le ptr_diff].
    rewrite bool_decide_eq_true_2 by done.
    destruct (Z.leb_spec 0 (0 + Z.of_nat (length es1))); [| lia].
    destruct (Z.leb_spec (0 + Z.of_nat (length es1)) (0 + size_ v)); [| lia].
    cbn [andb assert]. erewrite bind_Ok; [| reflexivity].
    rewrite (bind_Ok _ _ _ _ _ (get_Ok this v s Hthis)).
    rewrite Z.gtb_ltb. destruct (Z.ltb_spec (size_ v) (capacity_ (data_ v))); [| lia].
    rewrite (wrap_small (0 + Z.of_nat (length es1) - 0)) by lia.
    replace (0 + Z.of_nat (length es1) - 0) with (Z.of_nat (length es1)) by lia.
    erewrite bind_Ok.
    2:{ apply catch_rethrow_Ok.
        apply (Emplace_shift b es1 es2 x r0 rest' v s); try done. }
    fold s1.
    erewrite bind_Ok; [| apply (get_Ok this v); exact Hthis].
    erewrite bind_Ok; [| apply (set_size_Ok this v); exact Hthis].
    rewrite wrap_small by lia.
    erewrite bind_Ok; [| apply begin_Ok; cbn [objs]; apply lookup_insert_eq].
    cbn [data_ v']. by rewrite Hbuf.
  - done.
  - apply (layout_block _ _ _ b rest'); cbn [data_ size_ v' blocks]; try done.
    + unfold s1. rewrite set_block_lookup. f_equal.
      rewrite fmap_app. cbn [fmap list_fmap]. by rewrite <- app_assoc.
    + rewrite length_app. cbn [length]. lia.
    + rewrite length_app. cbn [length] in *. lia.
  - unfold bounded, sizes_ok. cbn [data_ size_ v']. lia.
Qed.

(** Emplace into a full Vector ([size = capacity]): the elements move
    to storage of [max(1, 2 * capacity)] slots, around the new one. *)
Lemma Emplace_full this v s es1 es2 x :
  objs s !! this = Some v -> bounded v -> layout s v (es1 ++ es2) ->
  value_semantics -> size_ v = capacity_ (data_ v) ->
  Z.max 1 (2 * capacity_ (data_ v)) * sizeof <= max_alloc ->
  exists s' d,
    Emplace this (buffer_ (data_ v) +ₚ Z.of_nat (length es1)) (Some x) s
    = Ok (buffer_ d +ₚ Z.of_nat (length es1)) s' /\
    objs s' = <[this := mkVector d (size_ v + 1)]> (objs s) /\
    capacity_ d = Z.max 1 (2 * capacity_ (data_ v)) /\
    layout s' (mkVector d (size_ v + 1)) (es1 ++ x :: es2) /\
    bounded (mkVector d (size_ v + 1)).
Proof.
  intros Hthis Hb Hlay Hvs Hfull Hfit.
  pose proof (bounded_capacity v Hb) as Hc.
  pose proof (growth_request v Hb Hfull) as (Hn & Hlt & Hnpos & _).
  cbv zeta in Hn, Hlt, Hnpos.
  destruct Hb as [[Hs0 Hs1] Hb].
  set (n := Z.max 1 (2 * capacity_ (data_ v))) in *.
  set (bn := fresh (dom (blocks s))).
  set (nd := mkRawMemory (Ptr bn 0) n).
  set (s1 := set_block bn (replicate (Z.to_nat n) None) s).
  assert (Hbn : blocks s !! bn = None) by apply fresh_block.
  assert (Hprefix : forall s0, objs s0 !! this = Some v ->
            Emplace this (buffer_ (data_ v) +ₚ Z.of_nat (length es1)) (Some x) s0
            = (let index := Z.of_nat (length es1) in
               with_new_data (if size_ v =? 0 then 1 else wrap (size_ v * 2))
                 (fun new_data =>
                    construct_at (GetAddress new_data +ₚ index) (Some x) ;;;
                    (if negb is_nothrow_move_constructible && is_copy_constructible then
                       uninitialized_copy_n (GetAddress (data_ v)) index
                                            (GetAddress new_data) ;;;
                       uninitialized_copy_n (GetAddress (data_ v) +ₚ index)
                                            (wrap (size_ v - index))
                                            (GetAddress new_data +ₚ index +ₚ 1)
                     else
                       uninitialized_move_n (GetAddress (data_ v)) index
                                            (GetAddress new_data) ;;;
                       uninitialized_move_n (GetAddress (data_ v) +ₚ index)
                                            (wrap (size_ v - index))
                                            (GetAddress new_data +ₚ index +ₚ 1)) ;;;
                    destroy_n (GetAddress (data_ v)) (size_ v) ;;;
                    let* old := swap_data this new_data in
                    ret (tt, old)) ;;;
               let* v' := get this in
               set_size this (wrap (size_ v' + 1)) ;;;
               let* b' := begin this in
               ret (b' +ₚ index)) s0).
  { intros s0 Hthis0. unfold Emplace.
    rewrite (bind_Ok _ _ _ _ _ (begin_Ok this v s0 Hthis0)).
    rewrite (bind_Ok _ _ _ _ _ (end_Ok this v s0 Hthis0)).
    assert (Hlen1 : Z.of_nat (length es1) <= size_ v).
    { destruct Hlay as [_ _ _ Hnil | ? ? _ _ Hsz _ _].
      - apply app_eq_nil in Hnil as [-> _]. cbn. lia.
      - rewrite length_app in Hsz. lia. }
    assert (Hassert : ptr_le (buffer_ (data_ v))
                        (buffer_ (data_ v) +ₚ Z.of_nat (length es1))
                      && ptr_le (buffer_ (data_ v) +ₚ Z.of_nat (length es1))
                           (buffer_ (data_ v) +ₚ size_ v) = true).
    { destruct (buffer_ (data_ v)); cbn [ptr_add ptr_le]; [done |].
      rewrite bool_decide_eq_true_2 by done. cbn [andb].
      apply andb_true_intro. split; apply Z.leb_le; lia. }
    rewrite Hassert. cbn [assert]. erewrite bind_Ok; [| reflexivity].
    assert (Hindex : wrap (ptr_diff (buffer_ (data_ v) +ₚ Z.of_nat (length es1))
                                    (buffer_ (data_ v)))
                     = Z.of_nat (length es1)).
    { destruct (buffer_ (data_ v)) eqn:Hbuf; cbn [ptr_add ptr_diff].
      - destruct Hlay as [_ _ _ Hnil | ? ? Hbuf' _ _ _ _]; [| congruence].
        apply app_eq_nil in Hnil as [-> _]. done.
      - rewrite wrap_small by lia. lia. }
    rewrite Hindex.
    rewrite (bind_Ok _ _ _ _ _ (get_Ok this v s0 Hthis0)).
    rewrite Z.gtb_ltb. destruct (Z.ltb_spec (size_ v) (capacity_ (data_ v))); [lia |].
    reflexivity. }
  rewrite (Hprefix s Hthis). clear Hprefix. cbv zeta.
  fold n in Hn. rewrite Hn.
  destruct Hlay as [Hbuf Hcap Hsz Hnil | b rest Hbuf Hblk Hsz Hcap Hpos].
  - (* no storage yet: the new element is the only one *)
    apply app_eq_nil in Hnil as [-> ->]. cbn [length app] in *.
    assert (Hn1 : n = 1) by (unfold n; lia).
    eexists _, nd. split; [| split; [| split; [| split]]].
    + erewrite bind_Ok.
      2:{ eapply (with_new_data_Ok n _ s tt (data_ v)); [lia | exact Hfit | |].
          - fold bn nd s1. unfold GetAddress. rewrite Hbuf, Hsz.
            cbn [buffer_ nd ptr_add]. change (Z.of_nat 0) with 0.
            change (wrap (0 - 0)) with 0.
            erewrite bind_Ok.
            2:{ eapply construct_at_Ok; [apply set_block_lookup | lia |].
                rewrite length_replicate. lia. }
            unfold uninitialized_move_n, uninitialized_copy_n, destroy_n.
            change (Z.to_nat 0) with 0%nat. cbn [uninitialized_loop destroy_loop].
            erewrite bind_Ok; [| by destruct (_ && _)].
            erewrite bind_Ok; [| reflexivity].
            erewrite bind_Ok; [| by apply swap_data_Ok]. reflexivity.
          - unfold RawMemory_dtor, Deallocate. rewrite Hbuf. reflexivity. }
      erewrite bind_Ok; [| apply get_Ok; cbn [objs]; apply lookup_insert_eq].
      erewrite bind_Ok; [| apply set_size_Ok; cbn [objs]; apply lookup_insert_eq].
      erewrite bind_Ok; [| apply begin_Ok; cbn [objs]; apply lookup_insert_eq].
      cbn [data_ size_ buffer_ nd]. rewrite wrap_small by lia. reflexivity.
    + cbn [objs]. by rewrite insert_insert_eq.
    + done.
    + apply (layout_block _ _ [x] bn []); cbn [data_ size_ buffer_ capacity_ nd length];
        try done; try lia.
      cbn [blocks set_block s1]. rewrite insert_insert_eq, lookup_insert_eq.
      rewrite Hn1. reflexivity.
    + unfold bounded, sizes_ok. cbn [data_ size_ capacity_ nd]. lia.
  - (* storage in block [b], full *)
    assert (Hne : b <> bn) by congruence.
    rewrite length_app in Hsz, Hcap.
    assert (rest = []) as -> by (destruct rest; [done | simpl in Hcap; lia]).
    rewrite app_nil_r in Hblk. rewrite fmap_app in Hblk.
    set (i := length es1) in *. set (m := length es2) in *.
    assert (Hsplit : replicate (Z.to_nat n) (@None T)
                     = replicate i None ++ None :: replicate m None
                         ++ replicate (Z.to_nat n - S (i + m)) None).
    { transitivity (replicate i (@None T)
                      ++ replicate (S (m + (Z.to_nat n - S (i + m)))) None).
      - rewrite <- replicate_add. f_equal. unfold i, m in *. lia.
      - f_equal. cbn [replicate]. f_equal. apply replicate_add. }
    (* the new element *)
    set (l1 := replicate i None ++ Some x :: replicate m None
                 ++ replicate (Z.to_nat n - S (i + m)) None).
    assert (Hnew : construct_at (Ptr bn (0 + Z.of_nat i)) (Some x) s1
                   = Ok tt (set_block bn l1 s1)).
    { erewrite construct_at_Ok; [| apply set_block_lookup | lia |].
      - rewrite Hsplit. rewrite insert_middle by (rewrite length_replicate; lia).
        reflexivity.
      - rewrite length_replicate. lia. }
    (* the elements before the position *)
    destruct (transfer_Ok (negb is_nothrow_move_constructible && is_copy_constructible)
                b bn 0 0 es1 [] (Some <$> es2) [] (replicate i None)
                (Some x :: replicate m None ++ replicate (Z.to_nat n - S (i + m)) None)
                (set_block bn l1 s1))
      as (rs1 & Hrs1 & Hrun1); try done.
    { rewrite set_block_lookup_ne by done. unfold s1.
      by rewrite set_block_lookup_ne. }
    { apply set_block_lookup. }
    { by rewrite length_replicate. }
    cbn [app] in Hrun1.
    match type of Hrun1 with _ = Ok tt ?st => set (s2 := st) in * end.
    (* the elements from the position on *)
    destruct (transfer_Ok (negb is_nothrow_move_constructible && is_copy_constructible)
                b bn i (S i) es2 (Some <$> rs1) [] ((Some <$> es1) ++ [Some x])
                (replicate m None) (replicate (Z.to_nat n - S (i + m)) None) s2)
      as (rs2 & Hrs2 & Hrun2); try done.
    { unfold s2. rewrite set_block_lookup_ne by done. rewrite set_block_lookup.
      by rewrite app_nil_r. }
    { unfold s2. rewrite set_block_lookup. by rewrite <- app_assoc. }
    { by rewrite length_fmap. }
    { rewrite length_app, length_fmap. cbn. unfold i. lia. }
    { by rewrite length_replicate. }
    match type of Hrun2 with _ = Ok tt ?st => set (s3 := st) in * end.
    destruct (destroy_n_storage b (rs1 ++ rs2) [] (size_ v) s3)
      as (s4 & l4 & Hrun4 & Hobjs4 & Hblocks4).
    { unfold s3. rewrite set_block_lookup_ne by done. rewrite set_block_lookup.
      by rewrite fmap_app, <- app_assoc. }
    { rewrite length_app. unfold i, m in *. lia. }
    eexists _, nd. split; [| split; [| split; [| split]]].
    + erewrite bind_Ok.
      2:{ eapply (with_new_data_Ok n _ s tt (data_ v)); [lia | exact Hfit | |].
          - fold bn nd s1. unfold GetAddress. rewrite Hbuf.
            cbn [buffer_ nd ptr_add].
            rewrite (bind_Ok _ _ _ _ _ Hnew).
            erewrite bind_Ok.
            2:{ replace (wrap (size_ v - Z.of_nat i)) with (Z.of_nat (length es2))
                  by (rewrite wrap_small; unfold m in *; lia).
                replace (0 + Z.of_nat i + 1) with (Z.of_nat (S i)) by lia.
                replace (0 + Z.of_nat i) with (Z.of_nat i) by lia.
                fold i.
                destruct (negb is_nothrow_move_constructible && is_copy_constructible).
                - change 0 with (Z.of_nat 0) at 1 2.
                  erewrite bind_Ok; [| exact Hrun1]. exact Hrun2.
                - change 0 with (Z.of_nat 0) at 1 2.
                  erewrite bind_Ok; [| exact Hrun1]. exact Hrun2. }
            erewrite bind_Ok; [| exact Hrun4].
            erewrite bind_Ok; [| apply swap_data_Ok; by rewrite Hobjs4]. reflexivity.
          - unfold RawMemory_dtor, Deallocate. rewrite Hbuf.
            eapply operator_delete_Ok. cbn [blocks]. rewrite Hblocks4.
            apply lookup_insert_eq. }
      erewrite bind_Ok; [| apply get_Ok; cbn [objs]; apply lookup_insert_eq].
      erewrite bind_Ok; [| apply set_size_Ok; cbn [objs]; apply lookup_insert_eq].
      erewrite bind_Ok; [| apply begin_Ok; cbn [objs]; apply lookup_insert_eq].
      cbn [data_ size_ buffer_ nd]. rewrite wrap_small by lia. reflexivity.
    + cbn [objs]. rewrite insert_insert_eq. by rewrite Hobjs4.
    + done.
    + apply (layout_block _ _ _ bn (replicate (Z.to_nat n - S (i + m)) None));
        cbn [data_ size_ buffer_ capacity_ nd]; try done; try lia.
      * cbn [blocks]. rewrite Hblocks4.
        rewrite lookup_delete_ne by done. rewrite lookup_insert_ne by done.
        unfold s3. rewrite set_block_lookup.
        f_equal. rewrite fmap_app. cbn [fmap list_fmap].
        by rewrite <- !app_assoc.
      * rewrite length_app. cbn [length]. unfold i, m in *. lia.
      * rewrite length_app, length_replicate. cbn [length]. unfold i, m in *. lia.
    + unfold bounded, sizes_ok. cbn [data_ size_ capacity_ nd]. lia.
Qed.
(** ** Insert, then erase *)

Lemma Emplace_run this v s es1 es2 x :
  objs s !! this = Some v -> bounded v -> layout s v (es1 ++ es2) ->
  value_semantics ->
  (size_ v = capacity_ (data_ v) ->
   Z.max 1 (2 * capacity_ (data_ v)) * sizeof <= max_alloc) ->
  exists s' d,
    Emplace this (buffer_ (data_ v) +ₚ Z.of_nat (length es1)) (Some x) s
    = Ok (buffer_ d +ₚ Z.of_nat (length es1)) s' /\
    objs s' = <[this := mkVector d (size_ v + 1)]> (objs s) /\
    layout s' (mkVector d (size_ v + 1)) (es1 ++ x :: es2) /\
    bounded (mkVector d (size_ v + 1)).
Proof.
  intros Hthis Hb Hlay Hvs Hfit.
  destruct (decide (size_ v = capacity_ (data_ v))) as [Hfull | Hroom].
  - destruct (Emplace_full this v s es1 es2 x Hthis Hb Hlay Hvs Hfull (Hfit Hfull))
      as (s' & d & Hrun & Hobjs & _ & Hlay' & Hb').
    by exists s', d.
  - assert (Hlt : size_ v < capacity_ (data_ v)) by (destruct Hb as [[? ?] _]; lia).
    destruct (Emplace_room this v s es1 es2 x Hthis Hb Hlay Hvs Hlt)
      as (s' & Hrun & Hobjs & Hlay' & Hb').
    by exists s', (data_ v).
Qed.
(** C4. Growth from a full Vector: when size = capacity = [c], a call
    of EmplaceBack, PushBack, Emplace or Insert that returns normally
    leaves the Vector with capacity [max(1, 2c)], that is 1 from 0 and
    [2c] from [c > 0], and with one element more. *)
Theorem growth_doubles_capacity (this : vref) (v : Vector) (s : state T) (c : Z)
    (Hthis : objs s !! this = Some v)
    (Hbounded : bounded v)
    (Hsize : size_ v = c)
    (Hcapacity : capacity_ (data_ v) = c) :
  let grown (s' : state T) :=
    exists v', objs s' !! this = Some v' /\
               capacity_ (data_ v') = Z.max 1 (2 * c) /\ size_ v' = c + 1 in
  (forall args r s', EmplaceBack this args s = Ok r s' -> grown s') /\
  (forall x r s', PushBack_copy this x s = Ok r s' -> grown s') /\
  (forall x r s', PushBack_move this x s = Ok r s' -> grown s') /\
  (forall pos args r s', Emplace this pos args s = Ok r s' -> grown s') /\
  (forall pos x r s', Insert_copy this pos x s = Ok r s' -> grown s') /\
  (forall pos x r s', Insert_move this pos x s = Ok r s' -> grown s').
Proof.
  intros grown.
  assert (HB : forall args r s', EmplaceBack this args s = Ok r s' -> grown s').
  { intros args r s' Hrun.
    pose proof (EmplaceBack_capacity this v s args Hthis Hbounded) as Hh.
    unfold holds in Hh. rewrite Hrun in Hh.
    destruct Hh as (v' & Hv' & _ & Hsz & Hcap).
    rewrite Hsize, Hcapacity, Z.eqb_refl in Hcap.
    exists v'. rewrite Hsize in Hsz. auto. }
  assert (HE : forall pos args r s', Emplace this pos args s = Ok r s' -> grown s').
  { intros pos args r s' Hrun.
    pose proof (Emplace_capacity this v s pos args Hthis Hbounded) as Hh.
    unfold holds in Hh. rewrite Hrun in Hh.
    destruct Hh as (v' & Hv' & _ & Hsz & Hcap).
    rewrite Hsize, Hcapacity, Z.eqb_refl in Hcap.
    exists v'. rewrite Hsize in Hsz. auto. }
  assert (HP : forall args r s',
             (EmplaceBack this args ;;; ret tt) s = Ok r s' -> grown s').
  { intros args r s' Hrun. unfold bind in Hrun.
    destruct (EmplaceBack this args s) as [p s1 | |] eqn:Hrun1; try discriminate.
    injection Hrun as _ <-. eapply HB. exact Hrun1. }
  repeat split.
  - exact HB.
  - intros x. apply HP.
  - intros x. apply HP.
  - exact HE.
  - intros pos x. apply HE.
  - intros pos x. apply HE.
Qed.

(** C8, as the code has it.  From a Vector whose sizes are in order
    ([0 <= size <= capacity], with storage the allocator can have handed
    out), every operation that returns, normally or by an exception,
    leaves [0 <= size <= capacity].  Append, insertion, removal, Reserve,
    Resize and copy assignment leave the Vector they act on with at
    least the capacity it had.  Swap, move assignment and move
    construction exchange the storage of two Vectors: both keep
    [0 <= size <= capacity], and the capacity of either may go down.
    A constructed Vector has [0 <= size <= capacity]. *)
Theorem sizes_stay_in_order (this : vref) (v : Vector) (s : state T)
    (Hthis : objs s !! this = Some v)
    (Hbounded : bounded v) :
  let both_ok (other : vref) (s' : state T) :=
    exists a b, objs s' !! this = Some a /\ objs s' !! other = Some b /\
                sizes_ok a /\ sizes_ok b in
  let built (new : vref) (s' : state T) :=
    exists a, objs s' !! new = Some a /\ sizes_ok a in
  (forall args, kept this v s (EmplaceBack this args)) /\
  (forall x, kept this v s (PushBack_copy this x)) /\
  (forall x, kept this v s (PushBack_move this x)) /\
  (forall pos args, kept this v s (Emplace this pos args)) /\
  (forall pos x, kept this v s (Insert_copy this pos x)) /\
  (forall pos x, kept this v s (Insert_move this pos x)) /\
  (forall pos, kept this v s (Erase this pos)) /\
  kept this v s (PopBack this) /\
  (forall n, 0 <= n -> kept this v s (Resize this n)) /\
  (forall n, kept this v s (Reserve this n)) /\
  (forall rhs r, objs s !! rhs = Some r -> sizes_ok r ->
                 kept this v s (assign_copy this rhs)) /\
  (forall other o, objs s !! other = Some o -> sizes_ok o ->
     holds (Swap this other) s (fun _ => both_ok other) (fun _ => False) /\
     holds (assign_move this other) s (fun _ => both_ok other) (fun _ => False)) /\
  (forall new, new <> this ->
     holds (Vector_move new this) s (fun _ => both_ok new) (fun _ => False)) /\
  (forall new,
     holds (Vector_copy new this) s (fun _ => built new)
           (fun s' => objs s' = objs s)) /\
  (forall new n, 0 <= n ->
     holds (Vector_sized new n) s (fun _ => built new)
           (fun s' => objs s' = objs s)) /\
  (forall new, holds (Vector_default new) s (fun _ => built new) (fun _ => False)).
Proof.
  intros both_ok built. pose proof Hbounded as [[Hs0 Hs1] _].
  assert (HB : forall args, kept this v s (EmplaceBack this args)).
  { intros args. unfold kept.
    eapply holds_mono; [apply (EmplaceBack_capacity this v s args Hthis Hbounded) | |].
    - cbn beta. intros _ s' (v' & Hv' & Hok & _ & Hcap).
      exists v'. repeat split; try done; try apply Hok.
      rewrite Hcap. destruct (size_ v =? capacity_ (data_ v)); lia.
    - cbn beta. intros s' Hs'. by eapply keeps_same. }
  assert (HE : forall pos args, kept this v s (Emplace this pos args)).
  { intros pos args. unfold kept.
    eapply holds_mono; [apply (Emplace_capacity this v s pos args Hthis Hbounded) | |].
    - cbn beta. intros _ s' (v' & Hv' & Hok & _ & Hcap).
      exists v'. repeat split; try done; try apply Hok.
      rewrite Hcap. destruct (size_ v =? capacity_ (data_ v)); lia.
    - cbn beta. intros s' Hs'. by eapply keeps_same. }
  assert (HP : forall args, kept this v s (EmplaceBack this args ;;; ret tt)).
  { intros args. unfold kept. apply holds_bind.
    eapply holds_mono; [apply HB | | auto].
    cbn beta. intros _ s' Hk. apply holds_ret. exact Hk. }
  assert (HS : forall other o, objs s !! other = Some o -> sizes_ok o ->
             both_ok other (mkState (<[other := v]> (<[this := o]> (objs s)))
                                    (blocks s) (trace s))).
  { intros other o Ho Hok. unfold both_ok. cbn [objs].
    destruct (decide (this = other)) as [<- | Hne].
    - exists v, v. rewrite lookup_insert_eq. unfold sizes_ok. auto.
    - exists o, v. rewrite lookup_insert_ne by done.
      rewrite !lookup_insert_eq. unfold sizes_ok. auto. }
  split; [exact HB |].
  split; [intros x; apply HP |].
  split; [intros x; apply HP |].
  split; [exact HE |].
  split; [intros pos x; apply HE |].
  split; [intros pos x; apply HE |].
  split; [intros pos; by apply Erase_keeps |].
  split; [by apply PopBack_keeps |].
  split; [intros n Hn; by apply Resize_keeps |].
  split.
  { intros n. unfold kept.
    eapply holds_mono; [apply (Reserve_capacity this v s n Hthis Hbounded) | |].
    - cbn beta. intros _ s' (v' & Hv' & Hok & _ & Hcap).
      exists v'. repeat split; try done; try apply Hok. lia.
    - cbn beta. intros s' Hs'. by eapply keeps_same. }
  split.
  { intros rhs r Hr Hrok. unfold kept.
    eapply holds_mono; [apply (assign_copy_sizes this rhs v r s Hthis Hr Hbounded Hrok) | |].
    - cbn beta. intros _ s' (v' & Hv' & Hok & Hcap).
      exists v'. rewrite Hv', lookup_insert_eq. auto.
    - cbn beta. intros s' Hs'. by eapply keeps_same. }
  split.
  { intros other o Ho Hok. split.
    - eapply holds_Ok; [by apply (Swap_Ok this other v o) | by apply HS].
    - unfold assign_move. destruct (decide (this = other)) as [<- | Hne].
      + rewrite bool_decide_eq_true_2 by done. apply holds_ret.
        exists v, v. unfold sizes_ok. auto.
      + rewrite bool_decide_eq_false_2 by done.
        eapply holds_Ok; [by apply (Swap_Ok this other v o) | by apply HS]. }
  split.
  { intros new Hnew.
    eapply holds_Ok; [apply (move_construction_run new this v s Hthis Hnew) |].
    exists (mkVector (mkRawMemory nullptr 0) 0), v. cbn [objs].
    rewrite lookup_insert_eq. rewrite lookup_insert_ne by done.
    rewrite lookup_insert_eq.
    unfold sizes_ok. cbn. repeat split; try done; lia. }
  split.
  { intros new.
    eapply holds_mono; [apply (Vector_copy_sizes new this v s Hthis) | | auto].
    cbn beta. intros _ s' (d & Hd & Hs'). exists (mkVector d (size_ v)).
    rewrite Hs', lookup_insert_eq. unfold sizes_ok. cbn. split; [done | lia]. }
  split.
  { intros new n Hn.
    eapply holds_mono; [apply (Vector_sized_sizes new s n) | | auto].
    cbn beta. intros _ s' (d & Hd & Hs'). exists (mkVector d n).
    rewrite Hs', lookup_insert_eq. unfold sizes_ok. cbn. split; [done | lia]. }
  intros new. unfold Vector_default. apply holds_put.
  exists (mkVector RawMemory_default 0). cbn [objs]. rewrite lookup_insert_eq.
  unfold sizes_ok. cbn. split; [done | lia].
Qed.

(** C10. Self-assignment is a no-op: the copy assignment [v = v] and the
    move assignment [v = std::move(v)] return normally and leave the
    whole state, hence the size, the capacity and the elements of [v],
    as it was. *)
Theorem self_assignment_is_noop (this : vref) (s : state T) :
  assign_copy this this s = Ok tt s /\ assign_move this this s = Ok tt s.
Proof.
  unfold assign_copy, assign_move.
  rewrite bool_decide_eq_true_2 by reflexivity.
  split; reflexivity.
Qed.

(** C9. Move construction from the Vector at [other] into a new object
    at [this] returns normally in every state.  The new object is the
    source as it was: same storage pointer, same capacity, same size,
    hence the same elements.  The source is left with no storage,
    capacity 0 and size 0.  No block of storage changes and no
    destructor or deallocation runs. *)
Theorem move_construction_transfers (this other : vref) (v : Vector) (s : state T)
    (Hother : objs s !! other = Some v)
    (Hnew : this <> other) :
  let s' := mkState (<[other := mkVector (mkRawMemory nullptr 0) 0]>
                       (<[this := v]> (objs s)))
                    (blocks s) (trace s) in
  Vector_move this other s = Ok tt s' /\
  objs s' !! this = Some v /\
  objs s' !! other = Some (mkVector (mkRawMemory nullptr 0) 0) /\
  elements s' v = elements s v /\
  elements s' (mkVector (mkRawMemory nullptr 0) 0) = Some [].
Proof.
  intros s'. split; [by apply move_construction_run |].
  split; [unfold s'; cbn; by simplify_map_eq |].
  split; [unfold s'; cbn; by simplify_map_eq |].
  split; reflexivity.
Qed.

(** * Further properties of the container *)

(** ** Well-formedness from the layout *)

Lemma forallb_is_Some_fmap (es : list T) :
  forallb (fun x : option T => bool_decide (is_Some x)) (Some <$> es) = true.
Proof.
  induction es as [|x es IH]; [done |]. cbn [fmap list_fmap forallb].
  apply andb_true_intro. split; [apply bool_decide_eq_true_2; eauto | exact IH].
Qed.

Lemma layout_well_formed s v es :
  layout s v es -> capacity_ (data_ v) * sizeof <= max_alloc ->
  well_formed s v = true.
Proof.
  intros [Hbuf Hcap Hsz _ | b rest Hbuf Hblk Hsz Hcap Hpos] Hfit; unfold well_formed;
    rewrite Hbuf.
  - rewrite Hsz, Hcap in *. rewrite Z.mul_0_l in *.
    destruct (Z.leb_spec 0 max_alloc); [done | lia].
  - rewrite Hblk.
    destruct (Z.leb_spec 0 (size_ v)); [| lia].
    destruct (Z.leb_spec (size_ v) (capacity_ (data_ v))); [| lia].
    destruct (Z.leb_spec (capacity_ (data_ v) * sizeof) max_alloc); [| lia].
    destruct (Z.ltb_spec 0 (capacity_ (data_ v))); [| lia].
    rewrite Z.eqb_refl. cbn [andb].
    apply andb_true_intro. split.
    + apply bool_decide_eq_true_2. rewrite length_app, length_fmap. lia.
    + rewrite <- Hsz, Nat2Z.id.
      rewrite take_app_length' by (by rewrite length_fmap).
      apply forallb_is_Some_fmap.
Qed.

Lemma layout_length s v es : layout s v es -> Z.of_nat (length es) = size_ v.
Proof. intros [_ _ Hsz -> | ? ? _ _ Hsz _ _]; [by rewrite Hsz | done]. Qed.

Lemma well_formed_elements s v :
  well_formed s v = true ->
  exists es, layout s v es /\ elements s v = Some es.
Proof.
  intros Hwf. destruct (well_formed_layout s v Hwf) as (_ & es & Hlay).
  exists es. split; [done | by apply layout_elements].
Qed.

(** ** EmplaceBack and PushBack *)

(** With room left, the new element is constructed in place: one slot
    of the Vector's own block changes, and nothing else. *)
Lemma EmplaceBack_room this v s es b rest x :
  objs s !! this = Some v -> buffer_ (data_ v) = Ptr b 0 ->
  blocks s !! b = Some ((Some <$> es) ++ rest) ->
  Z.of_nat (length es) = size_ v ->
  Z.of_nat (length es + length rest) = capacity_ (data_ v) ->
  size_ v < capacity_ (data_ v) -> capacity_ (data_ v) < 2 ^ 63 ->
  EmplaceBack this (Some x) s
  = Ok (Ptr b (size_ v))
       (mkState (<[this := mkVector (data_ v) (size_ v + 1)]> (objs s))
                (<[b := (Some <$> es) ++ Some x :: drop 1 rest]> (blocks s))
                (trace s)).
Proof.
  intros Hthis Hbuf Hblk Hsz Hcap Hroom Hsmall.
  unfold EmplaceBack. rewrite (bind_Ok _ _ _ _ _ (get_Ok this v s Hthis)).
  destruct (Z.eqb_spec (size_ v) (capacity_ (data_ v))) as [? | _]; [lia |].
  cbn [negb]. unfold RawMemory_plus.
  destruct (Z.leb_spec (size_ v) (capacity_ (data_ v))); [| lia].
  erewrite bind_Ok; [| reflexivity]. rewrite Hbuf. cbn [ptr_add]. rewrite Z.add_0_l.
  destruct rest as [|r0 rest]; [cbn [length] in Hcap; lia |].
  erewrite bind_Ok.
  2:{ apply (construct_at_Ok b _ _ x s Hblk); [lia |].
      rewrite length_app, length_fmap. cbn [length]. lia. }
  assert (Hidx : Z.to_nat (size_ v) = length (Some <$> es))
    by (rewrite length_fmap; lia).
  rewrite Hidx, insert_middle by done.
  erewrite bind_Ok; [| apply (set_size_Ok this v); by rewrite set_block_objs].
  rewrite wrap_small by lia. cbn [drop]. rewrite drop_0. reflexivity.
Qed.

(** Without room, and with storage to be had: the elements go over to a
    new block of [max(1, 2 * capacity)] slots, the new element behind
    them, and the old block is released. *)
Lemma EmplaceBack_full this v s es x :
  objs s !! this = Some v -> bounded v -> layout s v es ->
  value_semantics -> size_ v = capacity_ (data_ v) ->
  Z.max 1 (2 * capacity_ (data_ v)) * sizeof <= max_alloc ->
  let bn := fresh (dom (blocks s)) in
  let d := mkRawMemory (Ptr bn 0) (Z.max 1 (2 * capacity_ (data_ v))) in
  exists s',
    EmplaceBack this (Some x) s = Ok (Ptr bn (size_ v)) s' /\
    objs s' = <[this := mkVector d (size_ v + 1)]> (objs s) /\
    layout s' (mkVector d (size_ v + 1)) (es ++ [x]) /\
    (forall b', Ptr b' 0 <> buffer_ (data_ v) -> b' <> bn ->
                blocks s' !! b' = blocks s !! b') /\
    (forall b', Ptr b' 0 = buffer_ (data_ v) -> blocks s' !! b' = None).
Proof.
  intros Hthis Hbounded Hlay Hvs Hfull Hfit bn d.
  destruct (growth_request v Hbounded Hfull) as (Hn & Hlt & Hn0 & Hnw).
  pose proof (bounded_capacity v Hbounded) as Hsmall.
  unfold EmplaceBack. rewrite (bind_Ok _ _ _ _ _ (get_Ok this v s Hthis)).
  destruct (Z.eqb_spec (size_ v) (capacity_ (data_ v))) as [_ | ?]; [| lia].
  cbn [negb].
  set (n := if size_ v =? 0 then 1 else wrap (size_ v * 2)) in *.
  assert (Hd : d = mkRawMemory (Ptr bn 0) n) by (unfold d; by rewrite Hn).
  clearbody n. subst n. clear Hd.
  set (n := Z.max 1 (2 * capacity_ (data_ v))) in *.
  set (s1 := set_block bn (replicate (Z.to_nat n) None) s).
  assert (Hbn : blocks s !! bn = None) by apply fresh_block.
  assert (Hplus : RawMemory_plus d (size_ v) s1 = Ok (Ptr bn (size_ v)) s1).
  { unfold RawMemory_plus. cbn [capacity_ buffer_ d ptr_add].
    destruct (Z.leb_spec (size_ v) n); [| lia]. reflexivity. }
  destruct Hlay as [Hbuf Hcap Hsz -> | b rest Hbuf Hb Hsz Hcap Hpos].
  - (* no storage yet *)
    assert (Hn1 : n = 1) by lia.
    eexists. split; [| split; [| split; [| split]]].
    + eapply (with_new_data_Ok n _ s _ (data_ v)); [done | done | |].
      * fold bn d s1. rewrite (bind_Ok _ _ _ _ _ Hplus).
        erewrite bind_Ok.
        2:{ apply (construct_at_Ok bn _ (replicate (Z.to_nat n) None) x s1);
              [apply set_block_lookup | lia | rewrite length_replicate; lia]. }
        unfold GetAddress. rewrite Hbuf, Hsz.
        unfold uninitialized_move_n, uninitialized_copy_n, destroy_n.
        change (Z.to_nat 0) with 0%nat. cbn [uninitialized_loop destroy_loop].
        erewrite bind_Ok; [| by destruct (_ && _)].
        erewrite bind_Ok; [| reflexivity].
        erewrite bind_Ok; [| apply swap_data_Ok; by rewrite set_block_objs].
        erewrite bind_Ok; [| apply (set_size_Ok this (mkVector d (size_ v)));
                             cbn [objs]; apply lookup_insert_eq].
        rewrite Hsz. reflexivity.
      * unfold RawMemory_dtor, Deallocate. rewrite Hbuf. reflexivity.
    + cbn [objs set_block s1 data_]. rewrite insert_insert_eq.
      rewrite wrap_small by lia. by rewrite Hsz.
    + apply (layout_block _ _ [x] bn []);
        cbn [data_ size_ buffer_ capacity_ d length app]; try done; try lia.
      cbn [blocks set_block s1]. rewrite insert_insert_eq, lookup_insert_eq.
      rewrite Hn1. reflexivity.
    + intros b' _ Hne. cbn [blocks set_block s1]. rewrite insert_insert_eq.
      by rewrite lookup_insert_ne.
    + intros b' Hb'. rewrite Hbuf in Hb'. discriminate.
  - (* storage in block [b] *)
    assert (Hne : b <> bn) by congruence.
    assert (Hrest : rest = []).
    { destruct rest; [done |]. cbn [length] in Hcap. lia. }
    subst rest.
    assert (Hlen : (length es < Z.to_nat n)%nat) by lia.
    set (tail := replicate (Z.to_nat n - length es - 1) (@None T)).
    assert (Hsplit : replicate (Z.to_nat n) (@None T)
                     = replicate (length es) None ++ None :: tail).
    { unfold tail. rewrite (cons_middle None), app_assoc.
      change [@None T] with (replicate 1 (@None T)).
      rewrite <- !replicate_add. f_equal. lia. }
    set (s2 := set_block bn (replicate (length es) None ++ Some x :: tail) s).
    assert (Hcons : construct_at (Ptr bn (size_ v)) (Some x) s1 = Ok tt s2).
    { erewrite (construct_at_Ok bn _ (replicate (Z.to_nat n) None) x s1);
        [| apply set_block_lookup | lia | rewrite length_replicate; lia].
      unfold s1, s2. rewrite set_block_set_block. f_equal.
      rewrite Hsplit.
      assert (Hidx : Z.to_nat (size_ v) = length (replicate (length es) (@None T)))
        by (rewrite length_replicate; lia).
      by rewrite Hidx, insert_middle by done. }
    destruct (transfer_Ok
                (negb is_nothrow_move_constructible && is_copy_constructible)
                b bn 0 0 es [] [] [] (replicate (length es) None)
                (Some x :: tail) s2)
      as (rs & Hrs & Hrun); try done.
    { unfold s2. by rewrite set_block_lookup_ne. }
    { unfold s2. by rewrite set_block_lookup. }
    { by rewrite length_replicate. }
    cbn [app] in Hrun. rewrite !app_nil_r, Hsz in Hrun.
    set (s3 := set_block bn ((Some <$> es) ++ Some x :: tail)
                 (set_block b (Some <$> rs) s2)) in *.
    destruct (destroy_n_storage b rs [] (size_ v) s3)
      as (s4 & l4 & Hrun4 & Hobjs4 & Hblocks4).
    { unfold s3. rewrite set_block_lookup_ne by done. rewrite set_block_lookup.
      by rewrite app_nil_r. }
    { lia. }
    eexists. split; [| split; [| split; [| split]]].
    + eapply (with_new_data_Ok n _ s _ (data_ v)); [lia | done | |].
      * fold bn d s1. rewrite (bind_Ok _ _ _ _ _ Hplus).
        rewrite (bind_Ok _ _ _ _ _ Hcons).
        unfold GetAddress. rewrite Hbuf. cbn [buffer_ d].
        erewrite bind_Ok.
        2:{ destruct (_ && _); [apply catch_rethrow_Ok |]; exact Hrun. }
        erewrite bind_Ok; [| exact Hrun4].
        erewrite bind_Ok; [| apply swap_data_Ok; by rewrite Hobjs4].
        erewrite bind_Ok; [| apply (set_size_Ok this (mkVector d (size_ v)));
                             cbn [objs]; apply lookup_insert_eq].
        reflexivity.
      * unfold RawMemory_dtor, Deallocate. rewrite Hbuf.
        eapply operator_delete_Ok. cbn [blocks]. rewrite Hblocks4.
        apply lookup_insert_eq.
    + cbn [objs data_]. rewrite insert_insert_eq, Hobjs4.
      rewrite wrap_small by lia. done.
    + apply (layout_block _ _ (es ++ [x]) bn tail);
        cbn [data_ size_ buffer_ capacity_ d]; try done.
      * cbn [blocks]. rewrite Hblocks4.
        rewrite lookup_delete_ne by done. rewrite lookup_insert_ne by done.
        unfold s3. rewrite set_block_lookup. f_equal.
        rewrite fmap_app, <- app_assoc. reflexivity.
      * rewrite length_app. cbn [length]. lia.
      * rewrite length_app. unfold tail. rewrite length_replicate. cbn [length]. lia.
    + intros b' Hb' Hne'. rewrite Hbuf in Hb'.
      assert (b' <> b) by congruence.
      cbn [blocks]. rewrite Hblocks4.
      rewrite lookup_delete_ne by done. rewrite lookup_insert_ne by done.
      unfold s3, s2. cbn [blocks set_block]. by rewrite !lookup_insert_ne.
    + intros b' Hb'. rewrite Hbuf in Hb'. injection Hb' as ->.
      cbn [blocks]. apply lookup_delete_eq.
Qed.

(** A well-formed Vector with room left has its storage in one block. *)
Lemma well_formed_room s v es :
  well_formed s v = true -> elements s v = Some es ->
  size_ v < capacity_ (data_ v) ->
  bounded v /\
  exists b rest,
    buffer_ (data_ v) = Ptr b 0 /\
    blocks s !! b = Some ((Some <$> es) ++ rest) /\
    Z.of_nat (length es) = size_ v /\
    Z.of_nat (length es + length rest) = capacity_ (data_ v).
Proof.
  intros Hwf Hes Hroom.
  destruct (well_formed_layout s v Hwf) as (Hbounded & es' & Hlay).
  rewrite (layout_elements s v es' Hlay) in Hes. injection Hes as ->.
  split; [done |].
  destruct Hlay as [Hbuf Hcap Hsz _ | b rest Hbuf Hb Hsz Hcap Hpos]; [lia |].
  by exists b, rest.
Qed.

Lemma well_formed_layout_of s v es :
  well_formed s v = true -> elements s v = Some es -> bounded v /\ layout s v es.
Proof.
  intros Hwf Hes.
  destruct (well_formed_layout s v Hwf) as (Hbounded & es' & Hlay).
  rewrite (layout_elements s v es' Hlay) in Hes. by injection Hes as ->.
Qed.

(** Either way, the new element ends up behind the old ones. *)
Lemma EmplaceBack_run this v s es x :
  objs s !! this = Some v -> bounded v -> layout s v es ->
  value_semantics ->
  (size_ v = capacity_ (data_ v) ->
   Z.max 1 (2 * capacity_ (data_ v)) * sizeof <= max_alloc) ->
  exists p s' d,
    EmplaceBack this (Some x) s = Ok p s' /\
    objs s' = <[this := mkVector d (size_ v + 1)]> (objs s) /\
    layout s' (mkVector d (size_ v + 1)) (es ++ [x]) /\
    bounded (mkVector d (size_ v + 1)) /\
    capacity_ (data_ v) <= capacity_ d.
Proof.
  intros Hthis Hbounded Hlay Hvs Hfit.
  pose proof (bounded_capacity v Hbounded) as Hsmall.
  destruct (Z.eq_dec (size_ v) (capacity_ (data_ v))) as [Hfull | Hne].
  - destruct (EmplaceBack_full this v s es x Hthis Hbounded Hlay Hvs Hfull (Hfit Hfull))
      as (s' & Hrun & Hobjs & Hlay' & _).
    eexists _, s', _. split; [exact Hrun |]. split; [exact Hobjs |].
    split; [exact Hlay' |].
    destruct Hbounded as [[? ?] ?].
    split; [split; [split |] |]; cbn [data_ size_ capacity_]; [lia | lia | by apply Hfit | lia].
  - destruct Hbounded as [[Hs0 Hs1] Hb].
    destruct Hlay as [Hbuf Hcap Hsz _ | b rest Hbuf Hblk Hsz Hcap Hpos]; [lia |].
    pose proof (EmplaceBack_room this v s es b rest x Hthis Hbuf Hblk Hsz Hcap) as Hrun.
    destruct rest as [|r0 rest]; [cbn [length] in Hcap; lia |].
    cbn [drop] in Hrun. rewrite drop_0 in Hrun.
    eexists _, _, (data_ v). split; [apply Hrun; lia |]. split; [done |]. split.
    + apply (layout_block _ _ _ b rest); cbn [data_ size_]; try done.
      * cbn [blocks]. rewrite lookup_insert_eq. f_equal.
        rewrite fmap_app, <- app_assoc. reflexivity.
      * rewrite length_app. cbn [length]. lia.
      * rewrite length_app. cbn [length] in *. lia.
    + split; [split; [split |] |]; cbn [data_ size_]; [lia | lia | done | lia].
Qed.

(** X1. EmplaceBack with room left ([size < capacity]) constructs the new
    element in the first free slot of the storage the Vector has.  It
    returns the address of that slot, which then holds the new value;
    the storage pointer and the capacity are as before, the elements
    are the old ones followed by the new one, no destructor and no
    deallocation runs, and no other block of storage changes. *)
Theorem EmplaceBack_with_room_constructs_in_place
    (this : vref) (v : Vector) (s : state T) (es : list T) (x : T)
    (Hthis : objs s !! this = Some v)
    (Hwf : well_formed s v = true)
    (Hes : elements s v = Some es)
    (Hroom : size_ v < capacity_ (data_ v)) :
  let v' := mkVector (data_ v) (size_ v + 1) in
  let p := buffer_ (data_ v) +ₚ size_ v in
  exists s',
    EmplaceBack this (Some x) s = Ok p s' /\
    objs s' = <[this := v']> (objs s) /\
    well_formed s' v' = true /\
    elements s' v' = Some (es ++ [x]) /\
    read p s' = Ok x s' /\
    trace s' = trace s /\
    (forall b', Ptr b' 0 <> buffer_ (data_ v) -> blocks s' !! b' = blocks s !! b').
Proof.
  intros v' p.
  destruct (well_formed_room s v es Hwf Hes Hroom)
    as (Hbounded & b & rest & Hbuf & Hblk & Hsz & Hcap).
  pose proof (bounded_capacity v Hbounded) as Hsmall.
  pose proof (EmplaceBack_room this v s es b rest x Hthis Hbuf Hblk Hsz Hcap Hroom Hsmall)
    as Hrun.
  destruct rest as [|r0 rest]; [cbn [length] in Hcap; lia |]. cbn [drop] in Hrun.
  rewrite drop_0 in Hrun.
  match type of Hrun with _ = Ok _ ?st => set (s' := st) in * end.
  assert (Hlay : layout s' v' (es ++ [x])).
  { apply (layout_block _ _ _ b rest); cbn [v' data_ size_]; try done.
    - cbn [s' blocks]. rewrite lookup_insert_eq. f_equal.
      rewrite fmap_app, <- app_assoc. reflexivity.
    - rewrite length_app. cbn [length]. lia.
    - rewrite length_app. cbn [length] in *. lia.
    - lia. }
  exists s'. unfold p. rewrite Hbuf. cbn [ptr_add]. rewrite Z.add_0_l.
  split; [exact Hrun |]. split; [done |].
  split; [| split; [| split; [| split]]].
  - apply (layout_well_formed _ _ _ Hlay). apply Hbounded.
  - by apply layout_elements.
  - apply (read_Ok b _ ((Some <$> es) ++ Some x :: rest)); [| lia |].
    + cbn [s' blocks]. apply lookup_insert_eq.
    + apply list_lookup_middle. rewrite length_fmap. lia.
  - reflexivity.
  - intros b' Hb'. cbn [s' blocks]. apply lookup_insert_ne. congruence.
Qed.

(** X2. EmplaceBack with room left, when the constructor of the new element
    throws: the exception leaves the call, and the state is the one
    before the call; nothing was written. *)
Theorem EmplaceBack_with_room_constructor_throws
    (this : vref) (v : Vector) (s : state T)
    (Hthis : objs s !! this = Some v)
    (Hwf : well_formed s v = true)
    (Hroom : size_ v < capacity_ (data_ v)) :
  EmplaceBack this None s = Throw element_exn s.
Proof.
  destruct (well_formed_elements s v Hwf) as (es & _ & Hes).
  destruct (well_formed_room s v es Hwf Hes Hroom)
    as (Hbounded & b & rest & Hbuf & Hblk & Hsz & Hcap).
  unfold EmplaceBack. rewrite (bind_Ok _ _ _ _ _ (get_Ok this v s Hthis)).
  destruct (Z.eqb_spec (size_ v) (capacity_ (data_ v))) as [? | _]; [lia |].
  cbn [negb]. unfold RawMemory_plus.
  destruct (Z.leb_spec (size_ v) (capacity_ (data_ v))); [| lia].
  erewrite bind_Ok; [| reflexivity]. rewrite Hbuf. cbn [ptr_add]. rewrite Z.add_0_l.
  apply bind_Throw. apply (construct_at_Throw b _ _ s Hblk); [lia |].
  rewrite length_app, length_fmap. lia.
Qed.

(** X3. EmplaceBack on a full Vector ([size = capacity]), for an element
    type with value semantics and a request the allocator can meet:
    the call returns the address of the new element in new storage of
    [max(1, 2 * capacity)] slots; the elements are the old ones followed
    by the new one; the old block of storage is released, so every
    address into it is dangling; every other block is as it was. *)
Theorem EmplaceBack_full_moves_to_new_storage
    (this : vref) (v : Vector) (s : state T) (es : list T) (x : T)
    (Hthis : objs s !! this = Some v)
    (Hwf : well_formed s v = true)
    (Hes : elements s v = Some es)
    (Hvalues : value_semantics)
    (Hfull : size_ v = capacity_ (data_ v))
    (Hfit : Z.max 1 (2 * capacity_ (data_ v)) * sizeof <= max_alloc) :
  exists s' v',
    EmplaceBack this (Some x) s = Ok (buffer_ (data_ v') +ₚ size_ v) s' /\
    objs s' = <[this := v']> (objs s) /\
    size_ v' = size_ v + 1 /\
    capacity_ (data_ v') = Z.max 1 (2 * capacity_ (data_ v)) /\
    well_formed s' v' = true /\
    elements s' v' = Some (es ++ [x]) /\
    read (buffer_ (data_ v') +ₚ size_ v) s' = Ok x s' /\
    buffer_ (data_ v') <> buffer_ (data_ v) /\
    (forall b', Ptr b' 0 = buffer_ (data_ v) -> blocks s' !! b' = None) /\
    (forall b', Ptr b' 0 <> buffer_ (data_ v) -> Ptr b' 0 <> buffer_ (data_ v') ->
                blocks s' !! b' = blocks s !! b').
Proof.
  destruct (well_formed_layout_of s v es Hwf Hes) as (Hbounded & Hlay).
  destruct (EmplaceBack_full this v s es x Hthis Hbounded Hlay Hvalues Hfull Hfit)
    as (s' & Hrun & Hobjs & Hlay' & Hother & Hold).
  set (bn := fresh (dom (blocks s))) in *.
  set (d := mkRawMemory (Ptr bn 0) (Z.max 1 (2 * capacity_ (data_ v)))) in *.
  pose proof (layout_length s v es Hlay) as Hlen.
  exists s', (mkVector d (size_ v + 1)). cbn [data_ size_ buffer_ capacity_ d ptr_add].
  rewrite Z.add_0_l.
  split; [done |]. split; [done |]. split; [done |]. split; [done |].
  split; [| split; [| split; [| split; [| split]]]].
  - apply (layout_well_formed _ _ _ Hlay'). done.
  - by apply layout_elements.
  - destruct Hlay' as [Hbuf _ _ _ | b rest Hbuf Hb Hsz Hcap Hpos];
      cbn [data_ buffer_ d] in Hbuf; [discriminate |].
    injection Hbuf as <-.
    apply (read_Ok bn _ _ x s' Hb); [lia |].
    rewrite fmap_app, <- app_assoc. cbn [fmap list_fmap app].
    apply list_lookup_middle. rewrite length_fmap. lia.
  - intros Heq. pose proof (fresh_block s) as Hfresh. fold bn in Hfresh.
    destruct Hlay as [Hbuf _ _ _ | b rest Hbuf Hb _ _ _]; rewrite Hbuf in Heq;
      [discriminate |].
    injection Heq as ->. congruence.
  - exact Hold.
  - intros b' Hb' Hnew. apply Hother; [done | congruence].
Qed.

(** X4. PushBack of a value, by copy or by move, for an element type with
    value semantics: with room, or with storage to be had for the
    growth, the call returns normally and the elements are the old ones
    followed by the value. *)
Theorem PushBack_appends
    (this : vref) (v : Vector) (s : state T) (es : list T) (x : T)
    (Hthis : objs s !! this = Some v)
    (Hwf : well_formed s v = true)
    (Hes : elements s v = Some es)
    (Hvalues : value_semantics)
    (Hfit : size_ v = capacity_ (data_ v) ->
            Z.max 1 (2 * capacity_ (data_ v)) * sizeof <= max_alloc) :
  let appended (push : M T unit) :=
    exists s' v',
      push s = Ok tt s' /\
      objs s' = <[this := v']> (objs s) /\
      size_ v' = size_ v + 1 /\
      well_formed s' v' = true /\
      elements s' v' = Some (es ++ [x]) in
  appended (PushBack_copy this x) /\ appended (PushBack_move this x).
Proof.
  intros appended.
  assert (Hemplace : exists p s' v',
            EmplaceBack this (Some x) s = Ok p s' /\
            objs s' = <[this := v']> (objs s) /\
            size_ v' = size_ v + 1 /\
            well_formed s' v' = true /\
            elements s' v' = Some (es ++ [x])).
  { destruct (well_formed_layout_of s v es Hwf Hes) as (Hbounded & Hlay).
    destruct (EmplaceBack_run this v s es x Hthis Hbounded Hlay Hvalues Hfit)
      as (p & s' & d & Hrun & Hobjs & Hlay' & Hbounded' & _).
    exists p, s', (mkVector d (size_ v + 1)).
    split; [done |]. split; [done |]. split; [done |].
    split; [| by apply layout_elements].
    apply (layout_well_formed _ _ _ Hlay'). apply Hbounded'. }
  destruct Hemplace as (p & s' & v' & Hrun & Hrest).
  destruct Hvalues as (Hcopy & Hmove & _).
  split; exists s', v'; (split; [| exact Hrest]).
  - unfold PushBack_copy. rewrite Hcopy. by rewrite (bind_Ok _ _ _ _ _ Hrun).
  - unfold PushBack_move. destruct (Hmove x) as [r ->]. cbn [fmap option_fmap option_map fst].
    by rewrite (bind_Ok _ _ _ _ _ Hrun).
Qed.

(** ** When growth fails *)

Lemma delete_insert_fresh {A} (m : gmap block A) b l l' :
  m !! b = None -> delete b (<[b := l]> (<[b := l']> m)) = m.
Proof.
  intros Hb. rewrite insert_insert_eq. by apply delete_insert_id.
Qed.

(** X5. EmplaceBack on a full Vector whose element type is copied into the
    new storage (its move constructor may throw, and it can be copied),
    when the copy constructor throws on one of the elements: the
    exception leaves the call; the copies made so far and the new
    element are destroyed and the new storage is released; every Vector
    object and every block of storage is as it was before the call. *)
Theorem EmplaceBack_copy_failure_rolls_back
    (this : vref) (v : Vector) (s : state T) (es : list T) (x : T)
    (Hthis : objs s !! this = Some v)
    (Hwf : well_formed s v = true)
    (Hes : elements s v = Some es)
    (Hmove : is_nothrow_move_constructible = false)
    (Hcopy : is_copy_constructible = true)
    (Hfull : size_ v = capacity_ (data_ v))
    (Hfit : Z.max 1 (2 * capacity_ (data_ v)) * sizeof <= max_alloc)
    (Hthrows : mapM copy_construct es = None) :
  exists s',
    EmplaceBack this (Some x) s = Throw element_exn s' /\
    objs s' = objs s /\ blocks s' = blocks s /\
    elements s' v = Some es /\
    In (EvDestroy (Ptr (fresh (dom (blocks s))) (size_ v)) (Some x)) (trace s') /\
    head (trace s') = Some (EvDelete (Ptr (fresh (dom (blocks s))) 0)).
Proof.
  destruct (well_formed_layout_of s v es Hwf Hes) as (Hbounded & Hlay).
  destruct (growth_request v Hbounded Hfull) as (Hn & Hlt & Hn0 & Hnw).
  pose proof (bounded_capacity v Hbounded) as Hsmall.
  unfold EmplaceBack. rewrite (bind_Ok _ _ _ _ _ (get_Ok this v s Hthis)).
  destruct (Z.eqb_spec (size_ v) (capacity_ (data_ v))) as [_ | ?]; [| lia].
  cbn [negb]. rewrite Hmove, Hcopy. cbn [negb andb].
  set (n := if size_ v =? 0 then 1 else wrap (size_ v * 2)) in *.
  clearbody n. subst n.
  set (n := Z.max 1 (2 * capacity_ (data_ v))) in *.
  set (bn := fresh (dom (blocks s))).
  set (d := mkRawMemory (Ptr bn 0) n).
  set (s1 := set_block bn (replicate (Z.to_nat n) None) s).
  assert (Hbn : blocks s !! bn = None) by apply fresh_block.
  assert (Hplus : RawMemory_plus d (size_ v) s1 = Ok (Ptr bn (size_ v)) s1).
  { unfold RawMemory_plus. cbn [capacity_ buffer_ d ptr_add].
    destruct (Z.leb_spec (size_ v) n); [| lia]. reflexivity. }
  destruct Hlay as [Hbuf Hcap Hsz -> | b rest Hbuf Hb Hsz Hcap Hpos]; [discriminate |].
  assert (Hne : b <> bn) by congruence.
  assert (Hrest : rest = []).
  { destruct rest; [done |]. cbn [length] in Hcap. lia. }
  subst rest.
  assert (Hlen : (length es < Z.to_nat n)%nat) by lia.
  set (tail := replicate (Z.to_nat n - length es - 1) (@None T)).
  assert (Hsplit : replicate (Z.to_nat n) (@None T)
                   = replicate (length es) None ++ None :: tail).
  { unfold tail. rewrite (cons_middle None), app_assoc.
    change [@None T] with (replicate 1 (@None T)).
    rewrite <- !replicate_add. f_equal. lia. }
  set (s2 := set_block bn (replicate (length es) None ++ Some x :: tail) s).
  assert (Hcons : construct_at (Ptr bn (size_ v)) (Some x) s1 = Ok tt s2).
  { erewrite (construct_at_Ok bn _ (replicate (Z.to_nat n) None) x s1);
      [| apply set_block_lookup | lia | rewrite length_replicate; lia].
    unfold s1, s2. rewrite set_block_set_block. f_equal.
    rewrite Hsplit.
    assert (Hidx : Z.to_nat (size_ v) = length (replicate (length es) (@None T)))
      by (rewrite length_replicate; lia).
    rewrite Hidx, insert_middle by done. done. }
  destruct (uninitialized_copy_loop_Throw b bn 0 0 es [] [] [] []
              (replicate (length es) None) (Some x :: tail) s2)
    as (s3 & l3 & Hrun3 & Hobjs3 & Hblocks3 & Hlen3); try done.
  { unfold s2. by rewrite set_block_lookup_ne. }
  { unfold s2. by rewrite set_block_lookup. }
  { by rewrite length_replicate. }
  cbn [length] in Hlen3. rewrite length_replicate, Nat.add_0_l in Hlen3.
  set (s4 := mkState (objs s3) (<[bn := l3 ++ None :: tail]> (blocks s3))
                     (EvDestroy (Ptr bn (size_ v)) (Some x) :: trace s3)).
  assert (Hrun4 : destroy_n (Ptr bn 0 +ₚ size_ v) 1 s3 = Ok tt s4).
  { unfold destroy_n. change (Z.to_nat 1) with 1%nat. cbn [destroy_loop ptr_add].
    rewrite Z.add_0_l.
    assert (Hb3 : blocks s3 !! bn = Some (l3 ++ Some x :: tail))
      by (rewrite Hblocks3; apply lookup_insert_eq).
    assert (Hidx : Z.to_nat (size_ v) = length l3) by lia.
    unfold bind, destroy_at, ret. rewrite (slot_at_block bn _ _ s3 Hb3) by lia.
    rewrite Hidx, list_lookup_middle by done.
    rewrite (set_slot_block bn _ _ _ s3 Hb3). unfold log, set_block. cbn.
    rewrite Hidx, insert_middle by done. reflexivity. }
  eexists. split.
  - apply (with_new_data_Throw n _ s element_exn s4); [lia | done | |].
    + fold bn d s1. rewrite (bind_Ok _ _ _ _ _ Hplus).
      rewrite (bind_Ok _ _ _ _ _ Hcons).
      apply bind_Throw.
      eapply catch_rethrow_Throw; [| exact Hrun4].
      unfold uninitialized_copy_n, GetAddress. rewrite Hbuf. cbn [buffer_ d].
      replace (Z.to_nat (size_ v)) with (length es) by lia.
      exact Hrun3.
    + eexists. cbn [s4 blocks]. apply lookup_insert_eq.
  - cbn [objs blocks trace s4].
    split; [by rewrite Hobjs3 |].
    assert (Hblocks : delete bn (<[bn := l3 ++ None :: tail]> (blocks s3))
                      = blocks s).
    { rewrite Hblocks3. unfold s2. cbn [blocks set_block].
      rewrite insert_insert_eq. by apply delete_insert_fresh. }
    split; [exact Hblocks |].
    split; [| split; [| done]].
    + rewrite <- (layout_elements s v es); [by apply elements_same_blocks |].
      by apply (layout_block _ _ _ b []).
    + right. by left.
Qed.

Lemma with_new_data_bad_alloc {A} n (body : RawMemory -> M T (A * RawMemory)) s :
  0 < n -> max_alloc < n * sizeof < 2 ^ 64 ->
  with_new_data n body s = Throw bad_alloc s.
Proof.
  intros Hn Hbig. unfold with_new_data, RawMemory_new.
  apply bind_Throw, bind_Throw. by apply Allocate_Throw.
Qed.

Lemma position_in_range (v : Vector) i :
  0 <= i <= size_ v ->
  ptr_le (buffer_ (data_ v)) (buffer_ (data_ v) +ₚ i)
  && ptr_le (buffer_ (data_ v) +ₚ i) (buffer_ (data_ v) +ₚ size_ v) = true.
Proof.
  intros Hi. destruct (buffer_ (data_ v)); cbn [ptr_add ptr_le]; [done |].
  rewrite bool_decide_eq_true_2 by done. cbn [andb].
  destruct (Z.leb_spec off (off + i)); [| lia].
  destruct (Z.leb_spec (off + i) (off + size_ v)); [done | lia].
Qed.

(** X6. When the allocator cannot provide the storage that growth asks for,
    the request is the first thing that fails: EmplaceBack and Emplace
    on a full Vector, and Reserve beyond the capacity, end with
    [std::bad_alloc] and leave the whole state as it was, whatever the
    arguments of the new element are. *)
Theorem growth_without_storage_throws_bad_alloc
    (this : vref) (v : Vector) (s : state T)
    (Hthis : objs s !! this = Some v)
    (Hbounded : bounded v) :
  (size_ v = capacity_ (data_ v) ->
   max_alloc < Z.max 1 (2 * capacity_ (data_ v)) * sizeof ->
   (forall args, EmplaceBack this args s = Throw bad_alloc s) /\
   (forall i args, 0 <= i <= size_ v ->
      Emplace this (buffer_ (data_ v) +ₚ i) args s = Throw bad_alloc s)) /\
  (forall n, capacity_ (data_ v) < n -> max_alloc < n * sizeof < 2 ^ 64 ->
     Reserve this n s = Throw bad_alloc s).
Proof.
  split.
  - intros Hfull Hbig.
    destruct (growth_request v Hbounded Hfull) as (Hn & Hlt & Hn0 & Hnw).
    split.
    + intros args. unfold EmplaceBack.
      rewrite (bind_Ok _ _ _ _ _ (get_Ok this v s Hthis)).
      destruct (Z.eqb_spec (size_ v) (capacity_ (data_ v))) as [_ | ?]; [| lia].
      cbn [negb]. apply with_new_data_bad_alloc; lia.
    + intros i args Hi. unfold Emplace.
      rewrite (bind_Ok _ _ _ _ _ (begin_Ok this v s Hthis)).
      rewrite (bind_Ok _ _ _ _ _ (end_Ok this v s Hthis)).
      rewrite position_in_range by done. cbn [assert].
      erewrite bind_Ok; [| reflexivity].
      rewrite (bind_Ok _ _ _ _ _ (get_Ok this v s Hthis)).
      rewrite Z.gtb_ltb.
      destruct (Z.ltb_spec (size_ v) (capacity_ (data_ v))); [lia |].
      apply bind_Throw. apply with_new_data_bad_alloc; lia.
  - intros n Hgt Hbig. unfold Reserve.
    rewrite (bind_Ok _ _ _ _ _ (get_Ok this v s Hthis)).
    destruct (Z.leb_spec n (capacity_ (data_ v))); [lia |].
    destruct Hbounded as [[? ?] _].
    apply with_new_data_bad_alloc; lia.
Qed.

(** ** Reserve: failure and overflow *)

(** X30. [Reserve(n)] with [n <= capacity] returns at once and changes
    nothing at all.  With [n > capacity], on a well-formed Vector whose
    element type has value semantics, and a byte count [n * sizeof(T)]
    that the allocator can meet (hence one that does not wrap around),
    it returns normally with capacity exactly [n] in storage of [n]
    slots, the size unchanged and the same sequence of element values;
    the Vector is well-formed again. *)
Theorem Reserve_within_allocator_limit
    (this : vref) (v : Vector) (s : state T) (n : Z) (es : list T)
    (Hthis : objs s !! this = Some v)
    (Hwf : well_formed s v = true)
    (Hes : elements s v = Some es)
    (Hvalues : value_semantics) :
  (n <= capacity_ (data_ v) -> Reserve this n s = Ok tt s) /\
  (capacity_ (data_ v) < n -> n * sizeof <= max_alloc ->
   exists s' v',
     Reserve this n s = Ok tt s' /\
     objs s' = <[this := v']> (objs s) /\
     capacity_ (data_ v') = n /\
     size_ v' = size_ v /\
     well_formed s' v' = true /\
     elements s' v' = Some es).
Proof.
  split.
  - intros Hle. unfold Reserve. rewrite (bind_Ok _ _ _ _ _ (get_Ok this v s Hthis)).
    by destruct (Z.leb_spec n (capacity_ (data_ v))); [| lia].
  - intros Hgt Hfit.
    destruct (well_formed_layout_of s v es Hwf Hes) as (_ & Hlay).
    destruct (Reserve_grows this v s n es Hthis Hlay Hvalues Hgt Hfit)
      as (s' & d & Hrun & Hobjs & Hcap & Hlay').
    exists s', (mkVector d (size_ v)). split; [exact Hrun |].
    split; [exact Hobjs |]. split; [exact Hcap |]. split; [reflexivity |].
    split; [| by apply layout_elements].
    apply (layout_well_formed _ _ _ Hlay'). cbn [data_]. by rewrite Hcap.
Qed.

(** X7. Reserve beyond the capacity, for an element type that is copied
    into the new storage, when the copy constructor throws on one of
    the elements: the exception leaves the call, the copies made so far
    are destroyed, the new storage is released, and every Vector object
    and every block of storage is as it was before the call. *)
Theorem Reserve_copy_failure_rolls_back
    (this : vref) (v : Vector) (s : state T) (es : list T) (n : Z)
    (Hthis : objs s !! this = Some v)
    (Hwf : well_formed s v = true)
    (Hes : elements s v = Some es)
    (Hmove : is_nothrow_move_constructible = false)
    (Hcopy : is_copy_constructible = true)
    (Hgrow : capacity_ (data_ v) < n)
    (Hfit : n * sizeof <= max_alloc)
    (Hthrows : mapM copy_construct es = None) :
  exists s',
    Reserve this n s = Throw element_exn s' /\
    objs s' = objs s /\ blocks s' = blocks s /\
    elements s' v = Some es.
Proof.
  destruct (well_formed_layout_of s v es Hwf Hes) as (Hbounded & Hlay).
  unfold Reserve. rewrite (bind_Ok _ _ _ _ _ (get_Ok this v s Hthis)).
  destruct (Z.leb_spec n (capacity_ (data_ v))); [lia |].
  rewrite Hmove, Hcopy. cbn [negb orb].
  set (bn := fresh (dom (blocks s))).
  set (s1 := set_block bn (replicate (Z.to_nat n) None) s).
  assert (Hbn : blocks s !! bn = None) by apply fresh_block.
  destruct Hlay as [Hbuf Hcap Hsz -> | b rest Hbuf Hb Hsz Hcap Hpos]; [discriminate |].
  assert (Hne : b <> bn) by congruence.
  destruct Hbounded as [[Hs0 Hs1] _].
  assert (Hsplit : replicate (Z.to_nat n) (@None T)
                   = [] ++ replicate (length es) None
                        ++ replicate (Z.to_nat n - length es) None).
  { cbn [app]. rewrite <- replicate_add. f_equal. lia. }
  destruct (uninitialized_copy_loop_Throw b bn 0 0 es [] [] rest []
              (replicate (length es) None)
              (replicate (Z.to_nat n - length es) None) s1)
    as (s2 & l2 & Hrun2 & Hobjs2 & Hblocks2 & _); try done.
  { unfold s1. by rewrite set_block_lookup_ne. }
  { unfold s1. rewrite set_block_lookup. by rewrite Hsplit. }
  { by rewrite length_replicate. }
  eexists. split.
  - apply (with_new_data_Throw n _ s element_exn s2); [lia | done | |].
    + fold bn s1. apply bind_Throw.
      unfold uninitialized_copy_n, GetAddress. rewrite Hbuf. cbn [buffer_].
      replace (Z.to_nat (size_ v)) with (length es) by lia.
      exact Hrun2.
    + eexists. rewrite Hblocks2. apply lookup_insert_eq.
  - cbn [objs blocks].
    assert (Hblocks : delete bn (blocks s2) = blocks s).
    { rewrite Hblocks2. unfold s1. cbn [blocks set_block].
      by apply delete_insert_fresh. }
    split; [by rewrite Hobjs2 |]. split; [exact Hblocks |].
    rewrite <- (layout_elements s v es); [by apply elements_same_blocks |].
    by apply (layout_block _ _ _ b rest).
Qed.

(** X8. The byte count [new_capacity * sizeof(T)] of Allocate is computed in
    [size_t] and no one checks it for overflow.  Reserve on an empty
    Vector with a count whose byte count wraps around to something the
    allocator can provide returns normally: the Vector then reports the
    capacity asked for, over a block of storage that has fewer slots
    than that. *)
Theorem Reserve_byte_count_wraps_around
    (this : vref) (v : Vector) (s : state T) (n : Z)
    (Hthis : objs s !! this = Some v)
    (Hwf : well_formed s v = true)
    (Hempty : size_ v = 0)
    (Hgrow : capacity_ (data_ v) < n < 2 ^ 64)
    (Hwraps : 2 ^ 64 <= n * sizeof)
    (Hfit : wrap (n * sizeof) <= max_alloc) :
  exists s' v' l,
    Reserve this n s = Ok tt s' /\
    objs s' = <[this := v']> (objs s) /\
    size_ v' = 0 /\
    capacity_ (data_ v') = n /\
    storage s' v' = Some l /\
    Z.of_nat (length l) = wrap (n * sizeof) / sizeof /\
    Z.of_nat (length l) < capacity_ (data_ v') /\
    well_formed s' v' = false.
Proof.
  destruct (well_formed_layout s v Hwf) as (Hbounded & es & Hlay).
  pose proof (layout_length s v es Hlay) as Hlen.
  assert (es = []) as -> by (destruct es; [done | cbn [length] in Hlen; lia]).
  set (bn := fresh (dom (blocks s))).
  set (k := wrap (n * sizeof) / sizeof).
  assert (Hk : 0 <= k < n).
  { unfold k, wrap. pose proof (Z.mod_pos_bound (n * sizeof) (2 ^ 64)) as Hm.
    split; [apply Z.div_pos; lia |].
    apply Z.div_lt_upper_bound; lia. }
  set (d := mkRawMemory (Ptr bn 0) n).
  set (s1 := set_block bn (replicate (Z.to_nat k) None) s).
  assert (Hbn : blocks s !! bn = None) by apply fresh_block.
  assert (Hnew : RawMemory_new n s = Ok d s1).
  { unfold RawMemory_new, Allocate.
    destruct (Z.eqb_spec n 0) as [? | _]; [destruct Hbounded as [[? ?] _]; lia |].
    cbn [negb]. unfold bind, operator_new.
    destruct (Z.leb_spec (wrap (n * sizeof)) max_alloc); [done | lia]. }
  assert (Hbody : forall (old : RawMemory) s2,
            RawMemory_dtor (data_ v)
              (mkState (<[this := mkVector d (size_ v)]> (objs s1)) (blocks s1) (trace s1))
            = Ok tt s2 ->
            Reserve this n s = Ok tt s2).
  { intros _ s2 Hdtor. unfold Reserve.
    rewrite (bind_Ok _ _ _ _ _ (get_Ok this v s Hthis)).
    destruct (Z.leb_spec n (capacity_ (data_ v))); [lia |].
    unfold with_new_data. rewrite (bind_Ok _ _ _ _ _ Hnew).
    erewrite bind_Ok.
    2:{ apply catch_rethrow_Ok. rewrite Hempty.
        unfold uninitialized_move_n, uninitialized_copy_n, destroy_n.
        change (Z.to_nat 0) with 0%nat. cbn [uninitialized_loop destroy_loop].
        erewrite bind_Ok; [| by destruct (_ || _)].
        erewrite bind_Ok; [| reflexivity].
        erewrite bind_Ok; [| apply (swap_data_Ok this v); exact Hthis].
        reflexivity. }
    cbn [fst snd]. fold s1.
    erewrite bind_Ok; [| exact Hdtor]. reflexivity. }
  assert (Hfinal : forall s2, objs s2 = <[this := mkVector d 0]> (objs s) ->
            blocks s2 !! bn = Some (replicate (Z.to_nat k) None) ->
            storage s2 (mkVector d 0) = Some (replicate (Z.to_nat k) None) /\
            Z.of_nat (length (replicate (Z.to_nat k) (@None T))) = k /\
            Z.of_nat (length (replicate (Z.to_nat k) (@None T))) < n /\
            well_formed s2 (mkVector d 0) = false).
  { intros s2 _ Hblk. rewrite length_replicate.
    split; [| split; [lia | split; [lia |]]].
    - unfold storage. cbn [data_ buffer_ d]. rewrite Hblk. reflexivity.
    - unfold well_formed. cbn [data_ size_ capacity_ buffer_ d]. rewrite Hblk.
      rewrite (bool_decide_eq_false_2 (length _ = _))
        by (rewrite length_replicate; lia).
      cbn [andb]. by rewrite !andb_false_r. }
  destruct Hlay as [Hbuf Hcap Hsz _ | b rest Hbuf Hb Hsz Hcap Hpos].
  - eexists _, (mkVector d 0), _. split.
    + apply (Hbody (data_ v)). unfold RawMemory_dtor, Deallocate. rewrite Hbuf.
      reflexivity.
    + cbn [objs blocks s1 set_block size_ data_ capacity_ d]. rewrite Hempty.
      split; [done |]. split; [done |]. split; [done |].
      apply Hfinal; [done |]. cbn [blocks]. apply lookup_insert_eq.
  - assert (Hne : b <> bn) by congruence.
    eexists _, (mkVector d 0), _. split.
    + apply (Hbody (data_ v)). unfold RawMemory_dtor, Deallocate. rewrite Hbuf.
      eapply operator_delete_Ok. cbn [blocks s1 set_block].
      rewrite lookup_insert_ne by done. exact Hb.
    + cbn [objs blocks s1 set_block size_ data_ capacity_ d]. rewrite Hempty.
      split; [done |]. split; [done |]. split; [done |].
      apply Hfinal; [done |]. cbn [blocks].
      rewrite lookup_delete_ne by done. apply lookup_insert_eq.
Qed.

(** ** PopBack *)

(** PopBack of a trivially destructible element type on a Vector that
    holds [es ++ [x]]: the size goes down by one; the destructor call is
    made on the slot behind [x]. *)
Lemma PopBack_layout this v s es x :
  is_trivially_destructible = true ->
  objs s !! this = Some v -> bounded v -> layout s v (es ++ [x]) ->
  let v' := mkVector (data_ v) (size_ v - 1) in
  exists s' b rest found,
    PopBack this s = Ok tt s' /\
    objs s' = <[this := v']> (objs s) /\
    buffer_ (data_ v) = Ptr b 0 /\
    blocks s' = <[b := (Some <$> es) ++ Some x :: rest]> (blocks s) /\
    Z.of_nat (length es + S (length rest)) = capacity_ (data_ v) /\
    trace s' = EvDestroy (Ptr b (size_ v)) found :: trace s.
Proof.
  intros Htriv Hthis Hbounded Hlay v'.
  pose proof (bounded_capacity v Hbounded) as Hsmall.
  destruct Hbounded as [[Hs0 Hs1] _].
  destruct Hlay as [_ _ _ Hnil | b rest Hbuf Hb Hsz Hcap Hpos];
    [by destruct es |].
  rewrite length_app in Hsz, Hcap. cbn [length] in Hsz, Hcap.
  destruct (PopBack_run this v s b _ Htriv Hthis ltac:(lia) Hbuf Hb)
    as (s' & Hrun & Hobjs & Hblocks & Htrace).
  exists s', b, (<[0%nat := None]> rest). eexists.
  split; [exact Hrun |]. split; [exact Hobjs |]. split; [exact Hbuf |].
  split; [| split; [| exact Htrace]].
  - rewrite Hblocks. f_equal.
    rewrite insert_app_r_alt by (rewrite length_fmap, length_app; cbn [length]; lia).
    rewrite length_fmap, length_app. cbn [length].
    replace (Z.to_nat (size_ v) - (length es + 1))%nat with 0%nat by lia.
    rewrite fmap_app, <- app_assoc. reflexivity.
  - rewrite length_insert. lia.
Qed.

(** X9. PopBack on a non-empty well-formed Vector makes its one
    destructor call on the address [data + size], behind the element it
    removes.  For a trivially destructible element type the call
    returns normally with the size one less, the elements without the
    last one, and the storage pointer and the capacity as before; the
    removed element is still live in its slot afterwards, its
    destructor has not run.  For any other element type, with no live
    object behind the last element, the destructor call is undefined;
    the size has been decremented by then. *)
Theorem PopBack_removes_last_without_destroying_it
    (this : vref) (v : Vector) (s : state T) (es : list T) (x : T)
    (Hthis : objs s !! this = Some v)
    (Hwf : well_formed s v = true)
    (Hes : elements s v = Some (es ++ [x])) :
  let v' := mkVector (data_ v) (size_ v - 1) in
  let behind := buffer_ (data_ v) +ₚ size_ v in
  (is_trivially_destructible = true ->
   exists s' found,
     PopBack this s = Ok tt s' /\
     objs s' = <[this := v']> (objs s) /\
     elements s' v' = Some es /\
     read (buffer_ (data_ v) +ₚ (size_ v - 1)) s' = Ok x s' /\
     trace s' = EvDestroy behind found :: trace s) /\
  (is_trivially_destructible = false ->
   (forall y, slot_at s behind <> Some (Some y)) ->
   PopBack this s
   = Fault (mkState (<[this := v']> (objs s)) (blocks s)
                    (EvDestroy behind None :: trace s))).
Proof.
  intros v' behind.
  destruct (well_formed_layout_of s v _ Hwf Hes) as (Hbounded & Hlay).
  pose proof (layout_length s v _ Hlay) as Hlen.
  rewrite length_app in Hlen. cbn [length] in Hlen.
  pose proof (bounded_capacity v Hbounded) as Hsmall.
  pose proof Hbounded as [[Hs0 Hs1] _].
  split.
  - intros Htriv.
    destruct (PopBack_layout this v s es x Htriv Hthis Hbounded Hlay)
      as (s' & b & rest & found & Hrun & Hobjs & Hbuf & Hblocks & Hcap & Htrace).
    assert (Hlay' : layout s' v' es).
    { apply (layout_block _ _ _ b (Some x :: rest)); cbn [v' data_ size_ length];
        try done; try lia.
      rewrite Hblocks. apply lookup_insert_eq. }
    exists s', found. unfold behind. rewrite Hbuf. cbn [ptr_add]. rewrite !Z.add_0_l.
    split; [done |]. split; [done |].
    split; [by apply layout_elements |]. split; [| done].
    apply (read_Ok b _ ((Some <$> es) ++ Some x :: rest)); [| lia |].
    + rewrite Hblocks. apply lookup_insert_eq.
    + apply list_lookup_middle. rewrite length_fmap. lia.
  - intros Htriv Hraw.
    destruct Hlay as [_ _ _ Hnil | b rest Hbuf Hb Hsz Hcap Hpos];
      [by destruct es |].
    unfold behind in *. rewrite Hbuf in *. cbn [ptr_add] in *.
    rewrite Z.add_0_l in *.
    apply (PopBack_Fault this v s b _ Htriv Hthis ltac:(lia) Hbuf Hb).
    intros y. rewrite <- (slot_at_block b (size_ v) _ s Hb) by lia. apply Hraw.
Qed.

(** X10. PushBack followed by PopBack, for a trivially destructible
    element type with value semantics: both calls return normally, and
    the Vector has the size and the elements it had before; its
    capacity has not gone down.  The value that was pushed is not
    destroyed: it is still live in the slot behind the last element. *)
Theorem PushBack_then_PopBack_restores_elements
    (this : vref) (v : Vector) (s : state T) (es : list T) (x : T)
    (Hthis : objs s !! this = Some v)
    (Hwf : well_formed s v = true)
    (Hes : elements s v = Some es)
    (Hvalues : value_semantics)
    (Htrivial : is_trivially_destructible = true)
    (Hfit : size_ v = capacity_ (data_ v) ->
            Z.max 1 (2 * capacity_ (data_ v)) * sizeof <= max_alloc) :
  let round_trip (push : M T unit) :=
    exists s1 s2 v2,
      push s = Ok tt s1 /\
      PopBack this s1 = Ok tt s2 /\
      objs s2 !! this = Some v2 /\
      size_ v2 = size_ v /\
      capacity_ (data_ v) <= capacity_ (data_ v2) /\
      elements s2 v2 = Some es /\
      read (buffer_ (data_ v2) +ₚ size_ v) s2 = Ok x s2 in
  round_trip (PushBack_copy this x) /\ round_trip (PushBack_move this x).
Proof.
  intros round_trip.
  destruct (well_formed_layout_of s v es Hwf Hes) as (Hbounded & Hlay).
  destruct (EmplaceBack_run this v s es x Hthis Hbounded Hlay Hvalues Hfit)
    as (p & s1 & d & Hrun1 & Hobjs1 & Hlay1 & Hbounded1 & Hcap1).
  set (v1 := mkVector d (size_ v + 1)) in *.
  assert (Hthis1 : objs s1 !! this = Some v1)
    by (rewrite Hobjs1; apply lookup_insert_eq).
  destruct (PopBack_layout this v1 s1 es x Htrivial Hthis1 Hbounded1 Hlay1)
    as (s2 & b & rest & found & Hrun2 & Hobjs2 & Hbuf & Hblocks & Hcap & Htrace).
  cbn [v1 data_ size_] in Hobjs2, Hbuf, Hcap.
  replace (size_ v + 1 - 1) with (size_ v) in Hobjs2 by lia.
  pose proof (layout_length s v es Hlay) as Hlen.
  assert (Hlay2 : layout s2 (mkVector d (size_ v)) es).
  { apply (layout_block _ _ _ b (Some x :: rest)); cbn [data_ size_ length];
      try done; try lia.
    rewrite Hblocks. apply lookup_insert_eq. }
  assert (Hpop : exists s1 s2 v2,
            EmplaceBack this (Some x) s = Ok p s1 /\
            PopBack this s1 = Ok tt s2 /\
            objs s2 !! this = Some v2 /\
            size_ v2 = size_ v /\
            capacity_ (data_ v) <= capacity_ (data_ v2) /\
            elements s2 v2 = Some es /\
            read (buffer_ (data_ v2) +ₚ size_ v) s2 = Ok x s2).
  { exists s1, s2, (mkVector d (size_ v)).
    split; [done |]. split; [done |].
    split; [rewrite Hobjs2; apply lookup_insert_eq |].
    split; [done |]. split; [done |].
    split; [by apply layout_elements |].
    cbn [data_]. rewrite Hbuf. cbn [ptr_add]. rewrite Z.add_0_l.
    apply (read_Ok b _ ((Some <$> es) ++ Some x :: rest)); [| lia |].
    - rewrite Hblocks. apply lookup_insert_eq.
    - apply list_lookup_middle. rewrite length_fmap. lia. }
  destruct Hpop as (s1' & s2' & v2 & Hrun & Hrest).
  destruct Hvalues as (Hcopy & Hmove & _).
  split; exists s1', s2', v2; (split; [| exact Hrest]).
  - unfold PushBack_copy. rewrite Hcopy. by rewrite (bind_Ok _ _ _ _ _ Hrun).
  - unfold PushBack_move. destruct (Hmove x) as [r ->].
    cbn [fmap option_fmap option_map fst].
    by rewrite (bind_Ok _ _ _ _ _ Hrun).
Qed.

(** ** Emplace, Insert and Erase *)

Lemma take_drop_length (es : list T) i :
  0 <= i <= Z.of_nat (length es) ->
  Z.of_nat (length (take (Z.to_nat i) es)) = i.
Proof. intros Hi. rewrite length_take. lia. Qed.

(** X11. Emplace and both overloads of Insert at index [i] of a well-formed
    Vector, for an element type with value semantics (and, when the
    Vector is full, storage to be had for the growth): the call returns
    normally with the address of index [i] in the storage the Vector
    then has; the elements are the first [i] old ones, the new value,
    and the old ones from [i] on. *)
Theorem Emplace_inserts_at_position
    (this : vref) (v : Vector) (s : state T) (es : list T) (i : Z) (x : T)
    (Hthis : objs s !! this = Some v)
    (Hwf : well_formed s v = true)
    (Hes : elements s v = Some es)
    (Hvalues : value_semantics)
    (Hindex : 0 <= i <= size_ v)
    (Hfit : size_ v = capacity_ (data_ v) ->
            Z.max 1 (2 * capacity_ (data_ v)) * sizeof <= max_alloc) :
  let pos := buffer_ (data_ v) +ₚ i in
  let inserted (insert : M T ptr) :=
    exists s' v',
      insert s = Ok (buffer_ (data_ v') +ₚ i) s' /\
      objs s' = <[this := v']> (objs s) /\
      size_ v' = size_ v + 1 /\
      well_formed s' v' = true /\
      elements s' v' = Some (take (Z.to_nat i) es ++ x :: drop (Z.to_nat i) es) in
  inserted (Emplace this pos (Some x)) /\
  inserted (Insert_copy this pos x) /\
  inserted (Insert_move this pos x).
Proof.
  intros pos inserted.
  destruct (well_formed_layout_of s v es Hwf Hes) as (Hbounded & Hlay).
  pose proof (layout_length s v es Hlay) as Hlen.
  assert (Hi : Z.of_nat (length (take (Z.to_nat i) es)) = i)
    by (apply take_drop_length; lia).
  rewrite <- (take_drop (Z.to_nat i) es) in Hlay.
  destruct (Emplace_run this v s _ _ x Hthis Hbounded Hlay Hvalues Hfit)
    as (s' & d & Hrun & Hobjs & Hlay' & Hbounded').
  rewrite Hi in Hrun.
  assert (Hemplace : inserted (Emplace this pos (Some x))).
  { exists s', (mkVector d (size_ v + 1)). cbn [data_ size_].
    split; [done |]. split; [done |]. split; [done |].
    split; [| by apply layout_elements].
    apply (layout_well_formed _ _ _ Hlay'). apply Hbounded'. }
  destruct Hvalues as (Hcopy & Hmove & _).
  split; [done |]. split.
  - unfold Insert_copy. by rewrite Hcopy.
  - unfold Insert_move. destruct (Hmove x) as [r ->]. done.
Qed.

(** PopBack leaves the storage of the Vector in place. *)
Lemma PopBack_data this v s :
  objs s !! this = Some v ->
  holds (PopBack this) s
        (fun _ s' => exists v', objs s' !! this = Some v' /\ data_ v' = data_ v)
        (fun _ => True).
Proof.
  intros Hv. unfold PopBack, set_size. holds_step. holds_step. objs_norm.
  destruct (size_ v <? 1).
  - holds_auto. by exists v.
  - holds_auto; try done. eexists. split; [obj_here | done].
Qed.

(** Erase returns the position it was given. *)
Lemma Erase_result this v s pos :
  objs s !! this = Some v ->
  holds (Erase this pos) s
        (fun p _ => p = buffer_ (data_ v)
                        +ₚ wrap (ptr_diff pos (buffer_ (data_ v))))
        (fun _ => True).
Proof.
  intros Hv.
  unfold Erase, begin, end_. holds_auto; try done.
  eapply holds_mono; [apply (PopBack_data this v); objs_norm; done | |].
  - cbn beta. intros _ s1 (v1 & Hv1 & Hd1). holds_auto. unfold GetAddress.
    by rewrite Hd1.
  - auto.
Qed.

Lemma Erase_at this v s es1 x es2 :
  is_trivially_destructible = true ->
  objs s !! this = Some v -> bounded v ->
  layout s v (es1 ++ x :: es2) -> value_semantics ->
  let pos := buffer_ (data_ v) +ₚ Z.of_nat (length es1) in
  exists s',
    Erase this pos s = Ok pos s' /\
    objs s' = <[this := mkVector (data_ v) (size_ v - 1)]> (objs s) /\
    layout s' (mkVector (data_ v) (size_ v - 1)) (es1 ++ es2).
Proof.
  intros Htriv Hthis Hbounded Hlay Hvs pos.
  pose proof (layout_length s v _ Hlay) as Hlen.
  rewrite length_app in Hlen. cbn [length] in Hlen.
  pose proof (bounded_capacity v Hbounded) as Hsmall.
  destruct (Erase_run this v s es1 x es2 Htriv Hthis Hbounded Hlay Hvs)
    as (s' & p & Hrun & Hobjs & Hlay').
  fold pos in Hrun.
  pose proof (Erase_result this v s pos Hthis) as Hres.
  unfold holds in Hres. rewrite Hrun in Hres.
  assert (Hp : p = pos).
  { rewrite Hres. unfold pos. pose proof Hbounded as [[? ?] _].
    destruct (buffer_ (data_ v)) as [|b off]; cbn [ptr_add ptr_diff]; [done |].
    rewrite wrap_small by lia. f_equal. lia. }
  rewrite Hp in Hrun. by exists s'.
Qed.

(** X12. Erase at index [i] of a well-formed Vector, for an element type
    with value semantics.  When the type is trivially destructible, the
    call returns the position it was given; the size is one less, the
    storage pointer and the capacity are as before, and the elements
    are the old ones without the one at [i].  For any other type, with
    no live object behind the last element, the call is undefined: the
    PopBack that ends it calls the destructor on the address
    [data + size], where no object lives. *)
Theorem Erase_removes_at_position
    (this : vref) (v : Vector) (s : state T) (es : list T) (i : Z)
    (Hthis : objs s !! this = Some v)
    (Hwf : well_formed s v = true)
    (Hes : elements s v = Some es)
    (Hvalues : value_semantics)
    (Hindex : 0 <= i < size_ v) :
  let pos := buffer_ (data_ v) +ₚ i in
  let v' := mkVector (data_ v) (size_ v - 1) in
  let behind := buffer_ (data_ v) +ₚ size_ v in
  (is_trivially_destructible = true ->
   exists s',
     Erase this pos s = Ok pos s' /\
     objs s' = <[this := v']> (objs s) /\
     elements s' v' = Some (take (Z.to_nat i) es ++ drop (S (Z.to_nat i)) es)) /\
  (is_trivially_destructible = false ->
   (forall y, slot_at s behind <> Some (Some y)) ->
   exists s',
     Erase this pos s = Fault s' /\
     head (trace s') = Some (EvDestroy behind None)).
Proof.
  intros pos v' behind.
  destruct (well_formed_layout_of s v es Hwf Hes) as (Hbounded & Hlay).
  pose proof (layout_length s v es Hlay) as Hlen.
  assert (Hi : Z.of_nat (length (take (Z.to_nat i) es)) = i)
    by (apply take_drop_length; lia).
  destruct (lookup_lt_is_Some_2 es (Z.to_nat i)) as [x Hx]; [lia |].
  rewrite <- (take_drop_middle es (Z.to_nat i) x Hx) in Hlay.
  split.
  - intros Htriv.
    destruct (Erase_at this v s _ x _ Htriv Hthis Hbounded Hlay Hvalues)
      as (s' & Hrun & Hobjs & Hlay').
    rewrite Hi in Hrun.
    exists s'. split; [done |]. split; [done |]. by apply layout_elements.
  - intros Htriv Hraw.
    destruct Hlay as [_ _ _ Hnil | b rest Hbuf Hblk Hsz Hcap Hpos];
      [by destruct (take (Z.to_nat i) es) |].
    unfold pos, behind in *.
    pose proof (Erase_Fault this v s _ x _ b rest Htriv Hthis Hbounded Hbuf Hblk Hsz)
      as Hfault.
    rewrite Hi in Hfault.
    rewrite Hbuf in *. cbn [ptr_add] in *. rewrite Z.add_0_l in *.
    apply Hfault; [| done].
    intros y Hy. apply (Hraw y).
    rewrite (slot_at_block b (size_ v) _ s Hblk) by lia.
    rewrite <- Hsz, Nat2Z.id.
    rewrite lookup_app_r by (by rewrite length_fmap).
    rewrite length_fmap, Nat.sub_diag. by rewrite <- head_lookup.
Qed.

(** Emplace or Insert at index [i], then Erase at the position that
    was returned, which is index [i] of the storage the Vector then
    has: for a trivially destructible element type with value
    semantics both calls return normally, and the Vector has the size
    and the elements it had before the insertion. *)
Lemma insert_then_erase_round_trip
    (this : vref) (v : Vector) (s : state T) (es : list T) (i : Z) (x : T) :
  objs s !! this = Some v -> well_formed s v = true ->
  elements s v = Some es -> value_semantics ->
  is_trivially_destructible = true ->
  0 <= i <= size_ v ->
  (size_ v = capacity_ (data_ v) ->
   Z.max 1 (2 * capacity_ (data_ v)) * sizeof <= max_alloc) ->
  let pos := buffer_ (data_ v) +ₚ i in
  let round_trip (insert : M T ptr) :=
    exists s1 v1 s2 v2,
      insert s = Ok (buffer_ (data_ v1) +ₚ i) s1 /\
      objs s1 !! this = Some v1 /\
      Erase this (buffer_ (data_ v1) +ₚ i) s1 = Ok (buffer_ (data_ v1) +ₚ i) s2 /\
      objs s2 !! this = Some v2 /\
      size_ v2 = size_ v /\
      elements s2 v2 = Some es in
  round_trip (Emplace this pos (Some x)) /\
  round_trip (Insert_copy this pos x) /\
  round_trip (Insert_move this pos x).
Proof.
  intros Hthis Hwf Hes Hvalues Htriv Hindex Hfit pos round_trip.
  assert (Hmain : round_trip (Emplace this pos (Some x))).
  { destruct (well_formed_layout_of s v es Hwf Hes) as (Hb & Hlay).
    pose proof (layout_length s v es Hlay) as Hlen.
    pose proof Hlay as Hlay0.
    set (es1 := take (Z.to_nat i) es). set (es2 := drop (Z.to_nat i) es).
    assert (Hi : Z.of_nat (length es1) = i) by (apply take_drop_length; lia).
    rewrite <- (take_drop (Z.to_nat i) es) in Hlay. fold es1 es2 in Hlay.
    destruct (Emplace_run this v s es1 es2 x Hthis Hb Hlay Hvalues Hfit)
      as (s1 & d & Hrun1 & Hobjs1 & Hlay1 & Hb1).
    set (v1 := mkVector d (size_ v + 1)) in *.
    assert (Hthis1 : objs s1 !! this = Some v1).
    { rewrite Hobjs1. apply lookup_insert_eq. }
    destruct (Erase_at this v1 s1 es1 x es2 Htriv Hthis1 Hb1 Hlay1 Hvalues)
      as (s2 & Hrun2 & Hobjs2 & Hlay2).
    cbn [v1 data_ size_] in Hrun2, Hobjs2, Hlay2.
    rewrite Hi in Hrun1, Hrun2.
    exists s1, v1, s2, (mkVector d (size_ v + 1 - 1)). cbn [v1 data_ size_].
    split; [exact Hrun1 |]. split; [exact Hthis1 |]. split; [exact Hrun2 |].
    split; [rewrite Hobjs2; apply lookup_insert_eq |].
    split; [lia |].
    rewrite (layout_elements _ _ _ Hlay2). unfold es1, es2. by rewrite take_drop. }
  split; [exact Hmain |].
  destruct Hvalues as (Hcopy & Hmove & _).
  split.
  - unfold Insert_copy. by rewrite Hcopy.
  - unfold Insert_move. destruct (Hmove x) as [r ->]. exact Hmain.
Qed.

Lemma Emplace_enter this v s i args :
  objs s !! this = Some v -> bounded v -> 0 <= i <= size_ v ->
  forall b, buffer_ (data_ v) = Ptr b 0 \/ (buffer_ (data_ v) = nullptr /\ b = 0%nat) ->
  Emplace this (buffer_ (data_ v) +ₚ i) args s
  = (let pos := buffer_ (data_ v) +ₚ i in
     let e := buffer_ (data_ v) +ₚ size_ v in
     let index := if buffer_ (data_ v) is nullptr then 0 else i in
     (if capacity_ (data_ v) >? size_ v then
        catch_rethrow
          (if negb (bool_decide (pos = e)) then
             match args with
             | Some new_s =>
                 let* last := RawMemory_index (data_ v) (wrap (size_ v - 1)) in
                 move_construct_at e last ;;;
                 move_backward (buffer_ (data_ v) +ₚ index) (e +ₚ -1) e ;;;
                 move_assign_local (buffer_ (data_ v) +ₚ index) new_s
             | None => throw element_exn
             end
           else construct_at e args)
          (operator_delete e)
      else
        with_new_data (if size_ v =? 0 then 1 else wrap (size_ v * 2)) (fun new_data =>
          construct_at (GetAddress new_data +ₚ index) args ;;;
          (if negb is_nothrow_move_constructible && is_copy_constructible then
             uninitialized_copy_n (GetAddress (data_ v)) index (GetAddress new_data) ;;;
             uninitialized_copy_n (GetAddress (data_ v) +ₚ index)
                                  (wrap (size_ v - index))
                                  (GetAddress new_data +ₚ index +ₚ 1)
           else
             uninitialized_move_n (GetAddress (data_ v)) index (GetAddress new_data) ;;;
             uninitialized_move_n (GetAddress (data_ v) +ₚ index)
                                  (wrap (size_ v - index))
                                  (GetAddress new_data +ₚ index +ₚ 1)) ;;;
          destroy_n (GetAddress (data_ v)) (size_ v) ;;;
          let* old := swap_data this new_data in
          ret (tt, old))) ;;;
     let* v' := get this in
     set_size this (wrap (size_ v' + 1)) ;;;
     let* b' := begin this in
     ret (b' +ₚ index)) s.
Proof.
  intros Hthis Hbounded Hi b Hbuf.
  pose proof (bounded_capacity v Hbounded) as Hsmall.
  destruct Hbounded as [[? ?] _].
  unfold Emplace.
  rewrite (bind_Ok _ _ _ _ _ (begin_Ok this v s Hthis)).
  rewrite (bind_Ok _ _ _ _ _ (end_Ok this v s Hthis)).
  rewrite position_in_range by done. cbn [assert].
  erewrite bind_Ok; [| reflexivity].
  rewrite (bind_Ok _ _ _ _ _ (get_Ok this v s Hthis)).
  cbv zeta.
  destruct Hbuf as [Hbuf | [Hbuf _]]; rewrite Hbuf; cbn [ptr_add ptr_diff].
  - replace (0 + i - 0) with i by lia. rewrite (wrap_small i) by lia. reflexivity.
  - change (wrap 0) with 0. reflexivity.
Qed.

(** X13. Emplace with room left ([size < capacity]) when constructing the
    new element throws.  The handler calls [operator delete] on
    [end()].  On a non-empty Vector that address lies inside the block
    of storage: the call is undefined, and nothing of the Vector has
    changed by then.  On an empty Vector [end()] is the start of the
    block: the handler releases the storage, the exception leaves the
    call, and the Vector still holds the pointer to the released block
    and reports the old capacity. *)
Theorem Emplace_with_room_constructor_throws
    (this : vref) (v : Vector) (s : state T) (i : Z)
    (Hthis : objs s !! this = Some v)
    (Hwf : well_formed s v = true)
    (Hroom : size_ v < capacity_ (data_ v))
    (Hindex : 0 <= i <= size_ v) :
  exists b,
    buffer_ (data_ v) = Ptr b 0 /\
    Emplace this (buffer_ (data_ v) +ₚ i) None s
    = if size_ v =? 0
      then Throw element_exn
             (mkState (objs s) (delete b (blocks s)) (EvDelete (Ptr b 0) :: trace s))
      else Fault (mkState (objs s) (blocks s) (EvDelete (Ptr b (size_ v)) :: trace s)).
Proof.
  destruct (well_formed_elements s v Hwf) as (es & _ & Hes).
  destruct (well_formed_room s v es Hwf Hes Hroom)
    as (Hbounded & b & rest & Hbuf & Hblk & Hsz & Hcap).
  exists b. split; [done |].
  rewrite (Emplace_enter this v s i None Hthis Hbounded Hindex b) by (by left).
  cbv zeta. rewrite Z.gtb_ltb.
  destruct (Z.ltb_spec (size_ v) (capacity_ (data_ v))); [| lia].
  rewrite Hbuf. cbn [ptr_add]. rewrite !Z.add_0_l.
  assert (Hbody : (if negb (bool_decide (Ptr b i = Ptr b (size_ v)))
                   then throw element_exn
                   else construct_at (Ptr b (size_ v)) None) s
                  = Throw element_exn s).
  { destruct (negb _); [done |].
    apply (construct_at_Throw b _ _ s Hblk); [lia |].
    rewrite length_app, length_fmap. lia. }
  unfold bind, catch_rethrow. rewrite Hbody. unfold operator_delete. rewrite Hblk.
  destruct (size_ v =? 0) eqn:Hz; [| done].
  apply Z.eqb_eq in Hz. by rewrite Hz.
Qed.

(** X14. Emplace on a full Vector ([size = capacity]) when constructing the
    new element throws: the new storage is released again, the
    exception leaves the call, and every Vector object and every block
    of storage is as it was before the call. *)
Theorem Emplace_full_constructor_throws_rolls_back
    (this : vref) (v : Vector) (s : state T) (i : Z)
    (Hthis : objs s !! this = Some v)
    (Hwf : well_formed s v = true)
    (Hfull : size_ v = capacity_ (data_ v))
    (Hindex : 0 <= i <= size_ v)
    (Hfit : Z.max 1 (2 * capacity_ (data_ v)) * sizeof <= max_alloc) :
  exists s',
    Emplace this (buffer_ (data_ v) +ₚ i) None s = Throw element_exn s' /\
    objs s' = objs s /\ blocks s' = blocks s /\
    elements s' v = elements s v.
Proof.
  destruct (well_formed_layout s v Hwf) as (Hbounded & es & Hlay).
  destruct (growth_request v Hbounded Hfull) as (Hn & Hlt & Hn0 & Hnw).
  set (n := if size_ v =? 0 then 1 else wrap (size_ v * 2)) in *.
  set (bn := fresh (dom (blocks s))).
  set (s1 := set_block bn (replicate (Z.to_nat n) None) s).
  assert (Hrun : forall index, 0 <= index <= size_ v ->
            with_new_data n (fun new_data =>
              construct_at (GetAddress new_data +ₚ index) None ;;;
              (if negb is_nothrow_move_constructible && is_copy_constructible then
                 uninitialized_copy_n (GetAddress (data_ v)) index (GetAddress new_data) ;;;
                 uninitialized_copy_n (GetAddress (data_ v) +ₚ index)
                                      (wrap (size_ v - index))
                                      (GetAddress new_data +ₚ index +ₚ 1)
               else
                 uninitialized_move_n (GetAddress (data_ v)) index (GetAddress new_data) ;;;
                 uninitialized_move_n (GetAddress (data_ v) +ₚ index)
                                      (wrap (size_ v - index))
                                      (GetAddress new_data +ₚ index +ₚ 1)) ;;;
              destroy_n (GetAddress (data_ v)) (size_ v) ;;;
              let* old := swap_data this new_data in
              ret (tt, old)) s
            = Throw element_exn
                (mkState (objs s1) (delete bn (blocks s1)) (EvDelete (Ptr bn 0) :: trace s1))).
  { intros index Hindex'.
    apply (with_new_data_Throw n _ s element_exn s1); [lia | lia | |].
    - fold bn s1. apply bind_Throw. cbn [GetAddress buffer_ ptr_add].
      eapply construct_at_Throw; [apply set_block_lookup | lia |].
      rewrite length_replicate. lia.
    - eexists. apply set_block_lookup. }
  assert (Hblocks : delete bn (blocks s1) = blocks s).
  { unfold s1. cbn [blocks set_block]. apply delete_insert_id, fresh_block. }
  eexists. split.
  - destruct (buffer_ (data_ v)) as [|b off] eqn:Hbuf.
    + rewrite <- Hbuf.
      rewrite (Emplace_enter this v s i None Hthis Hbounded Hindex 0%nat)
        by (right; done).
      cbv zeta. rewrite Z.gtb_ltb.
      destruct (Z.ltb_spec (size_ v) (capacity_ (data_ v))); [lia |].
      rewrite Hbuf. apply bind_Throw. apply Hrun. destruct Hbounded as [[? ?] _]. lia.
    + assert (off = 0) as ->.
      { destruct Hlay as [Hnull | ? ? Hb' _ _ _ _]; congruence. }
      rewrite <- Hbuf.
      rewrite (Emplace_enter this v s i None Hthis Hbounded Hindex b)
        by (left; done).
      cbv zeta. rewrite Z.gtb_ltb.
      destruct (Z.ltb_spec (size_ v) (capacity_ (data_ v))); [lia |].
      rewrite Hbuf. apply bind_Throw. by apply Hrun.
  - cbn [objs blocks]. split; [done |]. split; [done |].
    by apply elements_same_blocks.
Qed.

(** ** Asserted preconditions and element access *)

(** X15. [operator[]] with an index below the size of a well-formed Vector
    returns the address of that element, where the element's value can
    be read; the state is unchanged.  With an index that is not below
    the size, the assertion fails. *)
Theorem index_operator_reads_element_or_asserts
    (this : vref) (v : Vector) (s : state T) (es : list T) (i : Z)
    (Hthis : objs s !! this = Some v)
    (Hwf : well_formed s v = true)
    (Hes : elements s v = Some es) :
  (forall x, 0 <= i -> es !! Z.to_nat i = Some x ->
     at_index this i s = Ok (buffer_ (data_ v) +ₚ i) s /\
     read (buffer_ (data_ v) +ₚ i) s = Ok x s) /\
  (size_ v <= i -> at_index this i s = Fault s).
Proof.
  destruct (well_formed_layout_of s v es Hwf Hes) as (Hbounded & Hlay).
  pose proof (layout_length s v es Hlay) as Hlen.
  destruct Hbounded as [[? ?] _].
  unfold at_index. rewrite (bind_Ok _ _ _ _ _ (get_Ok this v s Hthis)).
  split.
  - intros x Hi Hx. apply lookup_lt_Some in Hx as Hlt.
    destruct (Z.ltb_spec i (size_ v)); [| lia]. cbn [assert].
    unfold RawMemory_index.
    destruct (Z.ltb_spec i (capacity_ (data_ v))); [| lia].
    split; [reflexivity |].
    destruct Hlay as [_ _ _ -> | b rest Hbuf Hb _ _ _]; [done |].
    rewrite Hbuf. cbn [ptr_add]. rewrite Z.add_0_l.
    apply (read_Ok b _ _ x s Hb); [lia |].
    rewrite lookup_app_l by (rewrite length_fmap; lia).
    by rewrite list_lookup_fmap, Hx.
  - intros Hge. destruct (Z.ltb_spec i (size_ v)); [lia | reflexivity].
Qed.

(** X16. The positions that [Erase] and [Emplace] accept.  Erase asserts
    [begin() <= pos < end()]: at [end()], hence on every empty Vector,
    the assertion fails.  Emplace asserts [begin() <= pos <= end()]:
    behind [end()] and before [begin()] the assertion fails, whatever
    the capacity is. *)
Theorem positions_out_of_range_are_asserted
    (this : vref) (v : Vector) (s : state T)
    (Hthis : objs s !! this = Some v) :
  Erase this (buffer_ (data_ v) +ₚ size_ v) s = Fault s /\
  (forall b off k args, buffer_ (data_ v) = Ptr b off -> k < 0 \/ size_ v < k ->
     Erase this (Ptr b (off + k)) s = Fault s /\
     Emplace this (Ptr b (off + k)) args s = Fault s).
Proof.
  split.
  - unfold Erase.
    rewrite (bind_Ok _ _ _ _ _ (begin_Ok this v s Hthis)).
    rewrite (bind_Ok _ _ _ _ _ (end_Ok this v s Hthis)).
    assert (Hlt : ptr_lt (buffer_ (data_ v) +ₚ size_ v) (buffer_ (data_ v) +ₚ size_ v)
                  = false).
    { destruct (buffer_ (data_ v)); cbn [ptr_add ptr_lt]; [done |].
      rewrite Z.ltb_irrefl. apply andb_false_r. }
    rewrite Hlt, andb_false_r. reflexivity.
  - intros b off k args Hbuf Hk.
    assert (Hout : ptr_le (Ptr b off) (Ptr b (off + k))
                   && ptr_le (Ptr b (off + k)) (Ptr b (off + size_ v)) = false).
    { cbn [ptr_le]. rewrite bool_decide_eq_true_2 by done. cbn [andb].
      destruct (Z.leb_spec off (off + k)); [| done].
      destruct (Z.leb_spec (off + k) (off + size_ v)); [lia | done]. }
    assert (Hout' : ptr_le (Ptr b off) (Ptr b (off + k))
                    && ptr_lt (Ptr b (off + k)) (Ptr b (off + size_ v)) = false).
    { cbn [ptr_le ptr_lt]. rewrite bool_decide_eq_true_2 by done. cbn [andb].
      destruct (Z.leb_spec off (off + k)); [| done].
      destruct (Z.ltb_spec (off + k) (off + size_ v)); [lia | done]. }
    split.
    + unfold Erase.
      rewrite (bind_Ok _ _ _ _ _ (begin_Ok this v s Hthis)).
      rewrite (bind_Ok _ _ _ _ _ (end_Ok this v s Hthis)).
      rewrite Hbuf. cbn [ptr_add]. rewrite Hout'. reflexivity.
    + unfold Emplace.
      rewrite (bind_Ok _ _ _ _ _ (begin_Ok this v s Hthis)).
      rewrite (bind_Ok _ _ _ _ _ (end_Ok this v s Hthis)).
      rewrite Hbuf. cbn [ptr_add]. rewrite Hout. reflexivity.
Qed.

(** ** Resize *)

(** [std::uninitialized_value_construct_n] over the slots [mid] of a
    block, for a value initialization that does not throw. *)
Lemma value_construct_loop_Ok b (od : nat) d :
  value_init = Some d ->
  forall mid k pre post s,
  blocks s !! b = Some (pre ++ mid ++ post) ->
  length pre = (od + k)%nat ->
  uninitialized_loop (fun dst _ => construct_at dst value_init)
                     (Ptr b (Z.of_nat od)) (Z.of_nat k) (length mid) s
  = Ok tt (set_block b (pre ++ (Some <$> replicate (length mid) d) ++ post) s).
Proof.
  intros Hinit. induction mid as [|m mid IH]; intros k pre post s Hblk Hpre.
  - cbn. by rewrite set_block_id.
  - cbn [length uninitialized_loop replicate fmap list_fmap app] in *.
    set (s1 := set_block b (pre ++ Some d :: mid ++ post) s).
    assert (Hstep : construct_at (Ptr b (Z.of_nat od) +ₚ Z.of_nat k) value_init s
                    = Ok tt s1).
    { rewrite Hinit. cbn [ptr_add].
      erewrite construct_at_Ok; [| exact Hblk | lia | apply middle_lt_length; lia].
      unfold s1. f_equal. f_equal. apply insert_middle. lia. }
    erewrite bind_Ok; [| erewrite catch_rethrow_Ok; [reflexivity | exact Hstep]].
    replace (Z.of_nat k + 1) with (Z.of_nat (S k)) by lia.
    rewrite (IH (S k) (pre ++ [Some d]) post s1).
    + unfold s1. rewrite set_block_set_block. f_equal.
      by rewrite <- !app_assoc.
    + unfold s1. rewrite set_block_lookup. by rewrite <- !app_assoc.
    + rewrite length_app. cbn. lia.
Qed.

(** The first value initialization throws: nothing has been built. *)
Lemma value_construct_Throw b off l n s :
  value_init = None ->
  blocks s !! b = Some l -> 0 <= off -> (Z.to_nat off < length l)%nat -> 0 < n ->
  uninitialized_value_construct_n (Ptr b off) n s = Throw element_exn s.
Proof.
  intros Hinit Hblk Hoff Hlen Hn. unfold uninitialized_value_construct_n.
  destruct (Z.to_nat n) as [|k] eqn:Hk; [lia |].
  cbn [uninitialized_loop]. apply bind_Throw.
  eapply catch_rethrow_Throw.
  - rewrite Hinit. cbn [ptr_add]. rewrite Z.add_0_r.
    by apply (construct_at_Throw b off l).
  - reflexivity.
Qed.

(** Reserve, as Resize uses it: afterwards there is room for [n]
    elements, and the elements are as before. *)
Lemma Reserve_for this v s n es :
  objs s !! this = Some v -> bounded v -> layout s v es -> value_semantics ->
  (capacity_ (data_ v) < n -> n * sizeof <= max_alloc) ->
  exists s1 d,
    Reserve this n s = Ok tt s1 /\
    objs s1 = <[this := mkVector d (size_ v)]> (objs s) /\
    capacity_ d = Z.max (capacity_ (data_ v)) n /\
    layout s1 (mkVector d (size_ v)) es /\
    capacity_ d * sizeof <= max_alloc /\
    (n <= capacity_ (data_ v) -> s1 = s /\ d = data_ v).
Proof.
  intros Hthis Hbounded Hlay Hvs Hfit.
  destruct (Z.le_gt_cases n (capacity_ (data_ v))) as [Hle | Hgt].
  - exists s, (data_ v). split; [| split; [| split; [| split; [| split]]]].
    + unfold Reserve. rewrite (bind_Ok _ _ _ _ _ (get_Ok this v s Hthis)).
      destruct (Z.leb_spec n (capacity_ (data_ v))); [done | lia].
    + destruct v. cbn. by rewrite insert_id.
    + lia.
    + by destruct v.
    + apply Hbounded.
    + done.
  - destruct (Reserve_grows this v s n es Hthis Hlay Hvs) as (s1 & d & Hrun & Hobjs & Hcap & Hlay1);
      [lia | by apply Hfit; lia |].
    exists s1, d. split; [done |]. split; [done |]. split; [lia |]. split; [done |].
    split; [rewrite Hcap; apply Hfit; lia | lia].
Qed.

(** X17. Resize to a smaller size destroys the elements from index [n] on,
    first to last, and keeps the first [n]; the storage pointer and the
    capacity are as before.  Resize to the size the Vector has changes
    nothing. *)
Theorem Resize_down_destroys_the_tail
    (this : vref) (v : Vector) (s : state T) (es : list T) (n : Z)
    (Hthis : objs s !! this = Some v)
    (Hwf : well_formed s v = true)
    (Hes : elements s v = Some es)
    (Hn : 0 <= n <= size_ v) :
  (n = size_ v -> Resize this n s = Ok tt s) /\
  (n < size_ v ->
   let v' := mkVector (data_ v) n in
   exists s' b,
     Resize this n s = Ok tt s' /\
     objs s' = <[this := v']> (objs s) /\
     well_formed s' v' = true /\
     elements s' v' = Some (take (Z.to_nat n) es) /\
     buffer_ (data_ v) = Ptr b 0 /\
     trace s' = rev (destroy_events b (Z.to_nat n) (drop (Z.to_nat n) es)) ++ trace s).
Proof.
  split.
  - intros ->. unfold Resize. rewrite (bind_Ok _ _ _ _ _ (get_Ok this v s Hthis)).
    by rewrite Z.eqb_refl.
  - intros Hlt v'.
    destruct (well_formed_layout_of s v es Hwf Hes) as (Hbounded & Hlay).
    pose proof (bounded_capacity v Hbounded) as Hsmall.
    pose proof Hbounded as [[Hs0 Hs1] Hb].
    destruct Hlay as [_ _ Hsz _ | b rest Hbuf Hblk Hsz Hcap Hpos]; [lia |].
    set (k := Z.to_nat n).
    assert (Hk : (k < length es)%nat) by lia.
    assert (Hblk' : blocks s !! b
                    = Some ((Some <$> take k es) ++ (Some <$> drop k es) ++ rest)).
    { rewrite Hblk. rewrite app_assoc, <- fmap_app. by rewrite take_drop. }
    assert (Hpre : length (Some <$> take k es) = k)
      by (rewrite length_fmap, length_take; lia).
    pose proof (destroy_loop_trace b (drop k es) (Some <$> take k es) rest s Hblk')
      as Hdestroy.
    rewrite Hpre in Hdestroy.
    match type of Hdestroy with _ = Ok tt ?st => set (s1 := st) in * end.
    exists (mkState (<[this := v']> (objs s)) (blocks s1) (trace s1)), b.
    assert (Hlay' : layout (mkState (<[this := v']> (objs s)) (blocks s1) (trace s1))
                      v' (take k es)).
    { apply (layout_block _ _ _ b (replicate (length (drop k es)) None ++ rest));
        cbn [v' data_ size_ buffer_]; try done.
      - cbn [blocks s1]. apply lookup_insert_eq.
      - rewrite length_take. lia.
      - rewrite length_take, length_app, length_replicate, length_drop. lia. }
    split; [| split; [done | split; [| split; [| split; [done | done]]]]].
    + unfold Resize. rewrite (bind_Ok _ _ _ _ _ (get_Ok this v s Hthis)).
      destruct (Z.eqb_spec n (size_ v)); [lia |].
      destruct (Z.ltb_spec n (size_ v)); [| lia].
      unfold GetAddress. rewrite Hbuf. cbn [ptr_add]. rewrite Z.add_0_l.
      rewrite wrap_small by lia. unfold destroy_n.
      replace (Z.to_nat (size_ v - n)) with (length (drop k es))
        by (rewrite length_drop; lia).
      replace n with (Z.of_nat k) at 1 by lia.
      rewrite (bind_Ok _ _ _ _ _ Hdestroy).
      by rewrite (set_size_Ok this v).
    + apply (layout_well_formed _ _ _ Hlay'). apply Hb.
    + by apply layout_elements.
Qed.

(** X18. Resize to a larger size, for an element type with value semantics
    whose value initialization gives [d] (and storage to be had when
    the new size exceeds the capacity): the call returns normally; the
    elements are the old ones followed by [n - size] copies of [d]; the
    capacity is the larger of the old capacity and [n], not a doubled
    one. *)
Theorem Resize_up_appends_value_initialized
    (this : vref) (v : Vector) (s : state T) (es : list T) (n : Z) (d : T)
    (Hthis : objs s !! this = Some v)
    (Hwf : well_formed s v = true)
    (Hes : elements s v = Some es)
    (Hvalues : value_semantics)
    (Hinit : value_init = Some d)
    (Hn : size_ v < n)
    (Hfit : capacity_ (data_ v) < n -> n * sizeof <= max_alloc) :
  exists s' v',
    Resize this n s = Ok tt s' /\
    objs s' = <[this := v']> (objs s) /\
    size_ v' = n /\
    capacity_ (data_ v') = Z.max (capacity_ (data_ v)) n /\
    well_formed s' v' = true /\
    elements s' v' = Some (es ++ replicate (Z.to_nat (n - size_ v)) d).
Proof.
  destruct (well_formed_layout_of s v es Hwf Hes) as (Hbounded & Hlay).
  pose proof Hbounded as [[Hs0 Hs1] Hb].
  destruct (Reserve_for this v s n es Hthis Hbounded Hlay Hvalues Hfit)
    as (s1 & d1 & Hrun1 & Hobjs1 & Hcap1 & Hlay1 & Hfit1 & _).
  assert (Hthis1 : objs s1 !! this = Some (mkVector d1 (size_ v)))
    by (rewrite Hobjs1; apply lookup_insert_eq).
  assert (Hsmall1 : capacity_ d1 < 2 ^ 63) by nia.
  destruct Hlay1 as [_ Hc _ _ | b rest Hbuf Hblk Hsz Hcap Hpos];
    cbn [data_ size_] in *; [lia |].
  set (k := Z.to_nat (n - size_ v)).
  assert (Hrest : rest = take k rest ++ drop k rest) by (by rewrite take_drop).
  assert (Hmid : length (take k rest) = k) by (rewrite length_take; lia).
  rewrite Hrest in Hblk.
  pose proof (value_construct_loop_Ok b (length es) d Hinit (take k rest) 0
                (Some <$> es) (drop k rest) s1 Hblk) as Hloop.
  rewrite Hmid in Hloop. rewrite length_fmap in Hloop. specialize (Hloop ltac:(lia)).
  match type of Hloop with _ = Ok tt ?st => set (s2 := st) in * end.
  set (v' := mkVector d1 n).
  exists (mkState (<[this := v']> (objs s)) (blocks s2) (trace s2)), v'.
  assert (Hlay' : layout (mkState (<[this := v']> (objs s)) (blocks s2) (trace s2))
                    v' (es ++ replicate k d)).
  { apply (layout_block _ _ _ b (drop k rest)); cbn [v' data_ size_]; try done.
    - cbn [blocks s2 set_block]. rewrite lookup_insert_eq. f_equal.
      by rewrite fmap_app, <- app_assoc.
    - rewrite length_app, length_replicate. lia.
    - rewrite length_app, length_replicate, length_drop. lia. }
  split; [| split; [done | split; [done | split; [done | split]]]].
  - unfold Resize. rewrite (bind_Ok _ _ _ _ _ (get_Ok this v s Hthis)).
    destruct (Z.eqb_spec n (size_ v)); [lia |].
    destruct (Z.ltb_spec n (size_ v)); [lia |].
    erewrite bind_Ok.
    2:{ rewrite (bind_Ok _ _ _ _ _ Hrun1).
        rewrite (bind_Ok _ _ _ _ _ (get_Ok this _ s1 Hthis1)).
        cbn [data_ size_]. unfold GetAddress. rewrite Hbuf. cbn [ptr_add].
        rewrite Z.add_0_l. rewrite wrap_small by lia.
        unfold uninitialized_value_construct_n. fold k.
        rewrite <- Hsz. exact Hloop. }
    rewrite (set_size_Ok this (mkVector d1 (size_ v)))
      by (cbn [objs s2 set_block]; exact Hthis1).
    cbn [objs blocks trace s2 set_block data_]. rewrite Hobjs1.
    by rewrite insert_insert_eq.
  - apply (layout_well_formed _ _ _ Hlay'). exact Hfit1.
  - by apply layout_elements.
Qed.

(** X19. Resize to a larger size when the value initialization of the
    element type throws: the exception leaves the call with the size
    and the elements unchanged.  Within the capacity the whole state is
    as it was; beyond it, the storage has already grown to [n]. *)
Theorem Resize_up_value_initialization_throws
    (this : vref) (v : Vector) (s : state T) (es : list T) (n : Z)
    (Hthis : objs s !! this = Some v)
    (Hwf : well_formed s v = true)
    (Hes : elements s v = Some es)
    (Hvalues : value_semantics)
    (Hinit : value_init = None)
    (Hn : size_ v < n)
    (Hfit : capacity_ (data_ v) < n -> n * sizeof <= max_alloc) :
  exists s' v',
    Resize this n s = Throw element_exn s' /\
    objs s' = <[this := v']> (objs s) /\
    size_ v' = size_ v /\
    capacity_ (data_ v') = Z.max (capacity_ (data_ v)) n /\
    well_formed s' v' = true /\
    elements s' v' = Some es /\
    (n <= capacity_ (data_ v) -> s' = s).
Proof.
  destruct (well_formed_layout_of s v es Hwf Hes) as (Hbounded & Hlay).
  pose proof Hbounded as [[Hs0 Hs1] Hb].
  destruct (Reserve_for this v s n es Hthis Hbounded Hlay Hvalues Hfit)
    as (s1 & d1 & Hrun1 & Hobjs1 & Hcap1 & Hlay1 & Hfit1 & Hsame).
  assert (Hthis1 : objs s1 !! this = Some (mkVector d1 (size_ v)))
    by (rewrite Hobjs1; apply lookup_insert_eq).
  assert (Hsmall1 : capacity_ d1 < 2 ^ 63) by nia.
  exists s1, (mkVector d1 (size_ v)). cbn [data_ size_].
  split; [| split; [done | split; [done | split; [done | split; [| split]]]]].
  - destruct Hlay1 as [_ Hc _ _ | b rest Hbuf Hblk Hsz Hcap Hpos];
      cbn [data_ size_] in *; [lia |].
    unfold Resize. rewrite (bind_Ok _ _ _ _ _ (get_Ok this v s Hthis)).
    destruct (Z.eqb_spec n (size_ v)); [lia |].
    destruct (Z.ltb_spec n (size_ v)); [lia |].
    apply bind_Throw.
    rewrite (bind_Ok _ _ _ _ _ Hrun1).
    rewrite (bind_Ok _ _ _ _ _ (get_Ok this _ s1 Hthis1)).
    cbn [data_ size_]. unfold GetAddress. rewrite Hbuf. cbn [ptr_add].
    rewrite Z.add_0_l. rewrite wrap_small by lia.
    apply (value_construct_Throw b _ _ _ s1 Hinit Hblk); [lia | | lia].
    rewrite length_app, length_fmap. lia.
  - by apply (layout_well_formed _ _ _ Hlay1).
  - by apply layout_elements.
  - intros Hle. by destruct (Hsame Hle).
Qed.

(** ** Construction, destruction and exchange *)

(** The elements of a Vector depend on its own block of storage only. *)
Lemma layout_frame s s' v es :
  layout s v es ->
  (forall b, buffer_ (data_ v) = Ptr b 0 -> blocks s' !! b = blocks s !! b) ->
  layout s' v es.
Proof.
  intros [Hbuf Hcap Hsz Hnil | b rest Hbuf Hblk Hsz Hcap Hpos] Hsame.
  - by apply layout_null.
  - apply (layout_block _ _ _ b rest); try done. by rewrite (Hsame b Hbuf).
Qed.

(** X20. [Vector(size)].  When value initialization gives [d], the new
    object holds [size] copies of [d] in storage of exactly [size]
    slots, a block that did not exist before; for [size = 0] it holds
    no storage and nothing is allocated.  When value initialization
    throws, the exception leaves the constructor, the storage is
    released again, and every Vector object and every block of storage
    is as it was. *)
Theorem Vector_sized_value_initializes_or_rolls_back
    (this : vref) (s : state T) (n : Z)
    (Hn : 0 <= n)
    (Hfit : n * sizeof <= max_alloc) :
  match value_init with
  | Some d =>
      exists s' v',
        Vector_sized this n s = Ok tt s' /\
        objs s' = <[this := v']> (objs s) /\
        size_ v' = n /\ capacity_ (data_ v') = n /\
        well_formed s' v' = true /\
        elements s' v' = Some (replicate (Z.to_nat n) d) /\
        trace s' = trace s /\
        (forall b, is_Some (blocks s !! b) -> blocks s' !! b = blocks s !! b) /\
        (n = 0 -> buffer_ (data_ v') = nullptr /\ blocks s' = blocks s)
  | None =>
      0 < n ->
      exists s',
        Vector_sized this n s = Throw element_exn s' /\
        objs s' = objs s /\ blocks s' = blocks s
  end.
Proof.
  set (bn := fresh (dom (blocks s))).
  assert (Hbn : blocks s !! bn = None) by apply fresh_block.
  set (s1 := set_block bn (replicate (Z.to_nat n) None) s).
  assert (Hnew : 0 < n -> RawMemory_new n s = Ok (mkRawMemory (Ptr bn 0) n) s1).
  { intros Hpos. unfold RawMemory_new. by rewrite (bind_Ok _ _ _ _ _ (Allocate_Ok n s Hpos Hfit)). }
  destruct value_init as [d|] eqn:Hinit.
  - destruct (Z.eq_dec n 0) as [-> | Hne].
    + exists (mkState (<[this := mkVector (mkRawMemory nullptr 0) 0]> (objs s))
                (blocks s) (trace s)), (mkVector (mkRawMemory nullptr 0) 0).
      assert (Hlay : layout (mkState (<[this := mkVector (mkRawMemory nullptr 0) 0]> (objs s))
                               (blocks s) (trace s))
                       (mkVector (mkRawMemory nullptr 0) 0) []) by (by apply layout_null).
      split; [reflexivity |]. split; [done |]. split; [done |]. split; [done |].
      split; [by apply (layout_well_formed _ _ _ Hlay) |].
      split; [by apply layout_elements |]. done.
    + assert (Hpos : 0 < n) by lia.
      pose proof (value_construct_loop_Ok bn 0 d Hinit (replicate (Z.to_nat n) None) 0
                    [] [] s1) as Hloop.
      rewrite length_replicate, app_nil_r in Hloop. cbn [app] in Hloop.
      specialize (Hloop (set_block_lookup _ _ _) eq_refl).
      rewrite app_nil_r in Hloop.
      match type of Hloop with _ = Ok tt ?st => set (s2 := st) in * end.
      set (v' := mkVector (mkRawMemory (Ptr bn 0) n) n).
      exists (mkState (<[this := v']> (objs s)) (blocks s2) (trace s2)), v'.
      assert (Hlay : layout (mkState (<[this := v']> (objs s)) (blocks s2) (trace s2))
                       v' (replicate (Z.to_nat n) d)).
      { apply (layout_block _ _ _ bn []); cbn [v' data_ size_ buffer_ capacity_ length];
          try done.
        - cbn [blocks s2 set_block]. rewrite lookup_insert_eq. by rewrite app_nil_r.
        - rewrite length_replicate. lia.
        - rewrite length_replicate. lia. }
      split; [| split; [done | split; [done | split; [done | split; [| split;
                [| split; [done | split; [| lia]]]]]]]].
      * unfold Vector_sized. rewrite (bind_Ok _ _ _ _ _ (Hnew Hpos)).
        erewrite bind_Ok; [| apply catch_rethrow_Ok; exact Hloop]. reflexivity.
      * by apply (layout_well_formed _ _ _ Hlay).
      * by apply layout_elements.
      * intros b [l Hb]. cbn [blocks s2 s1 set_block].
        rewrite insert_insert_eq. apply lookup_insert_ne. congruence.
  - intros Hpos. eexists. split.
    + unfold Vector_sized. rewrite (bind_Ok _ _ _ _ _ (Hnew Hpos)).
      apply bind_Throw. eapply catch_rethrow_Throw.
      * apply (value_construct_Throw bn 0 (replicate (Z.to_nat n) None) n s1);
          [done | apply set_block_lookup | lia | rewrite length_replicate; lia | done].
      * unfold RawMemory_dtor, Deallocate. cbn [buffer_].
        eapply operator_delete_Ok. apply set_block_lookup.
    + cbn [objs blocks s1 set_block]. split; [done |].
      by apply delete_insert_id.
Qed.

(** X21. The copy constructor.  When every element can be copied, the new
    object holds the copies, in storage of its own whose capacity is
    the size of the source, not its capacity; the source and its
    elements are as before, and no destructor and no deallocation
    runs. *)
Theorem Vector_copy_is_tight_and_independent
    (new rhs : vref) (r : Vector) (s : state T) (xs ys : list T)
    (Hrhs : objs s !! rhs = Some r)
    (Hwf : well_formed s r = true)
    (Hxs : elements s r = Some xs)
    (Hnew : new <> rhs)
    (Hcopies : mapM copy_construct xs = Some ys) :
  exists s' v',
    Vector_copy new rhs s = Ok tt s' /\
    objs s' = <[new := v']> (objs s) /\
    size_ v' = size_ r /\ capacity_ (data_ v') = size_ r /\
    well_formed s' v' = true /\
    elements s' v' = Some ys /\
    elements s' r = Some xs /\
    (0 < size_ r -> buffer_ (data_ v') <> buffer_ (data_ r)) /\
    trace s' = trace s.
Proof.
  destruct (well_formed_layout_of s r xs Hwf Hxs) as (Hbounded & Hlay).
  pose proof (layout_length s r xs Hlay) as Hlen.
  pose proof (mapM_length_Some _ _ _ Hcopies) as Hlen'.
  pose proof Hbounded as [[Hs0 Hs1] Hb].
  assert (Hfit : size_ r * sizeof <= max_alloc) by nia.
  destruct (Z.eq_dec (size_ r) 0) as [Hzero | Hne].
  - assert (xs = []) as -> by (destruct xs; [done | cbn [length] in Hlen; lia]).
    injection Hcopies as <-.
    set (v' := mkVector (mkRawMemory nullptr 0) 0).
    set (s' := mkState (<[new := v']> (objs s)) (blocks s) (trace s)).
    assert (Hlay' : layout s' v' []) by (by apply layout_null).
    exists s', v'. cbn [v' data_ size_ capacity_ buffer_].
    split; [| split; [done | split; [done | split; [done | split; [| split;
              [| split; [| split; [lia | done]]]]]]]].
    + unfold Vector_copy. rewrite (bind_Ok _ _ _ _ _ (get_Ok rhs r s Hrhs)).
      rewrite Hzero. reflexivity.
    + apply (layout_well_formed _ _ _ Hlay'). cbn [v' data_ capacity_]. lia.
    + by apply layout_elements.
    + apply layout_elements. by apply (layout_frame s).
  - pose proof (Vector_copy_run new rhs r s xs Hrhs Hbounded Hlay ltac:(lia)) as Hrun.
    cbv zeta in Hrun. rewrite Hcopies in Hrun.
    set (bn := fresh (dom (blocks s))) in *.
    assert (Hbn : blocks s !! bn = None) by apply fresh_block.
    set (v' := mkVector (mkRawMemory (Ptr bn 0) (size_ r)) (size_ r)) in *.
    match type of Hrun with _ = Ok tt ?st => set (s' := st) in * end.
    assert (Hlay' : layout s' v' ys).
    { apply (layout_block _ _ _ bn []); cbn [v' data_ size_ buffer_ capacity_ length];
        try done; try lia.
      cbn [blocks s']. rewrite lookup_insert_eq. by rewrite app_nil_r. }
    exists s', v'. cbn [v' data_ size_ capacity_ buffer_].
    split; [done |]. split; [done |]. split; [done |]. split; [done |].
    split; [by apply (layout_well_formed _ _ _ Hlay') |].
    split; [by apply layout_elements |].
    split; [| split; [| done]].
    + apply layout_elements. apply (layout_frame s); [done |].
      intros b Hbuf. cbn [blocks s']. apply lookup_insert_ne.
      destruct Hlay as [Hnull | b' ? Hbuf' Hblk' _ _ _]; congruence.
    + intros _ Heq.
      destruct Hlay as [Hnull | b' ? Hbuf' Hblk' _ _ _]; congruence.
Qed.

(** The destructor on a Vector with storage in block [b] *)
Lemma Vector_dtor_block this v s es b rest :
  objs s !! this = Some v -> buffer_ (data_ v) = Ptr b 0 ->
  blocks s !! b = Some ((Some <$> es) ++ rest) ->
  Z.of_nat (length es) = size_ v ->
  Vector_dtor this s
  = Ok tt (mkState (delete this (objs s)) (delete b (blocks s))
                   (EvDelete (Ptr b 0) :: rev (destroy_events b 0 es) ++ trace s)).
Proof.
  intros Hthis Hbuf Hblk Hsz.
  unfold Vector_dtor. rewrite (bind_Ok _ _ _ _ _ (get_Ok this v s Hthis)).
  unfold GetAddress, RawMemory_dtor, Deallocate. rewrite Hbuf.
  pose proof (destroy_loop_trace b es [] rest s Hblk) as Hdestroy.
  cbn [length app] in Hdestroy.
  unfold destroy_n. replace (Z.to_nat (size_ v)) with (length es) by lia.
  rewrite (bind_Ok _ _ _ _ _ Hdestroy).
  erewrite bind_Ok.
  2:{ eapply operator_delete_Ok. cbn [blocks]. apply lookup_insert_eq. }
  cbn [objs blocks trace]. by rewrite delete_insert_eq.
Qed.

(** X22. The destructor of a well-formed Vector runs the destructor of each
    element, first to last, then releases the block of storage, and the
    object is gone; a Vector without storage releases nothing. *)
Theorem Vector_dtor_destroys_elements_then_releases
    (this : vref) (v : Vector) (s : state T) (es : list T)
    (Hthis : objs s !! this = Some v)
    (Hwf : well_formed s v = true)
    (Hes : elements s v = Some es) :
  exists s',
    Vector_dtor this s = Ok tt s' /\
    objs s' = delete this (objs s) /\
    match buffer_ (data_ v) with
    | nullptr => blocks s' = blocks s /\ trace s' = trace s
    | Ptr b _ =>
        blocks s' = delete b (blocks s) /\
        trace s' = EvDelete (Ptr b 0) :: rev (destroy_events b 0 es) ++ trace s
    end.
Proof.
  destruct (well_formed_layout_of s v es Hwf Hes) as (Hbounded & Hlay).
  destruct Hlay as [Hbuf _ Hsz _ | b rest Hbuf Hblk Hsz _ _]; rewrite Hbuf.
  - unfold Vector_dtor. rewrite (bind_Ok _ _ _ _ _ (get_Ok this v s Hthis)).
    unfold GetAddress, RawMemory_dtor, Deallocate. rewrite Hbuf, Hsz.
    unfold destroy_n. change (Z.to_nat 0) with 0%nat.
    cbn [destroy_loop]. eexists. split; [reflexivity |]. done.
  - eexists. split; [by apply (Vector_dtor_block this v s es b rest) |]. done.
Qed.

(** X23. Swap of two distinct Vectors exchanges their storage and sizes,
    hence their elements, without touching a block of storage or
    running a destructor; doing it twice restores the state.  Move
    assignment between distinct Vectors is that exchange: the elements
    the destination had are not destroyed, the source holds them
    afterwards. *)
Theorem Swap_exchanges_without_touching_storage
    (this other : vref) (a b : Vector) (s : state T)
    (Hthis : objs s !! this = Some a)
    (Hother : objs s !! other = Some b)
    (Hdistinct : this <> other) :
  exists s',
    Swap this other s = Ok tt s' /\
    assign_move this other s = Ok tt s' /\
    objs s' !! this = Some b /\ objs s' !! other = Some a /\
    blocks s' = blocks s /\ trace s' = trace s /\
    elements s' a = elements s a /\ elements s' b = elements s b /\
    Swap this other s' = Ok tt s.
Proof.
  pose proof (Swap_Ok this other a b s Hthis Hother) as Hrun.
  match type of Hrun with _ = Ok tt ?st => set (s' := st) in * end.
  assert (Ha' : objs s' !! this = Some b).
  { cbn [objs s']. rewrite lookup_insert_ne by done. apply lookup_insert_eq. }
  assert (Hb' : objs s' !! other = Some a) by (cbn [objs s']; apply lookup_insert_eq).
  exists s'. split; [done |]. split.
  { unfold assign_move. by rewrite bool_decide_eq_false_2. }
  split; [done |]. split; [done |]. split; [done |]. split; [done |].
  split; [by apply elements_same_blocks |]. split; [by apply elements_same_blocks |].
  rewrite (Swap_Ok this other b a s' Ha' Hb'). cbn [objs blocks trace s'].
  destruct s as [o bl tr]. cbn [objs blocks trace] in *. f_equal. f_equal.
  apply map_eq. intros i.
  destruct (decide (i = other)); destruct (decide (i = this));
    simplify_map_eq; done.
Qed.

(** ** Ownership of raw storage *)

(** X24. Moving a RawMemory hands the storage over, and destroying both
    objects afterwards releases the block once.  Move assignment
    between two distinct objects that both hold storage overwrites what
    the destination held without releasing it: after both destructors
    have run, that block is still allocated.  [Swap], which is what
    Vector uses, keeps both blocks owned, and both are released. *)
Theorem RawMemory_move_assignment_drops_storage
    (a b : RawMemory) (s : state T) (ba bb : block) (la lb : list (option T))
    (Ha : buffer_ a = Ptr ba 0)
    (Hb : buffer_ b = Ptr bb 0)
    (Hdistinct : ba <> bb)
    (Hla : blocks s !! ba = Some la)
    (Hlb : blocks s !! bb = Some lb) :
  let destroy_both (p : RawMemory * RawMemory) : M T unit :=
    RawMemory_dtor (fst p) ;;; RawMemory_dtor (snd p) in
  RawMemory_assign_move a b = (b, RawMemory_default) /\
  RawMemory_move b = (b, RawMemory_default) /\
  (exists s', destroy_both (RawMemory_assign_move a b) s = Ok tt s' /\
              blocks s' = delete bb (blocks s) /\
              blocks s' !! ba = Some la) /\
  (exists s', destroy_both (RawMemory_move b) s = Ok tt s' /\
              blocks s' = delete bb (blocks s)) /\
  (exists s', destroy_both (RawMemory_Swap a b) s = Ok tt s' /\
              blocks s' = delete ba (delete bb (blocks s))).
Proof.
  intros destroy_both.
  assert (Hdel : operator_delete (Ptr bb 0) s
                 = Ok tt (mkState (objs s) (delete bb (blocks s))
                                  (EvDelete (Ptr bb 0) :: trace s)))
    by (by apply (operator_delete_Ok bb lb)).
  split; [by destruct b |]. split; [by destruct b |].
  unfold destroy_both, RawMemory_assign_move, RawMemory_move, RawMemory_Swap,
    RawMemory_dtor, Deallocate.
  cbn [fst snd buffer_]. rewrite Ha, Hb.
  split; [| split].
  - eexists. split; [by rewrite (bind_Ok _ _ _ _ _ Hdel) |]. cbn [blocks].
    split; [done |]. by rewrite lookup_delete_ne.
  - eexists. split; [by rewrite (bind_Ok _ _ _ _ _ Hdel) |]. done.
  - eexists. split.
    + rewrite (bind_Ok _ _ _ _ _ Hdel).
      apply (operator_delete_Ok ba la). cbn [blocks]. by rewrite lookup_delete_ne.
    + done.
Qed.

(** The copy constructor on a non-empty source *)
Lemma Vector_copy_block new rhs r s xs ys :
  objs s !! rhs = Some r -> bounded r -> layout s r xs -> 0 < size_ r ->
  mapM copy_construct xs = Some ys ->
  let bn := fresh (dom (blocks s)) in
  Vector_copy new rhs s
  = Ok tt (mkState (<[new := mkVector (mkRawMemory (Ptr bn 0) (size_ r)) (size_ r)]>
                      (objs s))
                   (<[bn := Some <$> ys]> (blocks s))
                   (trace s)).
Proof.
  intros Hrhs Hbounded Hlay Hpos Hcopies bn.
  pose proof (Vector_copy_run new rhs r s xs Hrhs Hbounded Hlay Hpos) as Hrun.
  cbv zeta in Hrun. by rewrite Hcopies in Hrun.
Qed.

(** X25. Copy construction of a temporary followed by its destruction, as
    at the end of a scope: when every element can be copied, both
    return normally, and the Vector objects and the blocks of storage
    are as they were before; each copy is destroyed once, first to
    last, and the block of the temporary is released. *)
Theorem Vector_copy_then_destroy_restores_heap
    (new rhs : vref) (r : Vector) (s : state T) (xs ys : list T)
    (Hrhs : objs s !! rhs = Some r)
    (Hwf : well_formed s r = true)
    (Hxs : elements s r = Some xs)
    (Hnew : objs s !! new = None)
    (Hcopies : mapM copy_construct xs = Some ys) :
  exists s1 s2,
    Vector_copy new rhs s = Ok tt s1 /\
    Vector_dtor new s1 = Ok tt s2 /\
    objs s2 = objs s /\ blocks s2 = blocks s /\
    trace s2 = (if size_ r =? 0 then []
                else EvDelete (Ptr (fresh (dom (blocks s))) 0)
                     :: rev (destroy_events (fresh (dom (blocks s))) 0 ys))
               ++ trace s.
Proof.
  destruct (well_formed_layout_of s r xs Hwf Hxs) as (Hbounded & Hlay).
  pose proof (layout_length s r xs Hlay) as Hlen.
  pose proof (mapM_length_Some _ _ _ Hcopies) as Hlen'.
  pose proof Hbounded as [[Hs0 Hs1] Hb].
  destruct (Z.eqb_spec (size_ r) 0) as [Hzero | Hne].
  - set (v' := mkVector (mkRawMemory nullptr 0) 0).
    set (s1 := mkState (<[new := v']> (objs s)) (blocks s) (trace s)).
    exists s1, s. split; [| split].
    + unfold Vector_copy. rewrite (bind_Ok _ _ _ _ _ (get_Ok rhs r s Hrhs)).
      rewrite Hzero. reflexivity.
    + unfold Vector_dtor.
      erewrite bind_Ok; [| apply (get_Ok new v'); cbn [objs s1]; apply lookup_insert_eq].
      cbn [v' data_ size_ GetAddress buffer_]. unfold destroy_n.
      change (Z.to_nat 0) with 0%nat. cbn [destroy_loop].
      erewrite bind_Ok; [| reflexivity].
      erewrite bind_Ok; [| reflexivity].
      cbn [objs blocks trace s1]. rewrite delete_insert_id by done. by destruct s.
    + done.
  - set (bn := fresh (dom (blocks s))).
    assert (Hbn : blocks s !! bn = None) by apply fresh_block.
    pose proof (Vector_copy_block new rhs r s xs ys Hrhs Hbounded Hlay ltac:(lia) Hcopies)
      as Hrun1.
    cbv zeta in Hrun1. fold bn in Hrun1.
    match type of Hrun1 with _ = Ok tt ?st => set (s1 := st) in * end.
    set (v' := mkVector (mkRawMemory (Ptr bn 0) (size_ r)) (size_ r)) in *.
    pose proof (Vector_dtor_block new v' s1 ys bn []) as Hrun2.
    rewrite app_nil_r in Hrun2.
    specialize (Hrun2 (lookup_insert_eq _ _ _) eq_refl (lookup_insert_eq _ _ _)
                      ltac:(cbn [v' size_]; lia)).
    eexists s1, _. split; [done |]. split; [exact Hrun2 |].
    cbn [objs blocks trace s1].
    rewrite !delete_insert_id by done. done.
Qed.

(** ** Copy assignment within the capacity *)

(** [std::copy_n] from one block to another, for a copy assignment that
    assigns the value of its source. *)
Lemma copy_loop_Ok bs bd xs :
  (forall d x, copy_assign d x = Some x) ->
  bs <> bd ->
  forall ds pre_s post_s pre_d post_d s,
  blocks s !! bs = Some (pre_s ++ (Some <$> xs) ++ post_s) ->
  blocks s !! bd = Some (pre_d ++ (Some <$> ds) ++ post_d) ->
  length ds = length xs ->
  copy_loop (Ptr bs (Z.of_nat (length pre_s))) (Ptr bd (Z.of_nat (length pre_d)))
            (length xs) s
  = Ok tt (set_block bd (pre_d ++ (Some <$> xs) ++ post_d) s).
Proof.
  intros Hassign Hne.
  induction xs as [|x xs IH]; intros ds pre_s post_s pre_d post_d s Hs Hd Hlen.
  - destruct ds; [| done]. cbn. by rewrite set_block_id.
  - destruct ds as [|d ds]; [done |].
    cbn [length copy_loop fmap list_fmap app] in *.
    set (s1 := set_block bd (pre_d ++ Some x :: (Some <$> ds) ++ post_d) s).
    assert (Hstep : copy_assign_at (Ptr bd (Z.of_nat (length pre_d)))
                      (Ptr bs (Z.of_nat (length pre_s))) s = Ok tt s1).
    { unfold copy_assign_at.
      erewrite bind_Ok;
        [| eapply read_Ok; [exact Hd | lia | rewrite Nat2Z.id; by apply lookup_middle]].
      erewrite bind_Ok;
        [| eapply read_Ok; [exact Hs | lia | rewrite Nat2Z.id; by apply lookup_middle]].
      rewrite Hassign.
      erewrite write_Ok;
        [| exact Hd | lia | rewrite Nat2Z.id; by apply middle_lt_length].
      unfold s1. rewrite Nat2Z.id. by rewrite insert_middle. }
    rewrite (bind_Ok _ _ _ _ _ Hstep). cbn [ptr_add].
    replace (Z.of_nat (length pre_s) + 1)
      with (Z.of_nat (length (pre_s ++ [Some x])))
      by (rewrite length_app; cbn; lia).
    replace (Z.of_nat (length pre_d) + 1)
      with (Z.of_nat (length (pre_d ++ [Some x])))
      by (rewrite length_app; cbn; lia).
    rewrite (IH ds (pre_s ++ [Some x]) post_s (pre_d ++ [Some x]) post_d s1).
    + unfold s1. rewrite set_block_set_block. by rewrite <- app_assoc.
    + unfold s1. rewrite set_block_lookup_ne by done. rewrite Hs.
      by rewrite <- app_assoc.
    + unfold s1. rewrite set_block_lookup. by rewrite <- app_assoc.
    + by injection Hlen.
Qed.

Lemma mapM_copy_faithful xs :
  (forall x, copy_construct x = Some x) -> mapM copy_construct xs = Some xs.
Proof.
  intros Hcopy. apply mapM_Some. induction xs; constructor; auto.
Qed.

(** Copy assignment into a Vector with storage in block [bd], from a
    source that fits into its capacity. *)
Lemma assign_copy_in_place_run this rhs t r s es xs bd rest :
  this <> rhs ->
  objs s !! this = Some t -> objs s !! rhs = Some r ->
  buffer_ (data_ t) = Ptr bd 0 ->
  blocks s !! bd = Some ((Some <$> es) ++ rest) ->
  Z.of_nat (length es) = size_ t ->
  Z.of_nat (length es + length rest) = capacity_ (data_ t) ->
  capacity_ (data_ t) < 2 ^ 63 ->
  layout s r xs -> buffer_ (data_ r) <> Ptr bd 0 ->
  size_ r <= capacity_ (data_ t) ->
  (forall d x, copy_assign d x = Some x) ->
  (forall x, copy_construct x = Some x) ->
  assign_copy this rhs s
  = Ok tt (mkState (<[this := mkVector (data_ t) (size_ r)]> (objs s))
             (<[bd := (Some <$> xs) ++ replicate (length es - length xs) None
                      ++ drop (length xs - length es) rest]> (blocks s))
             (rev (destroy_events bd (length xs) (drop (length xs) es)) ++ trace s)).
Proof.
  intros Hne Hthis Hrhs Hbuf Hblk Hsz Hcap Hsmall Hlay Hown Hfits Hassign Hcopy.
  pose proof (layout_length s r xs Hlay) as Hlen.
  unfold assign_copy. rewrite bool_decide_eq_false_2 by done. cbn [negb].
  rewrite (bind_Ok _ _ _ _ _ (get_Ok rhs r s Hrhs)).
  rewrite (bind_Ok _ _ _ _ _ (get_Ok this t s Hthis)).
  rewrite Z.gtb_ltb.
  destruct (Z.ltb_spec (capacity_ (data_ t)) (size_ r)); [lia |].
  unfold GetAddress. rewrite Hbuf. cbn [ptr_add]. rewrite !Z.add_0_l.
  destruct (Z.ltb_spec (size_ r) (size_ t)) as [Hlt | Hge].
  - (* fewer elements than before *)
    set (k := length xs).
    assert (Hk : (k < length es)%nat) by lia.
    set (s1 := set_block bd ((Some <$> xs) ++ (Some <$> drop k es) ++ rest) s).
    assert (Hcopy1 : copy_n (buffer_ (data_ r)) (size_ r) (Ptr bd 0) s = Ok tt s1).
    { unfold copy_n. replace (Z.to_nat (size_ r)) with (length xs) by lia.
      destruct Hlay as [_ _ _ -> | bs rest_s Hbuf_s Hblk_s _ _ _].
      - cbn [length copy_loop]. unfold s1, k. cbn [length fmap list_fmap app].
        rewrite drop_0. by rewrite set_block_id.
      - rewrite Hbuf_s.
        assert (Hd : blocks s !! bd
                     = Some ([] ++ (Some <$> take k es) ++ (Some <$> drop k es) ++ rest)).
        { rewrite Hblk. cbn [app]. rewrite app_assoc, <- fmap_app.
          by rewrite take_drop. }
        apply (copy_loop_Ok bs bd xs Hassign ltac:(congruence) (take k es)
                 [] rest_s [] ((Some <$> drop k es) ++ rest) s Hblk_s Hd).
        rewrite length_take. lia. }
    pose proof (destroy_loop_trace bd (drop k es) (Some <$> xs) rest s1
                  (set_block_lookup _ _ _)) as Hdestroy.
    rewrite length_fmap in Hdestroy.
    match type of Hdestroy with _ = Ok tt ?st => set (s2 := st) in * end.
    assert (Hinner :
      (copy_n (buffer_ (data_ r)) (size_ r) (Ptr bd 0) ;;;
       destroy_n (Ptr bd (size_ r)) (wrap (size_ t - size_ r))) s = Ok tt s2).
    { rewrite (bind_Ok _ _ _ _ _ Hcopy1).
      rewrite wrap_small by lia. unfold destroy_n.
      replace (Z.to_nat (size_ t - size_ r)) with (length (drop k es))
        by (rewrite length_drop; lia).
      replace (size_ r) with (Z.of_nat (length xs)) by lia.
      exact Hdestroy. }
    rewrite (bind_Ok _ _ _ _ _ Hinner).
    rewrite (set_size_Ok this t) by (cbn [objs s2 s1 set_block]; exact Hthis).
    cbn [objs blocks trace s2 s1 set_block data_].
    rewrite insert_insert_eq, length_drop. fold k.
    replace (k - length es)%nat with 0%nat by lia. by rewrite drop_0.
  - (* at least as many elements as before *)
    set (m := length es).
    assert (Hm : (m <= length xs)%nat) by lia.
    set (j := (length xs - m)%nat).
    assert (Hj : (j <= length rest)%nat) by lia.
    set (s2 := set_block bd ((Some <$> xs) ++ drop j rest) s).
    assert (Hboth :
      (copy_n (buffer_ (data_ r)) (size_ t) (Ptr bd 0) ;;;
       uninitialized_copy_n (buffer_ (data_ r) +ₚ size_ t) (wrap (size_ r - size_ t))
                            (Ptr bd (size_ t))) s = Ok tt s2).
    { rewrite wrap_small by lia.
      unfold copy_n, uninitialized_copy_n.
      replace (Z.to_nat (size_ t)) with (length (take m xs))
        by (rewrite length_take; lia).
      replace (Z.to_nat (size_ r - size_ t)) with (length (drop m xs))
        by (rewrite length_drop; lia).
      destruct Hlay as [_ _ _ -> | bs rest_s Hbuf_s Hblk_s _ _ _].
      - assert (es = []) as -> by (destruct es; [done | cbn [length] in *; lia]).
        cbn. unfold s2, j, m. cbn [length fmap list_fmap app]. rewrite drop_0.
        cbn [app] in Hblk. by rewrite set_block_id.
      - rewrite Hbuf_s. cbn [ptr_add]. rewrite Z.add_0_l.
        assert (Hbne : bs <> bd) by congruence.
        assert (Hs : blocks s !! bs
                     = Some ([] ++ (Some <$> take m xs) ++ (Some <$> drop m xs) ++ rest_s)).
        { rewrite Hblk_s. cbn [app]. rewrite app_assoc, <- fmap_app.
          by rewrite take_drop. }
        assert (Hd : blocks s !! bd = Some ([] ++ (Some <$> es) ++ rest)) by done.
        erewrite bind_Ok.
        2:{ apply (copy_loop_Ok bs bd (take m xs) Hassign Hbne es
                     [] ((Some <$> drop m xs) ++ rest_s) [] rest s Hs Hd).
            rewrite length_take. lia. }
        cbn [app].
        set (s1 := set_block bd ((Some <$> take m xs) ++ rest) s).
        assert (Hs1 : blocks s1 !! bs
                      = Some ((Some <$> take m xs) ++ (Some <$> drop m xs) ++ rest_s)).
        { unfold s1. rewrite set_block_lookup_ne by done. exact Hs. }
        assert (Hd1 : blocks s1 !! bd
                      = Some ((Some <$> take m xs) ++ take j rest ++ drop j rest)).
        { unfold s1. rewrite set_block_lookup. by rewrite take_drop. }
        pose proof (uninitialized_copy_loop_Ok bs bd m m (drop m xs) (drop m xs) 0
                      (Some <$> take m xs) rest_s (Some <$> take m xs)
                      (take j rest) (drop j rest) s1 Hbne Hs1 Hd1) as Hloop.
        replace (size_ t) with (Z.of_nat m) by lia.
        transitivity (Ok tt (set_block bd ((Some <$> take m xs) ++ (Some <$> drop m xs)
                                           ++ drop j rest) s1)).
        + apply Hloop.
          * rewrite length_fmap, length_take. lia.
          * rewrite length_fmap, length_take. lia.
          * rewrite length_take, length_drop. lia.
          * by apply mapM_copy_faithful.
        + unfold s1, s2. rewrite set_block_set_block. f_equal. f_equal.
          rewrite app_assoc, <- fmap_app. by rewrite take_drop. }
    rewrite (bind_Ok _ _ _ _ _ Hboth).
    rewrite (set_size_Ok this t) by (cbn [objs s2 set_block]; exact Hthis).
    cbn [objs blocks trace s2 set_block data_].
    unfold j, m in *. replace (length es - length xs)%nat with 0%nat by lia.
    rewrite (drop_ge es (length xs)) by lia.
    cbn [replicate app destroy_events imap rev]. reflexivity.
Qed.

(** X26. Copy assignment from another Vector whose size is within the
    capacity of the destination, for an element type whose copy
    operations do not throw and give the value of their source: the
    call returns normally; the destination keeps its storage and
    capacity and holds the source's elements; where it had more
    elements than the source, the excess ones are destroyed, first to
    last; the source is unchanged. *)
Theorem copy_assignment_in_place
    (this rhs : vref) (t r : Vector) (s : state T) (es xs : list T)
    (Hdistinct : this <> rhs)
    (Hthis : objs s !! this = Some t)
    (Hrhs : objs s !! rhs = Some r)
    (Hwf_this : well_formed s t = true)
    (Hwf_rhs : well_formed s r = true)
    (Hes : elements s t = Some es)
    (Hxs : elements s r = Some xs)
    (Hown : buffer_ (data_ t) = nullptr \/ buffer_ (data_ t) <> buffer_ (data_ r))
    (Hfits : size_ r <= capacity_ (data_ t))
    (Hassign : forall d x, copy_assign d x = Some x)
    (Hcopy : forall x, copy_construct x = Some x) :
  let t' := mkVector (data_ t) (size_ r) in
  exists s',
    assign_copy this rhs s = Ok tt s' /\
    objs s' = <[this := t']> (objs s) /\
    well_formed s' t' = true /\
    elements s' t' = Some xs /\
    objs s' !! rhs = Some r /\
    elements s' r = Some xs /\
    match buffer_ (data_ t) with
    | nullptr => blocks s' = blocks s /\ trace s' = trace s
    | Ptr b _ =>
        (forall b', b' <> b -> blocks s' !! b' = blocks s !! b') /\
        trace s' = rev (destroy_events b (Z.to_nat (size_ r))
                                       (drop (Z.to_nat (size_ r)) es)) ++ trace s
    end.
Proof.
  intros t'.
  destruct (well_formed_layout_of s t es Hwf_this Hes) as (Hbounded & Hlay).
  destruct (well_formed_layout_of s r xs Hwf_rhs Hxs) as (Hbounded_r & Hlay_r).
  pose proof (layout_length s r xs Hlay_r) as Hlen.
  pose proof (bounded_capacity t Hbounded) as Hsmall.
  pose proof Hbounded as [[Hs0 Hs1] Hb].
  pose proof Hbounded_r as [[Hr0 Hr1] _].
  destruct Hlay as [Hbuf Hcap Hsz -> | bd rest Hbuf Hblk Hsz Hcap Hpos].
  - (* the destination has no storage: both Vectors are empty *)
    assert (xs = []) as -> by (destruct xs; [done | cbn [length] in *; lia]).
    assert (Hr : size_ r = 0) by (cbn [length] in Hlen; lia).
    set (s' := mkState (<[this := t']> (objs s)) (blocks s) (trace s)).
    assert (Hlay' : layout s' t' []) by (apply layout_null; cbn [t' data_ size_]; done).
    exists s'. rewrite Hbuf.
    split; [| split; [done | split; [| split; [| split; [| split; [| done]]]]]].
    + unfold assign_copy. rewrite bool_decide_eq_false_2 by done. cbn [negb].
      rewrite (bind_Ok _ _ _ _ _ (get_Ok rhs r s Hrhs)).
      rewrite (bind_Ok _ _ _ _ _ (get_Ok this t s Hthis)).
      rewrite Z.gtb_ltb.
      destruct (Z.ltb_spec (capacity_ (data_ t)) (size_ r)); [lia |].
      rewrite Hr, Hsz. cbn [Z.ltb Z.compare].
      unfold copy_n, uninitialized_copy_n. change (Z.to_nat (wrap (0 - 0))) with 0%nat.
      change (Z.to_nat 0) with 0%nat. cbn [copy_loop uninitialized_loop].
      erewrite bind_Ok; [| reflexivity].
      rewrite (set_size_Ok this t) by done. unfold s', t'. by rewrite Hr.
    + apply (layout_well_formed _ _ _ Hlay'). apply Hb.
    + by apply layout_elements.
    + cbn [objs s']. by rewrite lookup_insert_ne.
    + rewrite <- Hxs. by apply elements_same_blocks.
  - (* the destination has storage *)
    assert (Hown' : buffer_ (data_ r) <> Ptr bd 0).
    { destruct Hown as [Hnull | Hne]; congruence. }
    pose proof (assign_copy_in_place_run this rhs t r s es xs bd rest Hdistinct
                  Hthis Hrhs Hbuf Hblk Hsz Hcap Hsmall Hlay_r Hown' Hfits Hassign Hcopy)
      as Hrun.
    match type of Hrun with _ = Ok tt ?st => set (s' := st) in * end.
    assert (Hlay' : layout s' t' xs).
    { apply (layout_block _ _ _ bd
               (replicate (length es - length xs) None
                ++ drop (length xs - length es) rest));
        cbn [t' data_ size_]; try done.
      - cbn [blocks s']. apply lookup_insert_eq.
      - rewrite length_app, length_replicate, length_drop. lia. }
    exists s'. rewrite Hbuf.
    split; [done |]. split; [done |].
    split; [apply (layout_well_formed _ _ _ Hlay'); apply Hb |].
    split; [by apply layout_elements |].
    split; [cbn [objs s']; by rewrite lookup_insert_ne |].
    split; [| split].
    + apply layout_elements. apply (layout_frame s); [done |].
      intros b Hb'. cbn [blocks s']. apply lookup_insert_ne. congruence.
    + intros b' Hb'. cbn [blocks s']. by apply lookup_insert_ne.
    + cbn [trace s']. by replace (Z.to_nat (size_ r)) with (length xs) by lia.
Qed.

(** [std::copy_n] when the copy assignment of one element throws: the
    elements before it have been assigned, the rest is as it was. *)
Lemma copy_loop_Throw bs bd x xs2 d ds2 :
  bs <> bd -> copy_assign d x = None ->
  forall ds1 xs1, Forall2 (fun d y => copy_assign d y = Some y) ds1 xs1 ->
  forall pre_s post_s pre_d post_d s n,
  blocks s !! bs = Some (pre_s ++ (Some <$> xs1 ++ x :: xs2) ++ post_s) ->
  blocks s !! bd = Some (pre_d ++ (Some <$> ds1 ++ d :: ds2) ++ post_d) ->
  (length xs1 < n)%nat ->
  copy_loop (Ptr bs (Z.of_nat (length pre_s))) (Ptr bd (Z.of_nat (length pre_d))) n s
  = Throw element_exn (set_block bd (pre_d ++ (Some <$> xs1 ++ d :: ds2) ++ post_d) s).
Proof.
  intros Hne Hthrows ds1 xs1 Hprefix.
  induction Hprefix as [|d1 y1 ds1 xs1 Hy1 _ IH];
    intros pre_s post_s pre_d post_d s n Hs Hd Hn;
    (destruct n as [|n]; [cbn [length] in Hn; lia |]);
    cbn [length copy_loop fmap list_fmap app] in *.
  - apply bind_Throw. unfold copy_assign_at.
    erewrite bind_Ok;
      [| eapply read_Ok; [exact Hd | lia | rewrite Nat2Z.id; by apply lookup_middle]].
    erewrite bind_Ok;
      [| eapply read_Ok; [exact Hs | lia | rewrite Nat2Z.id; by apply lookup_middle]].
    rewrite Hthrows. by rewrite set_block_id.
  - set (s1 := set_block bd (pre_d ++ Some y1 :: (Some <$> ds1 ++ d :: ds2) ++ post_d) s).
    assert (Hstep : copy_assign_at (Ptr bd (Z.of_nat (length pre_d)))
                      (Ptr bs (Z.of_nat (length pre_s))) s = Ok tt s1).
    { unfold copy_assign_at.
      erewrite bind_Ok;
        [| eapply read_Ok; [exact Hd | lia | rewrite Nat2Z.id; by apply lookup_middle]].
      erewrite bind_Ok;
        [| eapply read_Ok; [exact Hs | lia | rewrite Nat2Z.id; by apply lookup_middle]].
      rewrite Hy1.
      erewrite write_Ok;
        [| exact Hd | lia | rewrite Nat2Z.id; by apply middle_lt_length].
      unfold s1. rewrite Nat2Z.id. by rewrite insert_middle. }
    rewrite (bind_Ok _ _ _ _ _ Hstep). cbn [ptr_add].
    replace (Z.of_nat (length pre_s) + 1)
      with (Z.of_nat (length (pre_s ++ [Some y1])))
      by (rewrite length_app; cbn; lia).
    replace (Z.of_nat (length pre_d) + 1)
      with (Z.of_nat (length (pre_d ++ [Some y1])))
      by (rewrite length_app; cbn; lia).
    rewrite (IH (pre_s ++ [Some y1]) post_s (pre_d ++ [Some y1]) post_d s1 n).
    + unfold s1. rewrite set_block_set_block. by rewrite <- app_assoc.
    + unfold s1. rewrite set_block_lookup_ne by done. rewrite Hs.
      by rewrite <- app_assoc.
    + unfold s1. rewrite set_block_lookup. by rewrite <- app_assoc.
    + lia.
Qed.

(** X27. Copy assignment within the capacity gives the basic guarantee
    only.  When the copy assignment of the element at some index
    throws, after the elements before it have been assigned, the
    exception leaves the call with the destination holding the source's
    values up to that index and its own old values from there on, at
    its old size and capacity; no destructor has run and the source is
    unchanged. *)
Theorem copy_assignment_in_place_is_not_atomic
    (this rhs : vref) (t r : Vector) (s : state T)
    (es1 es2 xs1 xs2 : list T) (e x : T)
    (Hdistinct : this <> rhs)
    (Hthis : objs s !! this = Some t)
    (Hrhs : objs s !! rhs = Some r)
    (Hwf_this : well_formed s t = true)
    (Hwf_rhs : well_formed s r = true)
    (Hes : elements s t = Some (es1 ++ e :: es2))
    (Hxs : elements s r = Some (xs1 ++ x :: xs2))
    (Hown : buffer_ (data_ t) <> buffer_ (data_ r))
    (Hfits : size_ r <= capacity_ (data_ t))
    (Hprefix : Forall2 (fun d y => copy_assign d y = Some y) es1 xs1)
    (Hthrows : copy_assign e x = None) :
  exists s',
    assign_copy this rhs s = Throw element_exn s' /\
    objs s' = objs s /\
    well_formed s' t = true /\
    elements s' t = Some (xs1 ++ e :: es2) /\
    elements s' r = Some (xs1 ++ x :: xs2) /\
    trace s' = trace s.
Proof.
  destruct (well_formed_layout_of s t _ Hwf_this Hes) as (Hbounded & Hlay).
  destruct (well_formed_layout_of s r _ Hwf_rhs Hxs) as (Hbounded_r & Hlay_r).
  pose proof (Forall2_length _ _ _ Hprefix) as Hsame.
  destruct Hlay as [_ _ _ Hnil | bd rest Hbuf Hblk Hsz Hcap Hpos];
    [by destruct es1 |].
  destruct Hlay_r as [_ _ _ Hnil | bs rest_s Hbuf_s Hblk_s Hsz_s Hcap_s Hpos_s];
    [by destruct xs1 |].
  assert (Hne : bs <> bd) by congruence.
  rewrite length_app in Hsz, Hsz_s, Hcap. cbn [length] in Hsz, Hsz_s, Hcap.
  set (s' := set_block bd ((Some <$> xs1 ++ e :: es2) ++ rest) s).
  assert (Hloop : forall n, (length xs1 < n)%nat ->
            copy_loop (Ptr bs 0) (Ptr bd 0) n s = Throw element_exn s').
  { intros n Hn.
    apply (copy_loop_Throw bs bd x xs2 e es2 Hne Hthrows es1 xs1 Hprefix
             [] rest_s [] rest s n Hblk_s Hblk Hn). }
  assert (Hlay' : layout s' t (xs1 ++ e :: es2)).
  { apply (layout_block _ _ _ bd rest); try done.
    - apply set_block_lookup.
    - rewrite length_app. cbn [length]. lia.
    - rewrite length_app. cbn [length]. lia. }
  exists s'. split; [| split; [done | split; [| split; [| split; [| done]]]]].
  - unfold assign_copy. rewrite bool_decide_eq_false_2 by done. cbn [negb].
    rewrite (bind_Ok _ _ _ _ _ (get_Ok rhs r s Hrhs)).
    rewrite (bind_Ok _ _ _ _ _ (get_Ok this t s Hthis)).
    rewrite Z.gtb_ltb.
    destruct (Z.ltb_spec (capacity_ (data_ t)) (size_ r)); [lia |].
    unfold GetAddress. rewrite Hbuf, Hbuf_s.
    apply bind_Throw.
    destruct (Z.ltb_spec (size_ r) (size_ t)); apply bind_Throw; unfold copy_n;
      apply Hloop; lia.
  - apply (layout_well_formed _ _ _ Hlay'). apply Hbounded.
  - by apply layout_elements.
  - apply layout_elements. apply (layout_frame s).
    + apply (layout_block _ _ _ bs rest_s); try done.
      rewrite length_app. cbn [length]. lia.
    + intros b Hb. rewrite Hbuf_s in Hb. injection Hb as <-.
      unfold s'. by rewrite set_block_lookup_ne.
Qed.

(** ** How the operations compose *)

(** X28. After [Reserve(n)] with [n] above the size, EmplaceBack constructs
    in place: it returns an address in the storage that Reserve left,
    and the storage pointer and the capacity stay as Reserve left
    them. *)
Theorem Reserve_then_EmplaceBack_keeps_storage
    (this : vref) (v : Vector) (s : state T) (es : list T) (n : Z) (x : T)
    (Hthis : objs s !! this = Some v)
    (Hwf : well_formed s v = true)
    (Hes : elements s v = Some es)
    (Hvalues : value_semantics)
    (Hn : size_ v < n)
    (Hfit : capacity_ (data_ v) < n -> n * sizeof <= max_alloc) :
  exists s1 v1 s2 v2,
    Reserve this n s = Ok tt s1 /\
    objs s1 !! this = Some v1 /\
    capacity_ (data_ v1) = Z.max (capacity_ (data_ v)) n /\
    EmplaceBack this (Some x) s1 = Ok (buffer_ (data_ v1) +ₚ size_ v) s2 /\
    objs s2 !! this = Some v2 /\
    data_ v2 = data_ v1 /\
    size_ v2 = size_ v + 1 /\
    elements s2 v2 = Some (es ++ [x]).
Proof.
  destruct (well_formed_layout_of s v es Hwf Hes) as (Hbounded & Hlay).
  pose proof Hbounded as [[Hs0 Hs1] Hb].
  destruct (Reserve_for this v s n es Hthis Hbounded Hlay Hvalues Hfit)
    as (s1 & d1 & Hrun1 & Hobjs1 & Hcap1 & Hlay1 & Hfit1 & _).
  set (v1 := mkVector d1 (size_ v)) in *.
  assert (Hthis1 : objs s1 !! this = Some v1)
    by (rewrite Hobjs1; apply lookup_insert_eq).
  assert (Hsmall1 : capacity_ d1 < 2 ^ 63) by nia.
  destruct Hlay1 as [_ Hc _ _ | b rest Hbuf Hblk Hsz Hcap Hpos];
    cbn [v1 data_ size_] in *; [lia |].
  pose proof (EmplaceBack_room this v1 s1 es b rest x Hthis1 Hbuf Hblk Hsz Hcap) as Hrun2.
  cbn [v1 data_ size_] in Hrun2.
  specialize (Hrun2 ltac:(lia) Hsmall1).
  destruct rest as [|r0 rest]; [cbn [length] in Hcap; lia |]. cbn [drop] in Hrun2.
  rewrite drop_0 in Hrun2.
  match type of Hrun2 with _ = Ok _ ?st => set (s2 := st) in * end.
  exists s1, v1, s2, (mkVector d1 (size_ v + 1)). cbn [v1 data_ size_].
  rewrite Hbuf. cbn [ptr_add]. rewrite Z.add_0_l.
  split; [done |]. split; [done |]. split; [done |]. split; [done |].
  split; [cbn [objs s2]; apply lookup_insert_eq |].
  split; [done |]. split; [done |].
  apply layout_elements.
  apply (layout_block _ _ _ b rest); cbn [data_ size_]; try done.
  - cbn [s2 blocks]. rewrite lookup_insert_eq. f_equal.
    rewrite fmap_app, <- app_assoc. reflexivity.
  - rewrite length_app. cbn [length]. lia.
  - rewrite length_app. cbn [length] in *. lia.
Qed.

(** X29. Erase at an index followed by Emplace of the erased value at the
    position Erase returned, for a trivially destructible element type
    with value semantics:
    both calls return that position, and afterwards every Vector object
    is as it was before, same storage pointer, capacity and size, with
    the same elements. *)
Theorem Erase_then_Emplace_restores_vector
    (this : vref) (v : Vector) (s : state T) (es : list T) (i : Z) (x : T)
    (Hthis : objs s !! this = Some v)
    (Hwf : well_formed s v = true)
    (Hes : elements s v = Some es)
    (Hvalues : value_semantics)
    (Htrivial : is_trivially_destructible = true)
    (Hindex : 0 <= i)
    (Hx : es !! Z.to_nat i = Some x) :
  let pos := buffer_ (data_ v) +ₚ i in
  exists s1 s2,
    Erase this pos s = Ok pos s1 /\
    Emplace this pos (Some x) s1 = Ok pos s2 /\
    objs s2 = objs s /\
    elements s2 v = Some es.
Proof.
  intros pos.
  destruct (well_formed_layout_of s v es Hwf Hes) as (Hbounded & Hlay).
  pose proof (layout_length s v es Hlay) as Hlen.
  pose proof Hbounded as [[Hs0 Hs1] Hb].
  apply lookup_lt_Some in Hx as Hlt.
  assert (Hi : Z.of_nat (length (take (Z.to_nat i) es)) = i)
    by (apply take_drop_length; lia).
  pose proof Hlay as Hlay0.
  rewrite <- (take_drop_middle es (Z.to_nat i) x Hx) in Hlay.
  set (es1 := take (Z.to_nat i) es) in *.
  set (es2 := drop (S (Z.to_nat i)) es) in *.
  destruct (Erase_at this v s es1 x es2 Htrivial Hthis Hbounded Hlay Hvalues)
    as (s1 & Hrun1 & Hobjs1 & Hlay1).
  rewrite Hi in Hrun1. fold pos in Hrun1.
  set (v1 := mkVector (data_ v) (size_ v - 1)) in *.
  assert (Hthis1 : objs s1 !! this = Some v1)
    by (rewrite Hobjs1; apply lookup_insert_eq).
  assert (Hbounded1 : bounded v1).
  { split; [split |]; cbn [v1 data_ size_]; [lia | lia | done]. }
  destruct (Emplace_room this v1 s1 es1 es2 x Hthis1 Hbounded1 Hlay1 Hvalues)
    as (s2 & Hrun2 & Hobjs2 & Hlay2 & _).
  { cbn [v1 data_ size_]. lia. }
  cbn [v1 data_ size_] in Hrun2, Hobjs2, Hlay2.
  rewrite Hi in Hrun2. fold pos in Hrun2.
  replace (size_ v - 1 + 1) with (size_ v) in * by lia.
  assert (Hv : mkVector (data_ v) (size_ v) = v) by (by destruct v).
  rewrite Hv in *.
  exists s1, s2. split; [done |]. split; [done |].
  split.
  - rewrite Hobjs2, Hobjs1, insert_insert_eq. by apply insert_id.
  - unfold es1, es2 in Hlay2. rewrite (take_drop_middle es (Z.to_nat i) x Hx) in Hlay2.
    by apply layout_elements.
Qed.
End Properties.

(** Witness of C9: moving the Vector [1, 2] at address 0 into a new
    object at address 1. *)
Lemma move_construction_transfers_witness :
  @Vector_move Z 1%nat 0%nat full_pair
  = Ok tt (mkState (<[0%nat := mkVector (mkRawMemory nullptr 0) 0]>
                      (<[1%nat := mkVector (mkRawMemory (Ptr 0%nat 0) 2) 2]>
                         (objs full_pair)))
                   (blocks full_pair) (trace full_pair)).
Proof.
  refine (proj1 (@move_construction_transfers Z 1%nat 0%nat
                   (mkVector (mkRawMemory (Ptr 0%nat 0) 2) 2) full_pair _ _)).
  - reflexivity.
  - lia.
Defined.

(** C1 fails on the code.  [PopBack] on the Vector [1, 2] of capacity 2
    decrements the size to 1 and leaves the capacity at 2, but the
    destructor it runs is the one call recorded in the trace: on the
    address of index 2, one past the last element, where no object
    lives.  The last element, the 2 at index 1, is still alive in its
    slot. *)
Theorem PopBack_destroys_past_the_end :
  @PopBack Z int_element 0%nat full_pair
  = Ok tt (mkState {[ 0%nat := mkVector (mkRawMemory (Ptr 0%nat 0) 2) 1 ]}
                   {[ 0%nat := [Some 1; Some 2] ]}
                   [EvDestroy (Ptr 0%nat 2) None]).
Proof. vm_compute. reflexivity. Qed.

(** C3 fails on the code.  [Emplace] of 7 at index 0 of the Vector
    [13, 2] of capacity 4, whose element type throws when 13 is moved:
    the trailing slot (index 2) is constructed from the last element,
    the backward shift throws on moving the 13, and the handler calls
    [operator delete] on [end()], a pointer into the middle of the
    block.  No destructor runs (the trace holds the deallocation only),
    the object in the trailing slot is still alive, and the run ends in
    undefined behaviour instead of the exception. *)
Theorem Emplace_rollback_deletes_instead_of_destroying :
  @Emplace Z fussy_element small_heap 0%nat (Ptr 0%nat 0) (Some 7) roomy_pair
  = Fault (mkState {[ 0%nat := mkVector (mkRawMemory (Ptr 0%nat 0) 4) 2 ]}
                   {[ 0%nat := [Some 13; Some 0; Some 2; None] ]}
                   [EvDelete (Ptr 0%nat 2)]).
Proof. vm_compute. reflexivity. Qed.

(** C5 fails on the code.  The byte count [n * sizeof(T)] that Reserve
    hands to [operator new] is computed in [size_t] and no one checks it
    for overflow.  On the Vector [1, 2] of capacity 2 of [int]
    (4 bytes): [Reserve(2^62)] has a byte count that wraps around to 0,
    the allocator hands out a block without a slot and the transfer of
    the first element writes outside of it (undefined behaviour);
    [Reserve(2^62 + 3)] has a byte count that wraps around to 12, the
    call returns and the Vector reports the capacity [2^62 + 3] over a
    block of 3 slots, so its capacity no longer is the number of slots
    of its storage. *)
Theorem Reserve_does_not_check_the_byte_count :
  @Reserve Z int_element small_heap 0%nat (2 ^ 62) full_pair
  = Fault (mkState {[ 0%nat := mkVector (mkRawMemory (Ptr 0%nat 0) 2) 2 ]}
                   {[ 0%nat := [Some 1; Some 2]; 1%nat := [] ]}
                   []) /\
  @Reserve Z int_element small_heap 0%nat (2 ^ 62 + 3) full_pair
  = Ok tt (mkState {[ 0%nat := mkVector (mkRawMemory (Ptr 1%nat 0) (2 ^ 62 + 3)) 2 ]}
                   {[ 1%nat := [Some 1; Some 2; None] ]}
                   [EvDelete (Ptr 0%nat 0);
                    EvDestroy (Ptr 0%nat 1) (Some 2);
                    EvDestroy (Ptr 0%nat 0) (Some 1)]) /\
  @well_formed Z int_element small_heap
    (mkState {[ 0%nat := mkVector (mkRawMemory (Ptr 1%nat 0) (2 ^ 62 + 3)) 2 ]}
             {[ 1%nat := [Some 1; Some 2; None] ]}
             [EvDelete (Ptr 0%nat 0);
              EvDestroy (Ptr 0%nat 1) (Some 2);
              EvDestroy (Ptr 0%nat 0) (Some 1)])
    (mkVector (mkRawMemory (Ptr 1%nat 0) (2 ^ 62 + 3)) 2)
  = false.
Proof. repeat split; vm_compute; reflexivity. Qed.

(** C7 fails on the code.  On the Vector [1, 2] of capacity 2 of a
    class whose destructor is not trivial, [Insert] of 99 at index 1
    moves the elements to new storage and returns the position of the
    99, index 1 of the new block, which holds [1, 99, 2].  [Erase] at
    that position shifts the 2 down and ends in [PopBack], whose
    destructor call lands on the address of index 3, one past the last
    element, where no object lives: the run ends in undefined behaviour
    instead of returning, and the moved-from object at index 2 is never
    destroyed. *)
Theorem Insert_then_Erase_destroys_past_the_end :
  @Insert_copy Z fussy_element small_heap 0%nat (Ptr 0%nat 1) 99 full_pair
  = Ok (Ptr 1%nat 1)
       (mkState {[ 0%nat := mkVector (mkRawMemory (Ptr 1%nat 0) 4) 3 ]}
                {[ 1%nat := [Some 1; Some 99; Some 2; None] ]}
                [EvDelete (Ptr 0%nat 0);
                 EvDestroy (Ptr 0%nat 1) (Some 2);
                 EvDestroy (Ptr 0%nat 0) (Some 1)]) /\
  @Erase Z fussy_element 0%nat (Ptr 1%nat 1)
    (mkState {[ 0%nat := mkVector (mkRawMemory (Ptr 1%nat 0) 4) 3 ]}
             {[ 1%nat := [Some 1; Some 99; Some 2; None] ]}
             [EvDelete (Ptr 0%nat 0);
              EvDestroy (Ptr 0%nat 1) (Some 2);
              EvDestroy (Ptr 0%nat 0) (Some 1)])
  = Fault (mkState {[ 0%nat := mkVector (mkRawMemory (Ptr 1%nat 0) 4) 2 ]}
                   {[ 1%nat := [Some 1; Some 2; Some 0; None] ]}
                   [EvDestroy (Ptr 1%nat 3) None;
                    EvDelete (Ptr 0%nat 0);
                    EvDestroy (Ptr 0%nat 1) (Some 2);
                    EvDestroy (Ptr 0%nat 0) (Some 1)]).
Proof. split; vm_compute; reflexivity. Qed.

(** ** Runs on concrete Vectors *)

(** Witness of C2: EmplaceBack with a throwing constructor on the full
    Vector [1, 2]. *)
Lemma EmplaceBack_strong_guarantee_witness :
  exists e s',
    @EmplaceBack Z int_element small_heap 0%nat None full_pair = Throw e s' /\
    objs s' = objs full_pair /\ blocks s' = blocks full_pair /\
    objs s' !! 0%nat = Some (mkVector (mkRawMemory (Ptr 0%nat 0) 2) 2) /\
    elements s' (mkVector (mkRawMemory (Ptr 0%nat 0) 2) 2)
    = elements full_pair (mkVector (mkRawMemory (Ptr 0%nat 0) 2) 2).
Proof.
  apply (@EmplaceBack_strong_guarantee Z int_element small_heap).
  - reflexivity.
  - reflexivity.
  - reflexivity.
  - reflexivity.
  - unfold bounded, sizes_ok. simpl. lia.
  - reflexivity.
Defined.

(** Witness of C4: EmplaceBack of 3 on the full Vector [1, 2] returns
    normally with capacity 4. *)
Lemma growth_doubles_capacity_witness :
  match @EmplaceBack Z int_element small_heap 0%nat (Some 3) full_pair with
  | Ok _ s' =>
      exists v', objs s' !! 0%nat = Some v' /\
                 capacity_ (data_ v') = Z.max 1 (2 * 2) /\ size_ v' = 2 + 1
  | _ => False
  end.
Proof.
  pose proof (@growth_doubles_capacity Z int_element small_heap
                ltac:(reflexivity) ltac:(reflexivity)
                0%nat (mkVector (mkRawMemory (Ptr 0%nat 0) 2) 2) full_pair 2
                ltac:(reflexivity)
                ltac:(unfold bounded, sizes_ok; simpl; lia)
                ltac:(reflexivity) ltac:(reflexivity)) as [Hgrown _].
  destruct (@EmplaceBack Z int_element small_heap 0%nat (Some 3) full_pair)
    as [r s' | e s' | s'] eqn:Hrun.
  - exact (Hgrown (Some 3) r s' Hrun).
  - vm_compute in Hrun. discriminate Hrun.
  - vm_compute in Hrun. discriminate Hrun.
Defined.

(** Witness of C6: copy assignment of [7, 13, 9] to the Vector [1, 2] of
    capacity 2.  With [int] elements every copy succeeds and the
    destination holds [7, 13, 9]; with the element type that throws on
    copying 13, the assignment throws and nothing has changed. *)
Lemma copy_assignment_by_copy_and_swap_witness :
  (exists s' v',
     @assign_copy Z int_element small_heap 0%nat 1%nat two_vectors = Ok tt s' /\
     objs s' !! 0%nat = Some v' /\ size_ v' = 3 /\
     elements s' v' = Some [7; 13; 9]) /\
  (exists s',
     @assign_copy Z fussy_element small_heap 0%nat 1%nat two_vectors
     = Throw element_exn s' /\
     objs s' = objs two_vectors /\ blocks s' = blocks two_vectors).
Proof.
  split.
  - refine (@copy_assignment_by_copy_and_swap Z int_element small_heap _ _
              0%nat 1%nat (mkVector (mkRawMemory (Ptr 0%nat 0) 2) 2)
              (mkVector (mkRawMemory (Ptr 1%nat 0) 3) 3) two_vectors [7; 13; 9]
              _ _ _ _ _ _ _);
      first [reflexivity | lia].
  - refine (@copy_assignment_by_copy_and_swap Z fussy_element small_heap _ _
              0%nat 1%nat (mkVector (mkRawMemory (Ptr 0%nat 0) 2) 2)
              (mkVector (mkRawMemory (Ptr 1%nat 0) 3) 3) two_vectors [7; 13; 9]
              _ _ _ _ _ _ _);
      first [reflexivity | lia].
Defined.

(** Witness of C8: PopBack and Resize(5) on the Vector [1, 2] return
    normally and leave the sizes in order. *)
Lemma sizes_stay_in_order_witness :
  match @PopBack Z int_element 0%nat full_pair with
  | Ok _ s' => keeps 0%nat (mkVector (mkRawMemory (Ptr 0%nat 0) 2) 2) s'
  | _ => False
  end /\
  match @Resize Z int_element small_heap 0%nat 5 full_pair with
  | Ok _ s' => keeps 0%nat (mkVector (mkRawMemory (Ptr 0%nat 0) 2) 2) s'
  | _ => False
  end.
Proof.
  pose proof (@sizes_stay_in_order Z int_element small_heap
                ltac:(reflexivity) ltac:(reflexivity)
                0%nat (mkVector (mkRawMemory (Ptr 0%nat 0) 2) 2) full_pair
                ltac:(reflexivity)
                ltac:(unfold bounded, sizes_ok; simpl; lia))
    as (_ & _ & _ & _ & _ & _ & _ & Hpop & Hresize & _).
  specialize (Hresize 5 ltac:(lia)).
  unfold kept, holds in Hpop, Hresize.
  split.
  - destruct (@PopBack Z int_element 0%nat full_pair) as [r s' | e s' | s'] eqn:Hrun.
    + exact Hpop.
    + vm_compute in Hrun. discriminate Hrun.
    + vm_compute in Hrun. discriminate Hrun.
  - destruct (@Resize Z int_element small_heap 0%nat 5 full_pair)
      as [r s' | e s' | s'] eqn:Hrun.
    + exact Hresize.
    + vm_compute in Hrun. discriminate Hrun.
    + vm_compute in Hrun. discriminate Hrun.
Defined.

(** C8 as stated fails on the code: an operation that changes the
    capacity can decrease it.  Move assignment from an empty Vector
    without storage to the Vector [1, 2] of capacity 2 leaves the
    assigned Vector with capacity 0. *)
Lemma move_assignment_decreases_capacity :
  ~ (forall (this rhs : vref) (s s' : state Z) (v v' : Vector),
       objs s !! this = Some v ->
       @assign_move Z this rhs s = Ok tt s' ->
       objs s' !! this = Some v' ->
       capacity_ (data_ v) <= capacity_ (data_ v')).
Proof.
  intros Hmono.
  specialize (Hmono 0%nat 1%nat pair_and_empty
                (mkState {[ 0%nat := mkVector (mkRawMemory nullptr 0) 0;
                            1%nat := mkVector (mkRawMemory (Ptr 0%nat 0) 2) 2 ]}
                         {[ 0%nat := [Some 1; Some 2] ]} [])
                (mkVector (mkRawMemory (Ptr 0%nat 0) 2) 2)
                (mkVector (mkRawMemory nullptr 0) 0)).
  assert (Hle : 2 <= 0); [| lia].
  apply Hmono; vm_compute; reflexivity.
Qed.

(** ** Further runs on concrete Vectors *)

Ltac values_ok := repeat split; intros; try eexists; reflexivity.

(** Witness of X1: EmplaceBack of 7 on the Vector [13, 2] of capacity 4. *)
Lemma EmplaceBack_with_room_constructs_in_place_witness :
  exists s',
    @EmplaceBack Z int_element small_heap 0%nat (Some 7) roomy_pair
    = Ok (Ptr 0%nat 2) s' /\
    elements s' (mkVector (mkRawMemory (Ptr 0%nat 0) 4) 3) = Some [13; 2; 7] /\
    trace s' = [].
Proof.
  destruct (@EmplaceBack_with_room_constructs_in_place Z int_element small_heap
              ltac:(reflexivity) ltac:(reflexivity)
              0%nat (mkVector (mkRawMemory (Ptr 0%nat 0) 4) 2) roomy_pair [13; 2] 7
              ltac:(reflexivity) ltac:(reflexivity) ltac:(reflexivity)
              ltac:(simpl; lia))
    as (s' & Hrun & _ & _ & Hes & _ & Htrace & _).
  exists s'. split; [exact Hrun |]. split; [exact Hes | exact Htrace].
Defined.

(** Witness of X2: EmplaceBack with a throwing constructor on the Vector [13, 2] of
    capacity 4. *)
Lemma EmplaceBack_with_room_constructor_throws_witness :
  @EmplaceBack Z int_element small_heap 0%nat None roomy_pair
  = Throw element_exn roomy_pair.
Proof.
  apply (@EmplaceBack_with_room_constructor_throws Z int_element small_heap
           ltac:(reflexivity)
           0%nat (mkVector (mkRawMemory (Ptr 0%nat 0) 4) 2) roomy_pair
           ltac:(reflexivity) ltac:(reflexivity) ltac:(simpl; lia)).
Defined.

(** Witness of X3: EmplaceBack of 3 on the full Vector [1, 2]. *)
Lemma EmplaceBack_full_moves_to_new_storage_witness :
  exists s' v',
    @EmplaceBack Z int_element small_heap 0%nat (Some 3) full_pair
    = Ok (buffer_ (data_ v') +ₚ 2) s' /\
    capacity_ (data_ v') = 4 /\
    elements s' v' = Some [1; 2; 3] /\
    blocks s' !! 0%nat = None.
Proof.
  destruct (@EmplaceBack_full_moves_to_new_storage Z int_element small_heap
              ltac:(reflexivity) ltac:(reflexivity) ltac:(reflexivity)
              0%nat (mkVector (mkRawMemory (Ptr 0%nat 0) 2) 2) full_pair [1; 2] 3
              ltac:(reflexivity) ltac:(reflexivity) ltac:(reflexivity)
              ltac:(values_ok) ltac:(reflexivity) ltac:(simpl; lia))
    as (s' & v' & Hrun & _ & _ & Hcap & _ & Hes & _ & _ & Hold & _).
  exists s', v'. split; [exact Hrun |]. split; [exact Hcap |].
  split; [exact Hes |]. exact (Hold 0%nat eq_refl).
Defined.

(** Witness of X4: PushBack of 3 on the full Vector [1, 2]. *)
Lemma PushBack_appends_witness :
  exists s' v',
    @PushBack_copy Z int_element small_heap 0%nat 3 full_pair = Ok tt s' /\
    objs s' !! 0%nat = Some v' /\
    elements s' v' = Some [1; 2; 3].
Proof.
  destruct (@PushBack_appends Z int_element small_heap
              ltac:(reflexivity) ltac:(reflexivity) ltac:(reflexivity)
              0%nat (mkVector (mkRawMemory (Ptr 0%nat 0) 2) 2) full_pair [1; 2] 3
              ltac:(reflexivity) ltac:(reflexivity) ltac:(reflexivity)
              ltac:(values_ok) ltac:(intros _; simpl; lia))
    as [(s' & v' & Hrun & Hobjs & _ & _ & Hes) _].
  exists s', v'. split; [exact Hrun |]. split; [| exact Hes].
  rewrite Hobjs. apply lookup_insert_eq.
Defined.

(** Witness of X5: EmplaceBack of 5 on the full Vector [7, 13, 9] of a class whose copy
    constructor throws on 13. *)
Lemma EmplaceBack_copy_failure_rolls_back_witness :
  exists s',
    @EmplaceBack Z fussy_element small_heap 1%nat (Some 5) two_vectors
    = Throw element_exn s' /\
    objs s' = objs two_vectors /\ blocks s' = blocks two_vectors.
Proof.
  destruct (@EmplaceBack_copy_failure_rolls_back Z fussy_element small_heap
              ltac:(reflexivity) ltac:(reflexivity) ltac:(reflexivity)
              1%nat (mkVector (mkRawMemory (Ptr 1%nat 0) 3) 3) two_vectors [7; 13; 9] 5
              ltac:(reflexivity) ltac:(reflexivity) ltac:(reflexivity)
              ltac:(reflexivity) ltac:(reflexivity) ltac:(reflexivity)
              ltac:(simpl; lia) ltac:(reflexivity))
    as (s' & Hrun & Hobjs & Hblocks & _).
  exists s'. split; [exact Hrun |]. split; [exact Hobjs | exact Hblocks].
Defined.

(** Witness of X6: growth of the full Vector [1, 2] with an allocator that has eight
    bytes. *)
Lemma growth_without_storage_throws_bad_alloc_witness :
  @EmplaceBack Z int_element tiny_heap 0%nat (Some 3) full_pair
  = Throw bad_alloc full_pair /\
  @Reserve Z int_element tiny_heap 0%nat 3 full_pair = Throw bad_alloc full_pair.
Proof.
  destruct (@growth_without_storage_throws_bad_alloc Z int_element tiny_heap
              ltac:(reflexivity) ltac:(reflexivity) ltac:(reflexivity)
              0%nat (mkVector (mkRawMemory (Ptr 0%nat 0) 2) 2) full_pair
              ltac:(reflexivity) ltac:(unfold bounded, sizes_ok; simpl; lia))
    as [Hfull Hreserve].
  split.
  - exact (proj1 (Hfull ltac:(reflexivity) ltac:(simpl; lia)) (Some 3)).
  - exact (Hreserve 3 ltac:(simpl; lia) ltac:(simpl; lia)).
Defined.

(** Witness of X7: Reserve(10) on the Vector [7, 13, 9] of a class whose copy
    constructor throws on 13. *)
Lemma Reserve_copy_failure_rolls_back_witness :
  exists s',
    @Reserve Z fussy_element small_heap 1%nat 10 two_vectors
    = Throw element_exn s' /\
    objs s' = objs two_vectors /\ blocks s' = blocks two_vectors.
Proof.
  destruct (@Reserve_copy_failure_rolls_back Z fussy_element small_heap
              ltac:(reflexivity) ltac:(reflexivity)
              1%nat (mkVector (mkRawMemory (Ptr 1%nat 0) 3) 3) two_vectors [7; 13; 9] 10
              ltac:(reflexivity) ltac:(reflexivity) ltac:(reflexivity)
              ltac:(reflexivity) ltac:(reflexivity) ltac:(simpl; lia)
              ltac:(simpl; lia) ltac:(reflexivity))
    as (s' & Hrun & Hobjs & Hblocks & _).
  exists s'. split; [exact Hrun |]. split; [exact Hobjs | exact Hblocks].
Defined.

(** Witness of X8: Reserve of [2^62] four-byte elements on an empty Vector: the byte
    count wraps around to 0. *)
Lemma Reserve_byte_count_wraps_around_witness :
  exists s' v' l,
    @Reserve Z int_element small_heap 1%nat (2 ^ 62) pair_and_empty = Ok tt s' /\
    capacity_ (data_ v') = 2 ^ 62 /\
    storage s' v' = Some l /\
    Z.of_nat (length l) = 0.
Proof.
  destruct (@Reserve_byte_count_wraps_around Z int_element small_heap
              ltac:(reflexivity)
              1%nat (mkVector (mkRawMemory nullptr 0) 0) pair_and_empty (2 ^ 62)
              ltac:(reflexivity) ltac:(reflexivity) ltac:(reflexivity)
              ltac:(simpl; lia) ltac:(simpl; lia) ltac:(vm_compute; discriminate))
    as (s' & v' & l & Hrun & _ & _ & Hcap & Hstorage & Hlen & _).
  exists s', v', l. split; [exact Hrun |]. split; [exact Hcap |].
  split; [exact Hstorage | exact Hlen].
Defined.

(** Witness of X9: PopBack on the Vector [1, 2] of [int]: 2 is still
    live at index 1; and on the Vector [1, 2] of a class whose
    destructor is not trivial. *)
Lemma PopBack_removes_last_without_destroying_it_witness :
  (exists s' found,
     @PopBack Z int_element 0%nat full_pair = Ok tt s' /\
     elements s' (mkVector (mkRawMemory (Ptr 0%nat 0) 2) 1) = Some [1] /\
     read (Ptr 0%nat 1) s' = Ok 2 s' /\
     trace s' = [EvDestroy (Ptr 0%nat 2) found]) /\
  @PopBack Z fussy_element 0%nat full_pair
  = Fault (mkState (<[0%nat := mkVector (mkRawMemory (Ptr 0%nat 0) 2) 1]>
                      (objs full_pair))
                   (blocks full_pair) [EvDestroy (Ptr 0%nat 2) None]).
Proof.
  split.
  - destruct (proj1 (@PopBack_removes_last_without_destroying_it
                       Z int_element small_heap
                       ltac:(reflexivity) ltac:(reflexivity)
                       0%nat (mkVector (mkRawMemory (Ptr 0%nat 0) 2) 2) full_pair [1] 2
                       ltac:(reflexivity) ltac:(reflexivity) ltac:(reflexivity))
                    ltac:(reflexivity))
      as (s' & found & Hrun & _ & Hes & Hread & Htrace).
    exists s', found. split; [exact Hrun |]. split; [exact Hes |].
    split; [exact Hread | exact Htrace].
  - exact (proj2 (@PopBack_removes_last_without_destroying_it
                    Z fussy_element small_heap
                    ltac:(reflexivity) ltac:(reflexivity)
                    0%nat (mkVector (mkRawMemory (Ptr 0%nat 0) 2) 2) full_pair [1] 2
                    ltac:(reflexivity) ltac:(reflexivity) ltac:(reflexivity))
                 ltac:(reflexivity) ltac:(intros y; vm_compute; discriminate)).
Defined.

(** Witness of X10: PushBack of 3 on the full Vector [1, 2], then PopBack. *)
Lemma PushBack_then_PopBack_restores_elements_witness :
  exists s1 s2 v2,
    @PushBack_copy Z int_element small_heap 0%nat 3 full_pair = Ok tt s1 /\
    @PopBack Z int_element 0%nat s1 = Ok tt s2 /\
    objs s2 !! 0%nat = Some v2 /\
    size_ v2 = 2 /\
    elements s2 v2 = Some [1; 2] /\
    read (buffer_ (data_ v2) +ₚ 2) s2 = Ok 3 s2.
Proof.
  destruct (@PushBack_then_PopBack_restores_elements Z int_element small_heap
              ltac:(reflexivity) ltac:(reflexivity) ltac:(reflexivity)
              0%nat (mkVector (mkRawMemory (Ptr 0%nat 0) 2) 2) full_pair [1; 2] 3
              ltac:(reflexivity) ltac:(reflexivity) ltac:(reflexivity)
              ltac:(values_ok) ltac:(reflexivity) ltac:(intros _; simpl; lia))
    as [(s1 & s2 & v2 & Hpush & Hpop & Hobjs & Hsize & _ & Hes & Hread) _].
  exists s1, s2, v2. split; [exact Hpush |]. split; [exact Hpop |].
  split; [exact Hobjs |]. split; [exact Hsize |]. split; [exact Hes | exact Hread].
Defined.

(** Witness of X11: Insert of 99 at index 1 of the full Vector [1, 2]. *)
Lemma Emplace_inserts_at_position_witness :
  exists s' v',
    @Insert_copy Z int_element small_heap 0%nat (Ptr 0%nat 1) 99 full_pair
    = Ok (buffer_ (data_ v') +ₚ 1) s' /\
    elements s' v' = Some [1; 99; 2].
Proof.
  destruct (@Emplace_inserts_at_position Z int_element small_heap
              ltac:(reflexivity) ltac:(reflexivity) ltac:(reflexivity)
              0%nat (mkVector (mkRawMemory (Ptr 0%nat 0) 2) 2) full_pair [1; 2] 1 99
              ltac:(reflexivity) ltac:(reflexivity) ltac:(reflexivity)
              ltac:(values_ok) ltac:(simpl; lia) ltac:(intros _; simpl; lia))
    as (_ & (s' & v' & Hrun & _ & _ & _ & Hes) & _).
  exists s', v'. split; [exact Hrun | exact Hes].
Defined.

(** Witness of X12: Erase at index 1 of the Vector [1, 2, 3] of [int]. *)
Lemma Erase_removes_at_position_witness :
  exists s',
    @Erase Z int_element 0%nat (Ptr 0%nat 1) roomy_and_full = Ok (Ptr 0%nat 1) s' /\
    elements s' (mkVector (mkRawMemory (Ptr 0%nat 0) 4) 2) = Some [1; 3].
Proof.
  destruct (proj1 (@Erase_removes_at_position Z int_element small_heap
                     ltac:(reflexivity) ltac:(reflexivity)
                     0%nat (mkVector (mkRawMemory (Ptr 0%nat 0) 4) 3) roomy_and_full
                     [1; 2; 3] 1
                     ltac:(reflexivity) ltac:(reflexivity) ltac:(reflexivity)
                     ltac:(values_ok) ltac:(simpl; lia))
                  ltac:(reflexivity))
    as (s' & Hrun & _ & Hes).
  exists s'. split; [exact Hrun | exact Hes].
Defined.

(** Witness of X13: Emplace with a throwing constructor at index 1 of the Vector
    [13, 2] of capacity 4: [operator delete] on the address of index
    2. *)
Lemma Emplace_with_room_constructor_throws_witness :
  @Emplace Z int_element small_heap 0%nat (Ptr 0%nat 1) None roomy_pair
  = Fault (mkState (objs roomy_pair) (blocks roomy_pair) [EvDelete (Ptr 0%nat 2)]).
Proof.
  destruct (@Emplace_with_room_constructor_throws Z int_element small_heap
              ltac:(reflexivity) ltac:(reflexivity)
              0%nat (mkVector (mkRawMemory (Ptr 0%nat 0) 4) 2) roomy_pair 1
              ltac:(reflexivity) ltac:(reflexivity) ltac:(simpl; lia)
              ltac:(simpl; lia))
    as (b & Hbuf & Hrun).
  injection Hbuf as <-. exact Hrun.
Defined.

(** Witness of X14: Emplace with a throwing constructor at index 1 of the full Vector
    [1, 2]. *)
Lemma Emplace_full_constructor_throws_rolls_back_witness :
  exists s',
    @Emplace Z int_element small_heap 0%nat (Ptr 0%nat 1) None full_pair
    = Throw element_exn s' /\
    objs s' = objs full_pair /\ blocks s' = blocks full_pair.
Proof.
  destruct (@Emplace_full_constructor_throws_rolls_back Z int_element small_heap
              ltac:(reflexivity) ltac:(reflexivity) ltac:(reflexivity)
              0%nat (mkVector (mkRawMemory (Ptr 0%nat 0) 2) 2) full_pair 1
              ltac:(reflexivity) ltac:(reflexivity) ltac:(reflexivity)
              ltac:(simpl; lia) ltac:(simpl; lia))
    as (s' & Hrun & Hobjs & Hblocks & _).
  exists s'. split; [exact Hrun |]. split; [exact Hobjs | exact Hblocks].
Defined.

(** Witness of X15: index 1 and index 2 of the Vector [1, 2]. *)
Lemma index_operator_reads_element_or_asserts_witness :
  (@at_index Z 0%nat 1 full_pair = Ok (Ptr 0%nat 1) full_pair /\
   read (Ptr 0%nat 1) full_pair = Ok 2 full_pair) /\
  @at_index Z 0%nat 2 full_pair = Fault full_pair.
Proof.
  split.
  - exact (proj1 (@index_operator_reads_element_or_asserts Z int_element small_heap
                    ltac:(reflexivity)
                    0%nat (mkVector (mkRawMemory (Ptr 0%nat 0) 2) 2) full_pair [1; 2] 1
                    ltac:(reflexivity) ltac:(reflexivity) ltac:(reflexivity))
                 2 ltac:(lia) ltac:(reflexivity)).
  - exact (proj2 (@index_operator_reads_element_or_asserts Z int_element small_heap
                    ltac:(reflexivity)
                    0%nat (mkVector (mkRawMemory (Ptr 0%nat 0) 2) 2) full_pair [1; 2] 2
                    ltac:(reflexivity) ltac:(reflexivity) ltac:(reflexivity))
                 ltac:(simpl; lia)).
Defined.

(** Witness of X16: Erase at [end()] of the Vector [1, 2]. *)
Lemma positions_out_of_range_are_asserted_witness :
  @Erase Z int_element 0%nat (Ptr 0%nat 2) full_pair = Fault full_pair.
Proof.
  exact (proj1 (@positions_out_of_range_are_asserted Z int_element small_heap
                  0%nat (mkVector (mkRawMemory (Ptr 0%nat 0) 2) 2) full_pair
                  ltac:(reflexivity))).
Defined.

(** Witness of X17: Resize(1) on the Vector [1, 2, 3]. *)
Lemma Resize_down_destroys_the_tail_witness :
  exists s',
    @Resize Z int_element small_heap 0%nat 1 roomy_and_full = Ok tt s' /\
    elements s' (mkVector (mkRawMemory (Ptr 0%nat 0) 4) 1) = Some [1] /\
    trace s' = [EvDestroy (Ptr 0%nat 2) (Some 3); EvDestroy (Ptr 0%nat 1) (Some 2)].
Proof.
  destruct (proj2 (@Resize_down_destroys_the_tail Z int_element small_heap
                     ltac:(reflexivity) ltac:(reflexivity)
                     0%nat (mkVector (mkRawMemory (Ptr 0%nat 0) 4) 3) roomy_and_full
                     [1; 2; 3] 1
                     ltac:(reflexivity) ltac:(reflexivity) ltac:(reflexivity)
                     ltac:(simpl; lia))
                  ltac:(simpl; lia))
    as (s' & b & Hrun & _ & _ & Hes & Hbuf & Htrace).
  injection Hbuf as <-.
  exists s'. split; [exact Hrun |]. split; [exact Hes | exact Htrace].
Defined.

(** Witness of X18: Resize(5) on the Vector [1, 2]. *)
Lemma Resize_up_appends_value_initialized_witness :
  exists s' v',
    @Resize Z int_element small_heap 0%nat 5 full_pair = Ok tt s' /\
    capacity_ (data_ v') = 5 /\
    elements s' v' = Some [1; 2; 0; 0; 0].
Proof.
  destruct (@Resize_up_appends_value_initialized Z int_element small_heap
              ltac:(reflexivity) ltac:(reflexivity)
              0%nat (mkVector (mkRawMemory (Ptr 0%nat 0) 2) 2) full_pair [1; 2] 5 0
              ltac:(reflexivity) ltac:(reflexivity) ltac:(reflexivity)
              ltac:(values_ok) ltac:(reflexivity) ltac:(simpl; lia)
              ltac:(intros _; simpl; lia))
    as (s' & v' & Hrun & _ & _ & Hcap & _ & Hes).
  exists s', v'. split; [exact Hrun |]. split; [exact Hcap | exact Hes].
Defined.

(** Witness of X19: Resize(5) on the Vector [1, 2] of a class whose default constructor
    throws. *)
Lemma Resize_up_value_initialization_throws_witness :
  exists s' v',
    @Resize Z shy_element small_heap 0%nat 5 full_pair = Throw element_exn s' /\
    size_ v' = 2 /\ capacity_ (data_ v') = 5 /\
    elements s' v' = Some [1; 2].
Proof.
  destruct (@Resize_up_value_initialization_throws Z shy_element small_heap
              ltac:(reflexivity) ltac:(reflexivity)
              0%nat (mkVector (mkRawMemory (Ptr 0%nat 0) 2) 2) full_pair [1; 2] 5
              ltac:(reflexivity) ltac:(reflexivity) ltac:(reflexivity)
              ltac:(values_ok) ltac:(reflexivity) ltac:(simpl; lia)
              ltac:(intros _; simpl; lia))
    as (s' & v' & Hrun & _ & Hsize & Hcap & _ & Hes & _).
  exists s', v'. split; [exact Hrun |]. split; [exact Hsize |].
  split; [exact Hcap | exact Hes].
Defined.

(** Witness of X20: [Vector(3)] of [int], and of a class whose default constructor
    throws, at address 5. *)
Lemma Vector_sized_value_initializes_or_rolls_back_witness :
  (exists s' v',
     @Vector_sized Z int_element small_heap 5%nat 3 full_pair = Ok tt s' /\
     capacity_ (data_ v') = 3 /\
     elements s' v' = Some [0; 0; 0]) /\
  (exists s',
     @Vector_sized Z shy_element small_heap 5%nat 3 full_pair = Throw element_exn s' /\
     objs s' = objs full_pair /\ blocks s' = blocks full_pair).
Proof.
  split.
  - destruct (@Vector_sized_value_initializes_or_rolls_back Z int_element small_heap
                ltac:(reflexivity) ltac:(reflexivity)
                5%nat full_pair 3 ltac:(lia) ltac:(simpl; lia))
      as (s' & v' & Hrun & _ & _ & Hcap & _ & Hes & _).
    exists s', v'. split; [exact Hrun |]. split; [exact Hcap | exact Hes].
  - exact (@Vector_sized_value_initializes_or_rolls_back Z shy_element small_heap
             ltac:(reflexivity) ltac:(reflexivity)
             5%nat full_pair 3 ltac:(lia) ltac:(simpl; lia) ltac:(lia)).
Defined.

(** Witness of X21: a copy of the Vector [7, 13, 9], at address 2. *)
Lemma Vector_copy_is_tight_and_independent_witness :
  exists s' v',
    @Vector_copy Z int_element small_heap 2%nat 1%nat two_vectors = Ok tt s' /\
    capacity_ (data_ v') = 3 /\
    elements s' v' = Some [7; 13; 9] /\
    elements s' (mkVector (mkRawMemory (Ptr 1%nat 0) 3) 3) = Some [7; 13; 9].
Proof.
  destruct (@Vector_copy_is_tight_and_independent Z int_element small_heap
              ltac:(reflexivity) ltac:(reflexivity)
              2%nat 1%nat (mkVector (mkRawMemory (Ptr 1%nat 0) 3) 3) two_vectors
              [7; 13; 9] [7; 13; 9]
              ltac:(reflexivity) ltac:(reflexivity) ltac:(reflexivity)
              ltac:(lia) ltac:(reflexivity))
    as (s' & v' & Hrun & _ & _ & Hcap & _ & Hes & Hsrc & _).
  exists s', v'. split; [exact Hrun |]. split; [exact Hcap |].
  split; [exact Hes | exact Hsrc].
Defined.

(** Witness of X22: the destructor of the Vector [7, 13, 9]. *)
Lemma Vector_dtor_destroys_elements_then_releases_witness :
  exists s',
    @Vector_dtor Z int_element 1%nat two_vectors = Ok tt s' /\
    objs s' = delete 1%nat (objs two_vectors) /\
    blocks s' = delete 1%nat (blocks two_vectors) /\
    trace s' = [EvDelete (Ptr 1%nat 0); EvDestroy (Ptr 1%nat 2) (Some 9);
                EvDestroy (Ptr 1%nat 1) (Some 13); EvDestroy (Ptr 1%nat 0) (Some 7)].
Proof.
  destruct (@Vector_dtor_destroys_elements_then_releases Z int_element small_heap
              ltac:(reflexivity)
              1%nat (mkVector (mkRawMemory (Ptr 1%nat 0) 3) 3) two_vectors [7; 13; 9]
              ltac:(reflexivity) ltac:(reflexivity) ltac:(reflexivity))
    as (s' & Hrun & Hobjs & Hblocks & Htrace).
  exists s'. split; [exact Hrun |]. split; [exact Hobjs |].
  split; [exact Hblocks | exact Htrace].
Defined.

(** Witness of X23: Swap of the Vectors [1, 2] and [7, 13, 9], twice. *)
Lemma Swap_exchanges_without_touching_storage_witness :
  exists s',
    @Swap Z 0%nat 1%nat two_vectors = Ok tt s' /\
    @assign_move Z 0%nat 1%nat two_vectors = Ok tt s' /\
    objs s' !! 0%nat = Some (mkVector (mkRawMemory (Ptr 1%nat 0) 3) 3) /\
    objs s' !! 1%nat = Some (mkVector (mkRawMemory (Ptr 0%nat 0) 2) 2) /\
    blocks s' = blocks two_vectors /\
    @Swap Z 0%nat 1%nat s' = Ok tt two_vectors.
Proof.
  destruct (@Swap_exchanges_without_touching_storage Z
              0%nat 1%nat (mkVector (mkRawMemory (Ptr 0%nat 0) 2) 2)
              (mkVector (mkRawMemory (Ptr 1%nat 0) 3) 3) two_vectors
              ltac:(reflexivity) ltac:(reflexivity) ltac:(lia))
    as (s' & Hswap & Hmove & Ha & Hb & Hblocks & _ & _ & _ & Hback).
  exists s'. split; [exact Hswap |]. split; [exact Hmove |]. split; [exact Ha |].
  split; [exact Hb |]. split; [exact Hblocks | exact Hback].
Defined.

(** Witness of X24: move assignment of the storage of [7, 13, 9] to the RawMemory that
    holds the storage of [1, 2], then both destructors: block 0 is
    still allocated. *)
Lemma RawMemory_move_assignment_drops_storage_witness :
  exists s',
    (let p := RawMemory_assign_move (mkRawMemory (Ptr 0%nat 0) 2)
                                    (mkRawMemory (Ptr 1%nat 0) 3) in
     @RawMemory_dtor Z (fst p) ;;; @RawMemory_dtor Z (snd p)) two_vectors
    = Ok tt s' /\
    blocks s' !! 0%nat = Some [Some 1; Some 2].
Proof.
  destruct (@RawMemory_move_assignment_drops_storage Z
              (mkRawMemory (Ptr 0%nat 0) 2) (mkRawMemory (Ptr 1%nat 0) 3) two_vectors
              0%nat 1%nat [Some 1; Some 2] [Some 7; Some 13; Some 9]
              ltac:(reflexivity) ltac:(reflexivity) ltac:(lia)
              ltac:(reflexivity) ltac:(reflexivity))
    as (_ & _ & (s' & Hrun & _ & Hleak) & _).
  exists s'. split; [exact Hrun | exact Hleak].
Defined.

(** Witness of X25: a copy of the Vector [7, 13, 9] at address 2, and its destructor. *)
Lemma Vector_copy_then_destroy_restores_heap_witness :
  exists s1 s2,
    @Vector_copy Z int_element small_heap 2%nat 1%nat two_vectors = Ok tt s1 /\
    @Vector_dtor Z int_element 2%nat s1 = Ok tt s2 /\
    objs s2 = objs two_vectors /\ blocks s2 = blocks two_vectors.
Proof.
  destruct (@Vector_copy_then_destroy_restores_heap Z int_element small_heap
              ltac:(reflexivity) ltac:(reflexivity)
              2%nat 1%nat (mkVector (mkRawMemory (Ptr 1%nat 0) 3) 3) two_vectors
              [7; 13; 9] [7; 13; 9]
              ltac:(reflexivity) ltac:(reflexivity) ltac:(reflexivity)
              ltac:(reflexivity) ltac:(reflexivity))
    as (s1 & s2 & Hcopy & Hdtor & Hobjs & Hblocks & _).
  exists s1, s2. split; [exact Hcopy |]. split; [exact Hdtor |].
  split; [exact Hobjs | exact Hblocks].
Defined.

(** Witness of X26: copy assignment of [1, 2] to the Vector [7, 13, 9] of capacity 3. *)
Lemma copy_assignment_in_place_witness :
  exists s',
    @assign_copy Z int_element small_heap 1%nat 0%nat two_vectors = Ok tt s' /\
    objs s' !! 1%nat = Some (mkVector (mkRawMemory (Ptr 1%nat 0) 3) 2) /\
    elements s' (mkVector (mkRawMemory (Ptr 1%nat 0) 3) 2) = Some [1; 2] /\
    trace s' = [EvDestroy (Ptr 1%nat 2) (Some 9)].
Proof.
  destruct (@copy_assignment_in_place Z int_element small_heap
              ltac:(reflexivity) ltac:(reflexivity)
              1%nat 0%nat (mkVector (mkRawMemory (Ptr 1%nat 0) 3) 3)
              (mkVector (mkRawMemory (Ptr 0%nat 0) 2) 2) two_vectors
              [7; 13; 9] [1; 2]
              ltac:(lia) ltac:(reflexivity) ltac:(reflexivity)
              ltac:(reflexivity) ltac:(reflexivity)
              ltac:(reflexivity) ltac:(reflexivity)
              ltac:(right; simpl; discriminate) ltac:(simpl; lia)
              ltac:(reflexivity) ltac:(reflexivity))
    as (s' & Hrun & Hobjs & _ & Hes & _ & _ & _ & Htrace).
  exists s'. split; [exact Hrun |]. split; [| split; [exact Hes | exact Htrace]].
  rewrite Hobjs. apply lookup_insert_eq.
Defined.

(** Witness of X27: copy assignment of [7, 13, 9] to the Vector [1, 2, 3] of capacity 4,
    for a class whose copy assignment throws on 13. *)
Lemma copy_assignment_in_place_is_not_atomic_witness :
  exists s',
    @assign_copy Z fussy_element small_heap 0%nat 1%nat roomy_and_full
    = Throw element_exn s' /\
    objs s' = objs roomy_and_full /\
    elements s' (mkVector (mkRawMemory (Ptr 0%nat 0) 4) 3) = Some [7; 2; 3].
Proof.
  destruct (@copy_assignment_in_place_is_not_atomic Z fussy_element small_heap
              ltac:(reflexivity)
              0%nat 1%nat (mkVector (mkRawMemory (Ptr 0%nat 0) 4) 3)
              (mkVector (mkRawMemory (Ptr 1%nat 0) 3) 3) roomy_and_full
              [1] [3] [7] [9] 2 13
              ltac:(lia) ltac:(reflexivity) ltac:(reflexivity)
              ltac:(reflexivity) ltac:(reflexivity)
              ltac:(reflexivity) ltac:(reflexivity)
              ltac:(simpl; discriminate) ltac:(simpl; lia)
              ltac:(repeat constructor) ltac:(reflexivity))
    as (s' & Hrun & Hobjs & _ & Hes & _).
  exists s'. split; [exact Hrun |]. split; [exact Hobjs | exact Hes].
Defined.

(** Witness of X28: Reserve(10) on the full Vector [1, 2], then EmplaceBack of 3. *)
Lemma Reserve_then_EmplaceBack_keeps_storage_witness :
  exists s1 v1 s2 v2,
    @Reserve Z int_element small_heap 0%nat 10 full_pair = Ok tt s1 /\
    objs s1 !! 0%nat = Some v1 /\
    capacity_ (data_ v1) = 10 /\
    @EmplaceBack Z int_element small_heap 0%nat (Some 3) s1
    = Ok (buffer_ (data_ v1) +ₚ 2) s2 /\
    objs s2 !! 0%nat = Some v2 /\
    data_ v2 = data_ v1 /\
    elements s2 v2 = Some [1; 2; 3].
Proof.
  destruct (@Reserve_then_EmplaceBack_keeps_storage Z int_element small_heap
              ltac:(reflexivity) ltac:(reflexivity)
              0%nat (mkVector (mkRawMemory (Ptr 0%nat 0) 2) 2) full_pair [1; 2] 10 3
              ltac:(reflexivity) ltac:(reflexivity) ltac:(reflexivity)
              ltac:(values_ok) ltac:(simpl; lia) ltac:(intros _; simpl; lia))
    as (s1 & v1 & s2 & v2 & Hreserve & Hv1 & Hcap & Hrun & Hv2 & Hdata & _ & Hes).
  exists s1, v1, s2, v2. split; [exact Hreserve |]. split; [exact Hv1 |].
  split; [exact Hcap |]. split; [exact Hrun |]. split; [exact Hv2 |].
  split; [exact Hdata | exact Hes].
Defined.

(** Witness of X29: Erase at index 1 of the Vector [1, 2, 3], then Emplace of 2 at the
    same position. *)
Lemma Erase_then_Emplace_restores_vector_witness :
  exists s1 s2,
    @Erase Z int_element 0%nat (Ptr 0%nat 1) roomy_and_full = Ok (Ptr 0%nat 1) s1 /\
    @Emplace Z int_element small_heap 0%nat (Ptr 0%nat 1) (Some 2) s1
    = Ok (Ptr 0%nat 1) s2 /\
    objs s2 = objs roomy_and_full /\
    elements s2 (mkVector (mkRawMemory (Ptr 0%nat 0) 4) 3) = Some [1; 2; 3].
Proof.
  destruct (@Erase_then_Emplace_restores_vector Z int_element small_heap
              ltac:(reflexivity) ltac:(reflexivity)
              0%nat (mkVector (mkRawMemory (Ptr 0%nat 0) 4) 3) roomy_and_full
              [1; 2; 3] 1 2
              ltac:(reflexivity) ltac:(reflexivity) ltac:(reflexivity)
              ltac:(values_ok) ltac:(reflexivity) ltac:(lia) ltac:(reflexivity))
    as (s1 & s2 & Herase & Hemplace & Hobjs & Hes).
  exists s1, s2. split; [exact Herase |]. split; [exact Hemplace |].
  split; [exact Hobjs | exact Hes].
Defined.

(** Witness of X30: Reserve(10) on the full Vector [1, 2]. *)
Lemma Reserve_within_allocator_limit_witness :
  exists s' v',
    @Reserve Z int_element small_heap 0%nat 10 full_pair = Ok tt s' /\
    capacity_ (data_ v') = 10 /\
    size_ v' = 2 /\
    @well_formed Z int_element small_heap s' v' = true /\
    elements s' v' = Some [1; 2].
Proof.
  destruct (proj2 (@Reserve_within_allocator_limit Z int_element small_heap
                     ltac:(reflexivity) ltac:(reflexivity)
                     0%nat (mkVector (mkRawMemory (Ptr 0%nat 0) 2) 2) full_pair 10 [1; 2]
                     ltac:(reflexivity) ltac:(reflexivity) ltac:(reflexivity)
                     ltac:(values_ok))
                  ltac:(simpl; lia) ltac:(simpl; lia))
    as (s' & v' & Hrun & _ & Hcap & Hsize & Hwf & Hes).
  exists s', v'. split; [exact Hrun |]. split; [exact Hcap |].
  split; [exact Hsize |]. split; [exact Hwf | exact Hes].
Defined.
